(** * lensecam: acquisition and delivery core

    A shallow embedding of the acquisition worker
    ([lensecam/camera_thread.py], class [CameraThread]) and of the
    timer-driven widget ([lensecam/ids/camera_ids_widget0.py], classes
    [CameraIdsWidget] and [CameraIdsParamsWidget]), followed by the
    properties of the natural-language specification that concern them.

    Conventions.
    - A finite Python float is the rational ([Q]) it denotes; the float
      operations of the code round their exact result to the nearest
      binary64 number ([round64]); [int(x)] and the float-to-integer cast
      of [astype] truncate towards zero.
    - A numpy byte buffer is a [list Byte.byte]; an array of samples is a
      [list Z].
    - Python exceptions are values of [exn]; a method that can raise is a
      function in the state-and-exception monad [M].
    - The device wrapper [CameraIds] is an external collaborator: it is a
      record holding the parameters, the acquisition flag, the log of the
      calls it received and the outcomes of its successive [get_image]
      calls. *)

From Stdlib Require Import ZArith QArith Qround Lia Lqa String Ascii List.
From stdpp Require Import base list.
Import ListNotations.
Open Scope Z_scope.

(** ** Exceptions and the state-and-exception monad *)

Inductive exn : Type :=
| AttributeError
| IndexError
| ZeroDivisionError
| ValueError
| TypeError
| DeviceError
| RenderError
| Cv2Error.

Definition exn_name (e : exn) : string :=
  match e with
  | AttributeError => "AttributeError"
  | IndexError => "IndexError"
  | ZeroDivisionError => "ZeroDivisionError"
  | ValueError => "ValueError"
  | TypeError => "TypeError"
  | DeviceError => "DeviceError"
  | RenderError => "RenderError"
  | Cv2Error => "cv2.error"
  end.

Inductive outcome (A : Type) : Type :=
| Val (a : A)
| Exc (e : exn).
Arguments Val {A} a.
Arguments Exc {A} e.

(** A computation over a mutable object of type [S]: the object as it is
    when the computation returns or raises is always part of the result,
    since a Python exception does not roll back the writes made before it. *)
Definition M (S A : Type) : Type := S -> outcome A * S.

#[global] Instance M_ret {S} : MRet (M S) := fun A a s => (Val a, s).
#[global] Instance M_bind {S} : MBind (M S) := fun A B f m s =>
  match m s with
  | (Val a, s') => f a s'
  | (Exc e, s') => (Exc e, s')
  end.

Definition raise {S A} (e : exn) : M S A := fun s => (Exc e, s).
Definition get {S} : M S S := fun s => (Val s, s).
Definition put {S} (s : S) : M S unit := fun _ => (Val tt, s).
Definition modify {S} (f : S -> S) : M S unit := fun s => (Val tt, f s).

(** ** Numbers *)

(** [int(x)] on a float, and the C cast behind [astype]: truncation
    towards zero. *)
Definition Qtrunc (q : Q) : Z :=
  if Qnum q <? 0 then Qceiling q else Qfloor q.

(** Python's [round(x)] on a float: to the nearest integer, ties to the
    even one. *)
Definition py_round (q : Q) : Z :=
  let f := Qfloor q in
  let twice_frac := (2 * (q - inject_Z f))%Q in
  match (twice_frac ?= 1)%Q with
  | Lt => f
  | Gt => f + 1
  | Eq => if Z.even f then f else f + 1
  end.

(** ** Python floats *)

(** A finite Python float is a binary64 number and is modelled by the
    rational it denotes. The smallest positive float is [2^-1074]; every
    float is a multiple [n * 2^-1074] of it whose integer [n] has a
    significand of at most 53 bits. Results beyond the largest float
    (infinities, not-a-number) are outside the model. *)
Definition float_unit : Z := 2 ^ 1074.

(** An integer in units of [2^-1074] that is a float. *)
Definition is_float_units (n : Z) : Prop :=
  exists m k, 0 <= m < 2 ^ 53 /\ 0 <= k /\ n = m * 2 ^ k.

(** The floats around [t * 2^-1074], for [t >= 0], are [2^spacing t] units
    apart. *)
Definition spacing (t : Q) : Z := Z.max 0 (Z.log2 (Qfloor t) - 52).

(** The float nearest to [t * 2^-1074] for [t >= 0], in units of
    [2^-1074]: [t] is rounded to the nearest multiple of the spacing, a
    tie going to the even multiple. *)
Definition round_units (t : Q) : Z :=
  py_round (t / inject_Z (2 ^ spacing t)) * 2 ^ spacing t.

(** Rounding to the nearest float, ties to even: what every float
    operation does to its exact result. *)
Definition round64 (q : Q) : Q :=
  if Qle_bool 0 q
  then inject_Z (round_units (q * inject_Z float_unit)) / inject_Z float_unit
  else - (inject_Z (round_units (- q * inject_Z float_unit))
          / inject_Z float_unit).

(** [x + y], [x - y], [x * y] and [x / y] on floats. *)
Definition fadd (x y : Q) : Q := round64 (x + y).
Definition fsub (x y : Q) : Q := round64 (x - y).
Definition fmul (x y : Q) : Q := round64 (x * y).
Definition fdiv (x y : Q) : Q := round64 (x / y).

(** ** The device wrapper *)

(** A call received by the device wrapper. *)
Inductive dev_call : Type :=
| Call_init_camera
| Call_alloc_memory
| Call_start_acquisition
| Call_get_image
| Call_stop_acquisition
| Call_free_memory
| Call_is_camera_connected
| Call_get_cam_info
| Call_get_color_mode
| Call_get_frame_rate
| Call_get_exposure
| Call_set_frame_rate (v : Q)
| Call_set_exposure (v : Q)
| Call_set_black_level (v : Q).

(** What one [get_image()] call does: return a byte buffer, or raise. *)
Inductive grab : Type :=
| Buffer (raw : list Byte.byte)
| GrabFails.

(** Modelled from the spec: the device wrapper [CameraIds]
    (lensecam/ids/camera_ids.py) and [get_bits_per_pixel] are not among the
    sources. Following the device capability interface of the specification,
    the wrapper stores the acquisition parameters, reports whether it is
    acquiring ([camera_acquiring], set by [start_acquisition] and cleared by
    [stop_acquisition]) and whether it is connected, and yields one buffer
    per [get_image] call. [nb_bits] stands for
    [get_bits_per_pixel(get_color_mode())]; [images n] is the outcome of the
    [n]-th [get_image] call and [grabbed] counts the calls made so far;
    [calls] is the log of every method invoked on the wrapper, oldest
    first. Of the device calls only [get_image] is given a failing
    outcome. *)
Record Camera : Type := mkCamera {
  camera_acquiring : bool;
  connected : bool;
  frame_rate : Q;
  exposure : Q;
  black_level : Q;
  nb_bits : Z;
  images : nat -> grab;
  grabbed : nat;
  calls : list dev_call
}.

Module Device.

Definition log (d : dev_call) (c : Camera) : Camera :=
  mkCamera (camera_acquiring c) (connected c) (frame_rate c) (exposure c)
           (black_level c) (nb_bits c) (images c) (grabbed c)
           (calls c ++ [d]).

Definition with_acquiring (b : bool) (c : Camera) : Camera :=
  mkCamera b (connected c) (frame_rate c) (exposure c)
           (black_level c) (nb_bits c) (images c) (grabbed c) (calls c).

Definition with_frame_rate (v : Q) (c : Camera) : Camera :=
  mkCamera (camera_acquiring c) (connected c) v (exposure c)
           (black_level c) (nb_bits c) (images c) (grabbed c) (calls c).

Definition with_exposure (v : Q) (c : Camera) : Camera :=
  mkCamera (camera_acquiring c) (connected c) (frame_rate c) v
           (black_level c) (nb_bits c) (images c) (grabbed c) (calls c).

Definition with_black_level (v : Q) (c : Camera) : Camera :=
  mkCamera (camera_acquiring c) (connected c) (frame_rate c) (exposure c)
           v (nb_bits c) (images c) (grabbed c) (calls c).

Definition with_grabbed (n : nat) (c : Camera) : Camera :=
  mkCamera (camera_acquiring c) (connected c) (frame_rate c) (exposure c)
           (black_level c) (nb_bits c) (images c) n (calls c).

Definition init_camera (c : Camera) : Camera := log Call_init_camera c.
Definition alloc_memory (c : Camera) : Camera := log Call_alloc_memory c.
Definition start_acquisition (c : Camera) : Camera :=
  log Call_start_acquisition (with_acquiring true c).
Definition stop_acquisition (c : Camera) : Camera :=
  log Call_stop_acquisition (with_acquiring false c).
Definition free_memory (c : Camera) : Camera := log Call_free_memory c.

Definition get_image (c : Camera) : grab * Camera :=
  (images c (grabbed c), log Call_get_image (with_grabbed (S (grabbed c)) c)).

Definition is_camera_connected (c : Camera) : bool * Camera :=
  (connected c, log Call_is_camera_connected c).
Definition get_frame_rate (c : Camera) : Q * Camera :=
  (frame_rate c, log Call_get_frame_rate c).
Definition get_exposure (c : Camera) : Q * Camera :=
  (exposure c, log Call_get_exposure c).
Definition get_color_mode_bits (c : Camera) : Z * Camera :=
  (nb_bits c, log Call_get_color_mode c).
Definition get_cam_info (c : Camera) : Camera := log Call_get_cam_info c.

Definition set_frame_rate (v : Q) (c : Camera) : Camera :=
  log (Call_set_frame_rate v) (with_frame_rate v c).
Definition set_exposure (v : Q) (c : Camera) : Camera :=
  log (Call_set_exposure v) (with_exposure v c).
Definition set_black_level (v : Q) (c : Camera) : Camera :=
  log (Call_set_black_level v) (with_black_level v c).

(** The outcomes of successive [get_image] calls given as a list; past
    its end every call fails. *)
Definition script (l : list grab) : nat -> grab :=
  fun n => nth n l GrabFails.

End Device.

(** ** Numpy views and casts used by the normalisation *)

Definition byte_val (b : Byte.byte) : Z := Z.of_N (Byte.to_N b).

(** [a.view(np.uint8)] on the byte buffer. *)
Definition view_uint8 (raw : list Byte.byte) : list Z := map byte_val raw.

(** [a.view(np.uint16)] on a buffer of one row: pairs of bytes, low byte
    first; numpy raises [ValueError] when the byte count is odd. (numpy
    views an array along its last axis: on an array of several rows it
    raises as soon as one row holds an odd number of bytes. The buffer of
    the model is one row.) *)
Fixpoint view_uint16 (raw : list Byte.byte) : option (list Z) :=
  match raw with
  | [] => Some []
  | lo :: rest =>
      match rest with
      | [] => None
      | hi :: rest' =>
          match view_uint16 rest' with
          | Some l => Some (byte_val lo + 256 * byte_val hi :: l)
          | None => None
          end
      end
  end.

(** [x.astype(np.uint8)] on one float sample: truncation, then the low
    eight bits. *)
Definition astype_uint8 (q : Q) : Z := Qtrunc q mod 256.

(** [x.astype(np.uint8)] on one integer sample. *)
Definition astype_uint8_int (v : Z) : Z := v mod 256.

(** [image_array / (2 ** (nb_bits - 8))] on one sample: true division. The
    divisor is a power of two and the sample has 16 bits, so the quotient
    is a float and no rounding takes place. *)
Definition scale_sample (nb_bits : Z) (v : Z) : Q :=
  (inject_Z v / inject_Z (2 ^ (nb_bits - 8)))%Q.

(** The two branches of [get_disp_image] after the buffer was fetched:
    [nb_bits > 8] views the buffer as 16-bit samples, divides and casts;
    otherwise the bytes are the samples. *)
Definition disp_image (nb_bits : Z) (raw : list Byte.byte) : outcome (list Z) :=
  if 8 <? nb_bits then
    match view_uint16 raw with
    | Some image_array =>
        Val (map (fun v => astype_uint8 (scale_sample nb_bits v)) image_array)
    | None => Exc ValueError
    end
  else
    Val (map astype_uint8_int (view_uint8 raw)).

(** The two branches of [get_image] after the buffer was fetched: the
    buffer viewed as 16-bit samples when [nb_bits > 8], as bytes
    otherwise. *)
Definition raw_image (nb_bits : Z) (raw : list Byte.byte) : outcome (list Z) :=
  if 8 <? nb_bits then
    match view_uint16 raw with
    | Some image_array => Val image_array
    | None => Exc ValueError
    end
  else
    Val (view_uint8 raw).

(** ** The timer-driven widget (pull model) *)

Module CameraIdsWidget.

(** The part of [QTimer] the widget uses. *)
Record QTimer : Type := mkTimer {
  isActive : bool;
  interval : Z
}.

(** What the [camera_display] label shows. The resizing and the conversion
    to a pixmap are done by external functions; the label is recorded as
    showing the array that was handed to them. *)
Inductive display : Type :=
| Text (s : string)
| Pixmap (image : list Z).

Record t : Type := mk {
  camera : option Camera;
  main_timer : QTimer;
  image_array : option (list Z);
  camera_display : display;
  stdout : list string
}.

Definition with_camera (c : option Camera) (w : t) : t :=
  mk c (main_timer w) (image_array w) (camera_display w) (stdout w).
Definition with_timer (tm : QTimer) (w : t) : t :=
  mk (camera w) tm (image_array w) (camera_display w) (stdout w).
Definition with_image_array (a : option (list Z)) (w : t) : t :=
  mk (camera w) (main_timer w) a (camera_display w) (stdout w).
Definition with_display (d : display) (w : t) : t :=
  mk (camera w) (main_timer w) (image_array w) d (stdout w).
Definition print (s : string) (w : t) : t :=
  mk (camera w) (main_timer w) (image_array w) (camera_display w)
     (stdout w ++ [s]).

(** [self.camera.method()]: [AttributeError] when [self.camera] is [None]. *)
Definition camera_do (f : Camera -> Camera) : M t unit := fun w =>
  match camera w with
  | Some c => (Val tt, with_camera (Some (f c)) w)
  | None => (Exc AttributeError, w)
  end.

Definition camera_ask {A} (f : Camera -> A * Camera) : M t A := fun w =>
  match camera w with
  | Some c => let (a, c') := f c in (Val a, with_camera (Some c') w)
  | None => (Exc AttributeError, w)
  end.

Definition timer_stop (w : t) : t :=
  with_timer (mkTimer false (interval (main_timer w))) w.
Definition timer_start (w : t) : t :=
  with_timer (mkTimer true (interval (main_timer w))) w.
(** [QTimer.setInterval(ms)]: Qt replaces a negative interval by 1 ms.
    The interval is a C [int]; an interval above [2^31 - 1], for which the
    binding raises [OverflowError], is outside the model. *)
Definition timer_setInterval (ms : Z) (w : t) : t :=
  with_timer
    (mkTimer (isActive (main_timer w)) (if ms <? 0 then 1 else ms)) w.

Definition is_connected (w : t) : bool :=
  match camera w with
  | None => false
  | Some _ => true
  end.

(** [time_ms = int(1000 / fps + 10)]: a float division, a float addition
    and the truncation of the sum. *)
Definition time_ms (fps : Q) : outcome Z :=
  if Qeq_bool fps 0 then Exc ZeroDivisionError
  else Val (Qtrunc (fadd (fdiv 1000 fps) 10)).

Definition stop_acquisition (keep_active : bool) : M t unit :=
  w ← get;
  if is_connected w then
    (if isActive (main_timer w) then modify timer_stop else mret tt);;
    if keep_active then mret tt
    else camera_do Device.stop_acquisition
  else mret tt.

Definition start_acquisition : M t unit :=
  w ← get;
  if is_connected w then
    camera_do Device.start_acquisition;;
    fps ← camera_ask Device.get_frame_rate;
    match time_ms fps with
    | Exc e => raise e
    | Val ms =>
        modify (timer_setInterval ms);;
        modify timer_start
    end
  else mret tt.

Definition get_disp_image : M t (option (list Z)) :=
  conn ← camera_ask Device.is_camera_connected;
  if conn : bool then
    start_acquisition;;
    g ← camera_ask Device.get_image;
    match g with
    | GrabFails => raise DeviceError
    | Buffer raw =>
        nb_bits ← camera_ask Device.get_color_mode_bits;
        match disp_image nb_bits raw with
        | Val image_array_disp => mret (Some image_array_disp)
        | Exc e => raise e
        end
    end
  else mret None.

(** [get_image]: the raw image, not scaled to 8 bits. *)
Definition get_image : M t (option (list Z)) :=
  conn ← camera_ask Device.is_camera_connected;
  if conn : bool then
    start_acquisition;;
    g ← camera_ask Device.get_image;
    match g with
    | GrabFails => raise DeviceError
    | Buffer raw =>
        nb_bits ← camera_ask Device.get_color_mode_bits;
        match raw_image nb_bits raw with
        | Val image_array => mret (Some image_array)
        | Exc e => raise e
        end
    end
  else mret None.

(** The body of the [try] of [refresh]. [render_ok] tells whether the
    external [resize_image_ratio], [array_to_qimage] and [QPixmap]
    succeed on this call; handed [None] they fail. *)
Definition refresh_body (render_ok : bool) : M t unit :=
  w ← get;
  if is_connected w then
    img ← get_disp_image;
    modify (with_image_array img);;
    match img with
    | Some a =>
        if render_ok then modify (with_display (Pixmap a))
        else raise RenderError
    | None => raise RenderError
    end
  else modify (with_display (Text "No Camera Connected")).

Definition refresh (render_ok : bool) (w : t) : t :=
  match refresh_body render_ok w with
  | (Val _, w') => w'
  | (Exc e, w') => print ("Exception - refresh: " ++ exn_name e) w'
  end.

(** One period of [main_timer]: the [timeout] signal is connected to
    [refresh] and is emitted only while the timer is active. *)
Definition timeout (render_ok : bool) (w : t) : t :=
  if isActive (main_timer w) then refresh render_ok w else w.

(** Successive periods, one rendering outcome per period. *)
Definition timeouts (renders : list bool) (w : t) : t :=
  fold_left (fun w r => timeout r w) renders w.

End CameraIdsWidget.

(** ** The parameters panel *)

(** [s.lower()] on a string of ASCII characters. Python also lowers the
    letters outside ASCII, which the model leaves as they are; only the
    sign U+212A, which Python lowers to the ASCII letter k, is compared
    differently with an ASCII word such as the event names. *)
Definition lower_ascii (a : ascii) : ascii :=
  let n := nat_of_ascii a in
  if ((65 <=? n) && (n <=? 90))%nat then ascii_of_nat (n + 32) else a.

Fixpoint lower (s : string) : string :=
  match s with
  | EmptyString => EmptyString
  | String a s' => String (lower_ascii a) (lower s')
  end.

(** [s.split(sep)] for a one-character separator: never empty. *)
Fixpoint split (sep : ascii) (s : string) : list string :=
  match s with
  | EmptyString => [EmptyString]
  | String a s' =>
      if Ascii.eqb a sep then EmptyString :: split sep s'
      else match split sep s' with
           | [] => [String a EmptyString]
           | w :: ws => String a w :: ws
           end
  end.

Module CameraIdsParamsWidget.

(** The external [WidgetSlider]: the value the user set and the limits
    last given to [set_min_max_slider]. *)
Record WidgetSlider : Type := mkSlider {
  slider_min : Q;
  slider_max : Q;
  real_value : Q
}.

Definition set_min_max_slider (lo hi : Q) (s : WidgetSlider) : WidgetSlider :=
  mkSlider lo hi (real_value s).
Definition set_value (v : Q) (s : WidgetSlider) : WidgetSlider :=
  mkSlider (slider_min s) (slider_max s) v.

(** [parent] is the widget whose [camera] the panel drives: the camera
    object is shared, so the panel reaches the one copy held there. *)
Record t : Type := mk {
  parent : CameraIdsWidget.t;
  auto_update_check : bool;
  fps_slider : WidgetSlider;
  expotime_slider : WidgetSlider;
  blacklevel_slider : WidgetSlider;
  stdout : list string
}.

Definition with_parent (w : CameraIdsWidget.t) (p : t) : t :=
  mk w (auto_update_check p) (fps_slider p) (expotime_slider p)
     (blacklevel_slider p) (stdout p).
Definition with_expotime_slider (s : WidgetSlider) (p : t) : t :=
  mk (parent p) (auto_update_check p) (fps_slider p) s
     (blacklevel_slider p) (stdout p).
Definition print (s : string) (p : t) : t :=
  mk (parent p) (auto_update_check p) (fps_slider p) (expotime_slider p)
     (blacklevel_slider p) (stdout p ++ [s]).

(** A method of the parent widget run from the panel. *)
Definition on_parent {A} (m : M CameraIdsWidget.t A) : M t A := fun p =>
  let (r, w') := m (parent p) in (r, with_parent w' p).

Definition camera_do (f : Camera -> Camera) : M t unit :=
  on_parent (CameraIdsWidget.camera_do f).
Definition camera_ask {A} (f : Camera -> A * Camera) : M t A :=
  on_parent (CameraIdsWidget.camera_ask f).

(** [self.parent.update_params()]: the small panel reads the camera's
    name, colour mode, exposure and frame rate to refresh its labels. *)
Definition parent_update_params : M t unit :=
  camera_do Device.get_cam_info;;
  _ ← camera_ask Device.get_color_mode_bits;
  _ ← camera_ask Device.get_exposure;
  _ ← camera_ask Device.get_frame_rate;
  mret tt.

(** [str_event[i]]. *)
Definition item (l : list string) (i : nat) : M t string :=
  match nth_error l i with
  | Some s => mret s
  | None => raise IndexError
  end.

Definition update_params (event : string) : M t unit :=
  let str_event := split ":" event in
  e0 ← item str_event 0;
  p ← get;
  if negb (String.eqb (lower e0) "update")
     && String.eqb (lower e0) "slider"
     && negb (auto_update_check p)
  then mret tt
  else
    e1 ← item str_event 1;
    (if String.eqb (lower e1) "fps" then
       let value := real_value (fps_slider p) in
       expo_us ← camera_ask Device.get_exposure;
       let expo := fdiv expo_us 1000 in
       if Qeq_bool value 0 then raise ZeroDivisionError
       else
         let fps_t := fmul (fdiv 1 value) 1000 in
         let expo_val := Qtrunc (fsub fps_t 1) * 1000 in
         modify (print "Expo = .. - 1/FPS = .. --> EXP_V = ..");;
         modify (fun p => with_expotime_slider
                   (set_min_max_slider 1 (fdiv (inject_Z expo_val) 1000)
                      (expotime_slider p)) p);;
         (if negb (Qle_bool expo fps_t) then
            modify (print "UPD");;
            camera_do (Device.set_exposure (inject_Z expo_val));;
            modify (fun p => with_expotime_slider
                      (set_value (inject_Z expo_val) (expotime_slider p)) p)
          else mret tt);;
         camera_do (Device.set_frame_rate value)
     else if String.eqb (lower e1) "expo" then
       (* the exposure slider holds whole milliseconds: an exact product *)
       let value := (real_value (expotime_slider p) * 1000)%Q in
       camera_do (Device.set_exposure value)
     else if String.eqb (lower e1) "black" then
       let value := real_value (blacklevel_slider p) in
       camera_do (Device.set_black_level value)
     else modify (print "Error"));;
    parent_update_params.

End CameraIdsParamsWidget.

(** ** The acquisition worker (push model) *)

Module CameraThread.

(** The attributes of a [CameraThread]. [image_acquired] records the
    arrays emitted on the signal of that name, oldest first. *)
Record t : Type := mk {
  running : bool;
  camera : option Camera;
  stopping : bool;
  image_acquired : list (list Byte.byte);
  stdout : list string
}.

(** [__init__]. *)
Definition init : t := mk false None false [] [].

Definition set_camera (c : Camera) (self : t) : t :=
  mk (running self) (Some c) (stopping self) (image_acquired self)
     (stdout self).

Definition with_running (b : bool) (self : t) : t :=
  mk b (camera self) (stopping self) (image_acquired self) (stdout self).
Definition with_camera (c : Camera) (self : t) : t :=
  mk (running self) (Some c) (stopping self) (image_acquired self)
     (stdout self).
Definition with_stopping (b : bool) (self : t) : t :=
  mk (running self) (camera self) b (image_acquired self) (stdout self).
Definition emit (image_array : list Byte.byte) (self : t) : t :=
  mk (running self) (camera self) (stopping self)
     (image_acquired self ++ [image_array]) (stdout self).
Definition print (s : string) (self : t) : t :=
  mk (running self) (camera self) (stopping self) (image_acquired self)
     (stdout self ++ [s]).

(** *** Statement-level semantics

    Both methods are given as transition functions on the source line
    about to be executed, so that [stop], called from the controller's
    thread, can be interleaved with [run], executed by the worker. Every
    line reads or writes the shared object at most once. *)

(** Lines of [run]; [L64] holds the local [image_array], [L67] the
    exception caught by the [except] clause. *)
Inductive run_pc : Type :=
| L57 | L58 | L59 | L60 | L61 | L62 | L63
| L64 (image_array : list Byte.byte)
| L65
| L67 (e : exn)
| Run_returned.

(** Lines of [stop]; [Stop_raised] is the exception leaving [stop]. *)
Inductive stop_pc : Type :=
| L36 | L37 | L38 | L39 | L41 | L42 | L43 | L44 | L45
| Stop_returned
| Stop_raised (e : exn).

Definition run_step (pc : run_pc) (self : t) : option (run_pc * t) :=
  match pc with
  | L57 =>
      match camera self with
      | None => Some (L67 AttributeError, self)
      | Some c =>
          if camera_acquiring c then Some (L62, self)
          else Some (L58, self)
      end
  | L58 =>
      match camera self with
      | None => Some (L67 AttributeError, self)
      | Some c => Some (L59, with_camera (Device.init_camera c) self)
      end
  | L59 =>
      match camera self with
      | None => Some (L67 AttributeError, self)
      | Some c => Some (L60, with_camera (Device.alloc_memory c) self)
      end
  | L60 =>
      match camera self with
      | None => Some (L67 AttributeError, self)
      | Some c => Some (L61, with_camera (Device.start_acquisition c) self)
      end
  | L61 => Some (L62, with_running true self)
  | L62 => if running self then Some (L63, self) else Some (Run_returned, self)
  | L63 =>
      match camera self with
      | None => Some (L67 AttributeError, self)
      | Some c =>
          let (g, c') := Device.get_image c in
          match g with
          | Buffer image_array => Some (L64 image_array, with_camera c' self)
          | GrabFails => Some (L67 DeviceError, with_camera c' self)
          end
      end
  | L64 image_array => Some (L65, emit image_array self)
  | L65 => Some (L62, with_stopping false self)
  | L67 e =>
      Some (Run_returned,
            print ("Thread Running - Exception - " ++ exn_name e) self)
  | Run_returned => None
  end.

Definition stop_step (pc : stop_pc) (self : t) : option (stop_pc * t) :=
  match pc with
  | L36 =>
      match camera self with
      | None => Some (Stop_raised AttributeError, self)
      | Some c =>
          if camera_acquiring c then Some (L37, self)
          else Some (Stop_returned, self)
      end
  | L37 => Some (L38, with_running false self)
  | L38 => Some (L39, with_stopping true self)
  | L39 => if stopping self then Some (L39, self) else Some (L41, self)
  | L41 => Some (L42, print "Stop 1" self)
  | L42 =>
      match camera self with
      | None => Some (Stop_raised AttributeError, self)
      | Some c => Some (L43, with_camera (Device.stop_acquisition c) self)
      end
  | L43 => Some (L44, print "Stop 2" self)
  | L44 =>
      match camera self with
      | None => Some (Stop_raised AttributeError, self)
      | Some c => Some (L45, with_camera (Device.free_memory c) self)
      end
  | L45 => Some (Stop_returned, print "Stop 3" self)
  | Stop_returned => None
  | Stop_raised _ => None
  end.

(** *** One thread alone *)

(** [run] executed without interference, for at most [fuel] statements:
    the line reached and the object as it then is. *)
Fixpoint run_from (fuel : nat) (pc : run_pc) (self : t) : run_pc * t :=
  match fuel with
  | O => (pc, self)
  | S fuel' =>
      match run_step pc self with
      | None => (pc, self)
      | Some (pc', self') => run_from fuel' pc' self'
      end
  end.

Definition run (fuel : nat) (self : t) : run_pc * t := run_from fuel L57 self.

Fixpoint stop_from (fuel : nat) (pc : stop_pc) (self : t) : stop_pc * t :=
  match fuel with
  | O => (pc, self)
  | S fuel' =>
      match stop_step pc self with
      | None => (pc, self)
      | Some (pc', self') => stop_from fuel' pc' self'
      end
  end.

Definition stop (fuel : nat) (self : t) : stop_pc * t := stop_from fuel L36 self.

(** *** The two threads together *)

Record sys : Type := mkSys {
  self_of : t;
  run_at : run_pc;
  stop_at : stop_pc
}.

(** The worker about to enter [run], the controller about to enter
    [stop]. *)
Definition initial (self : t) : sys := mkSys self L57 L36.

(** A statement executed by one of the two threads. *)
Inductive label : Type :=
| Run (l : run_pc)
| Stop (l : stop_pc).

Inductive step : sys -> label -> sys -> Prop :=
| step_run s pc' self' :
    run_step (run_at s) (self_of s) = Some (pc', self') ->
    step s (Run (run_at s)) (mkSys self' pc' (stop_at s))
| step_stop s pc' self' :
    stop_step (stop_at s) (self_of s) = Some (pc', self') ->
    step s (Stop (stop_at s)) (mkSys self' (run_at s) pc').

(** [exec s tr s']: the interleaving [tr], oldest statement first, leads
    from [s] to [s']. *)
Inductive exec (s : sys) : list label -> sys -> Prop :=
| exec_nil : exec s [] s
| exec_snoc tr s1 l s2 :
    exec s tr s1 -> step s1 l s2 -> exec s (tr ++ [l]) s2.

(** A schedule names the thread that moves next; a thread that has
    returned is skipped. *)
Inductive thread : Type := Worker | Controller.

Definition sched_step (who : thread) (s : sys) : option (label * sys) :=
  match who with
  | Worker =>
      match run_step (run_at s) (self_of s) with
      | Some (pc', self') => Some (Run (run_at s), mkSys self' pc' (stop_at s))
      | None => None
      end
  | Controller =>
      match stop_step (stop_at s) (self_of s) with
      | Some (pc', self') => Some (Stop (stop_at s), mkSys self' (run_at s) pc')
      | None => None
      end
  end.

Fixpoint schedule (sch : list thread) (s : sys) : list label * sys :=
  match sch with
  | [] => ([], s)
  | who :: sch' =>
      match sched_step who s with
      | Some (l, s') => let (tr, s'') := schedule sch' s' in (l :: tr, s'')
      | None => schedule sch' s
      end
  end.

(** The controller's writes and device calls, in the order they occur in
    an interleaving. *)
Definition is_stop_action (l : label) : bool :=
  match l with
  | Stop L37 | Stop L38 | Stop L42 | Stop L44 => true
  | _ => false
  end.

Definition stop_actions (tr : list label) : list label :=
  filter (fun l => is_stop_action l = true) tr.

End CameraThread.

(** ** States and observations named in the statements *)

(** The interval [start_acquisition] computes for a non-zero frame rate,
    and the interval the timer then holds. *)
Definition timer_interval (fps : Q) : Z := Qtrunc (fadd (fdiv 1000 fps) 10).

Definition armed_interval (fps : Q) : Z :=
  if timer_interval fps <? 0 then 1 else timer_interval fps.

(** The frame rates for which the interval fits the C [int] of
    [setInterval]. *)
Definition rate_in_range (fps : Q) : Prop :=
  (0 < fps)%Q /\ (1000 / fps + 10 <= 2147483647)%Q.

(** The camera after a successful [start_acquisition] of the widget. *)
Definition started_camera (c : Camera) : Camera :=
  snd (Device.get_frame_rate (Device.start_acquisition c)).

(** The widget after a successful [start_acquisition]. *)
Definition started (c : Camera) (w : CameraIdsWidget.t) : CameraIdsWidget.t :=
  CameraIdsWidget.timer_start
    (CameraIdsWidget.timer_setInterval (timer_interval (frame_rate c))
       (CameraIdsWidget.with_camera (Some (started_camera c)) w)).

(** The camera after the device calls of one successful
    [get_disp_image]. *)
Definition grabbed_camera (c : Camera) : Camera :=
  snd (Device.get_color_mode_bits
         (snd (Device.get_image
                 (started_camera (snd (Device.is_camera_connected c)))))).

(** What one timer period leaves untouched on the device, and what it
    advances. *)
Definition next_device (c c' : Camera) : Prop :=
  connected c' = connected c /\ frame_rate c' = frame_rate c /\
  nb_bits c' = nb_bits c /\ images c' = images c /\
  grabbed c' = S (grabbed c).

(** The calls [self.parent.update_params()] makes on the device. *)
Definition panel_reads : list dev_call :=
  [Call_get_cam_info; Call_get_color_mode; Call_get_exposure;
   Call_get_frame_rate].

(** The camera after [set_exposure v] followed by the reads of the small
    panel. *)
Definition exposure_set_camera (v : Q) (c : Camera) : Camera :=
  Device.log Call_get_frame_rate
    (Device.log Call_get_exposure
       (Device.log Call_get_color_mode
          (Device.get_cam_info (Device.set_exposure v c)))).

(** The auto-update gate of [update_params]: an event named "slider" is
    dropped unless the auto-update box is checked. *)
Definition gate_open (e0 : string) (auto : bool) : bool :=
  negb (negb (String.eqb (lower e0) "update")
        && String.eqb (lower e0) "slider" && negb auto).

(** The frame rate of the camera a widget holds. *)
Definition widget_frame_rate (w : CameraIdsWidget.t) : option Q :=
  match CameraIdsWidget.camera w with
  | Some c => Some (frame_rate c)
  | None => None
  end.

(** The exposure of the camera a widget holds. *)
Definition widget_exposure (w : CameraIdsWidget.t) : option Q :=
  match CameraIdsWidget.camera w with
  | Some c => Some (exposure c)
  | None => None
  end.

(** The calls received by the camera a widget holds. *)
Definition widget_calls (w : CameraIdsWidget.t) : list dev_call :=
  match CameraIdsWidget.camera w with
  | Some c => calls c
  | None => []
  end.

(** What the [except] clause of [run] prints for a failed grab. *)
Definition grab_failure_message : string :=
  "Thread Running - Exception - DeviceError".

(** The lines of [run] that follow the guarded initialisation. *)
Definition past_init (pc : CameraThread.run_pc) : Prop :=
  match pc with
  | CameraThread.L57 | CameraThread.L58 | CameraThread.L59
  | CameraThread.L60 | CameraThread.L61 => False
  | _ => True
  end.

(** ** The timer interval in the words of the specification *)


(** ** The stop protocol as seen in an interleaving *)

(** The handshake: the controller clears [running] (line 37), sets
    [stopping] (line 38), and afterwards the loop clears [stopping]
    (line 65). *)
Definition handshake : list CameraThread.label :=
  [CameraThread.Stop CameraThread.L37; CameraThread.Stop CameraThread.L38;
   CameraThread.Run CameraThread.L65].

(** The controller's writes and device calls in program order: clear
    [running], set [stopping], [stop_acquisition], [free_memory]. *)
Definition stop_order : list CameraThread.label :=
  [CameraThread.Stop CameraThread.L37; CameraThread.Stop CameraThread.L38;
   CameraThread.Stop CameraThread.L42; CameraThread.Stop CameraThread.L44].

(** The worker sets [running] (line 61) after the controller has cleared
    it (line 37): the stop request came before the loop was running. *)
Definition set_after_clear : list CameraThread.label :=
  [CameraThread.Stop CameraThread.L37; CameraThread.Run CameraThread.L61].

(** What holds of an interleaving [tr] according to the line the
    controller has reached. *)
Definition stop_inv (s : CameraThread.sys) (tr : list CameraThread.label)
  : Prop :=
  match CameraThread.stop_at s with
  | CameraThread.L36 | CameraThread.L37 =>
      CameraThread.stop_actions tr = []
  | CameraThread.L38 =>
      CameraThread.stop_actions tr = take 1 stop_order /\
      take 1 handshake `sublist_of` tr
  | CameraThread.L39 =>
      CameraThread.stop_actions tr = take 2 stop_order /\
      take 2 handshake `sublist_of` tr /\
      (CameraThread.stopping (CameraThread.self_of s) = false ->
       handshake `sublist_of` tr)
  | CameraThread.L41 | CameraThread.L42 =>
      CameraThread.stop_actions tr = take 2 stop_order /\
      handshake `sublist_of` tr
  | CameraThread.L43 | CameraThread.L44 =>
      CameraThread.stop_actions tr = take 3 stop_order /\
      handshake `sublist_of` tr
  | CameraThread.L45 =>
      CameraThread.stop_actions tr = stop_order /\
      handshake `sublist_of` tr
  | CameraThread.Stop_returned =>
      CameraThread.stop_actions tr = [] \/
      CameraThread.stop_actions tr = stop_order
  | CameraThread.Stop_raised _ =>
      CameraThread.stop_actions tr `prefix_of` stop_order
  end.

(** What the handshake leaves of the loop, when the stop request came
    while it was running: the flag is cleared, and once the marker has been
    cleared the worker is at the test of the flag or has returned. *)
Definition parked_inv (s : CameraThread.sys) (tr : list CameraThread.label)
  : Prop :=
  ~ set_after_clear `sublist_of` tr ->
  (take 1 handshake `sublist_of` tr ->
   CameraThread.running (CameraThread.self_of s) = false) /\
  (handshake `sublist_of` tr ->
   CameraThread.run_at s = CameraThread.L62 \/
   CameraThread.run_at s = CameraThread.Run_returned).

(** ** Devices, objects and schedules used as instances *)

(** Three 12-bit samples, 4095, 16 and 0, low byte first. *)
Definition raw12 : list Byte.byte :=
  [Byte.xff; Byte.x0f; Byte.x10; Byte.x00; Byte.x00; Byte.x00].

(** A connected, idle camera with the defaults [connect_camera] sets
    (exposure 10 ms, black level 0), a given bit depth and frame rate, and
    the given outcomes for its [get_image] calls. *)
Definition a_camera (bits : Z) (fps : Q) (imgs : list grab) : Camera :=
  mkCamera false true fps 10000 0 bits (Device.script imgs) 0 [].

Definition camera12 : Camera := a_camera 12 10 [Buffer raw12].

(** A 12-bit camera whose first grab fails, whose second buffer has an odd
    byte count, and whose third buffer is [raw12]. *)
Definition faulty_camera12 : Camera :=
  a_camera 12 10 [GrabFails; Buffer [Byte.x01]; Buffer raw12].

(** A 12-bit camera handing over a one-byte buffer, which cannot be viewed
    as 16-bit samples, then [raw12], then failing. *)
Definition odd_then_good_camera : Camera :=
  a_camera 12 10 [Buffer [Byte.x01]; Buffer raw12].

(** A camera whose first grab fails and whose later grabs all return
    [raw12]. *)
Definition glitching_camera : Camera :=
  mkCamera false true 10 10000 0 12
    (fun n => match n with O => GrabFails | S _ => Buffer raw12 end) 0 [].

(** A camera that hands over [raw12] at every grab. *)
Definition steady_camera : Camera :=
  mkCamera false true 10 10000 0 12 (fun _ => Buffer raw12) 0 [].

(** A widget holding a camera, its timer armed at the 100 ms of
    [__init__]. *)
Definition a_widget (c : Camera) : CameraIdsWidget.t :=
  CameraIdsWidget.mk (Some c) (CameraIdsWidget.mkTimer true 100) None
    (CameraIdsWidget.Text "Test") [].

(** A widget holding a camera, its timer stopped. *)
Definition an_idle_widget (c : Camera) : CameraIdsWidget.t :=
  CameraIdsWidget.mk (Some c) (CameraIdsWidget.mkTimer false 100) None
    (CameraIdsWidget.Text "Test") [].

(** A parameters panel over a widget, with the given slider values (frames
    per second, exposure in ms, black level) and auto-update box. *)
Definition a_panel (w : CameraIdsWidget.t) (fps expo black : Q) (auto : bool)
  : CameraIdsParamsWidget.t :=
  CameraIdsParamsWidget.mk w auto
    (CameraIdsParamsWidget.mkSlider 5 50 fps)
    (CameraIdsParamsWidget.mkSlider 1 99 expo)
    (CameraIdsParamsWidget.mkSlider 0 255 black) [].

(** The worker object after a first [run] on [glitching_camera] has ended
    on the exception of the failed grab. *)
Definition crashed_worker : CameraThread.t :=
  Eval vm_compute in
    snd (CameraThread.run 20
           (CameraThread.set_camera glitching_camera CameraThread.init)).

(** A stop request issued once the loop runs: the worker executes its
    first six statements, the controller asks to stop, the worker finishes
    its iteration, and the controller goes on. *)
Definition stop_while_running : list CameraThread.thread :=
  repeat CameraThread.Worker 6 ++ repeat CameraThread.Controller 4
  ++ repeat CameraThread.Worker 4 ++ repeat CameraThread.Controller 7.

(** A stop request issued between lines 60 and 61 of [run]. *)
Definition stop_before_running : list CameraThread.thread :=
  repeat CameraThread.Worker 4 ++ repeat CameraThread.Controller 3
  ++ repeat CameraThread.Worker 5 ++ repeat CameraThread.Controller 6
  ++ repeat CameraThread.Worker 4.

(** ** Proof automation *)

(** Case analysis on the tests a transition function makes. *)
Ltac step_cases H :=
  repeat match type of H with
         | context [match ?x with _ => _ end] => destruct x eqn:?
         end.

(** Refutes [p `sublist_of` tr] for concrete [p] and [tr]. *)
Ltac no_sublist :=
  let H := fresh "H" in
  intros H;
  repeat match goal with
         | H : _ `sublist_of` _ |- _ => inversion H; clear H; subst
         end.


(** ** Definitions for the further properties *)

(** What [get_disp_image] makes of one sample of [get_image]. *)
Definition to_display (nb_bits : Z) (v : Z) : Z :=
  if 8 <? nb_bits then astype_uint8 (scale_sample nb_bits v) else v.


(** Whether the camera a widget holds reports that it is acquiring. *)
Definition widget_acquiring (w : CameraIdsWidget.t) : option bool :=
  match CameraIdsWidget.camera w with
  | Some c => Some (camera_acquiring c)
  | None => None
  end.

(** The number of calls in a device log that satisfy [f]. *)
Definition count_calls (f : dev_call -> bool) (l : list dev_call) : nat :=
  length (List.filter f l).

Definition is_start_call (d : dev_call) : bool :=
  match d with Call_start_acquisition => true | _ => false end.

Definition is_get_image_call (d : dev_call) : bool :=
  match d with Call_get_image => true | _ => false end.

Definition is_lifecycle_call (d : dev_call) : bool :=
  match d with
  | Call_init_camera | Call_alloc_memory | Call_stop_acquisition
  | Call_free_memory => true
  | _ => false
  end.

Definition is_setter_call (d : dev_call) : bool :=
  match d with
  | Call_set_frame_rate _ | Call_set_exposure _ | Call_set_black_level _ =>
      true
  | _ => false
  end.

(** The device calls of one timer period on a connected camera; the colour
    mode is read only when the grab handed over a buffer. *)
Definition period_calls (buffer : bool) : list dev_call :=
  [Call_is_camera_connected; Call_start_acquisition; Call_get_frame_rate;
   Call_get_image] ++ (if buffer then [Call_get_color_mode] else []).


(** Whether a string holds ASCII characters only: on such a string
    Python's [lower] is [lower]. *)
Fixpoint is_ascii (s : string) : bool :=
  match s with
  | EmptyString => true
  | String a s' => (nat_of_ascii a <? 128)%nat && is_ascii s'
  end.

(** The frame period in milliseconds an "fps" event computes from the
    slider value, and the exposure in microseconds it falls back to. *)
Definition fps_t (value : Q) : Q := fmul (fdiv 1 value) 1000.

Definition expo_val (value : Q) : Z := Qtrunc (fsub (fps_t value) 1) * 1000.

(** Whether an "fps" event lowers the exposure: the current exposure in
    milliseconds is above the new frame period. *)
Definition exposure_too_long (value : Q) (c : Camera) : bool :=
  negb (Qle_bool (fdiv (exposure c) 1000) (fps_t value)).

(** The camera after the reads of the small panel. *)
Definition panel_read_camera (c : Camera) : Camera :=
  Device.log Call_get_frame_rate
    (Device.log Call_get_exposure
       (Device.log Call_get_color_mode (Device.get_cam_info c))).

(** The camera after an "fps" event with slider value [value]. *)
Definition rate_set_camera (value : Q) (c : Camera) : Camera :=
  let c1 := snd (Device.get_exposure c) in
  let c2 := if exposure_too_long value c
            then Device.set_exposure (inject_Z (expo_val value)) c1
            else c1 in
  panel_read_camera (Device.set_frame_rate value c2).


(** Whether the camera of a worker object reports that it is acquiring. *)
Definition thread_acquiring (self : CameraThread.t) : bool :=
  match CameraThread.camera self with
  | Some c => camera_acquiring c
  | None => false
  end.

(** The emitted frames [frames] are the buffers the device handed over
    from its [g0]-th grab on, in order; [pc] tells whether one more grab
    has been made whose buffer is not emitted yet, or has failed. *)
Definition emitted_inv (imgs : nat -> grab) (g0 : nat)
    (base : list (list Byte.byte)) (pc : CameraThread.run_pc)
    (self : CameraThread.t) : Prop :=
  exists c frames,
    CameraThread.camera self = Some c /\ images c = imgs /\
    CameraThread.image_acquired self = base ++ frames /\
    map Buffer frames = map imgs (seq g0 (length frames)) /\
    match pc with
    | CameraThread.L64 image_array =>
        grabbed c = S (g0 + length frames) /\
        imgs (g0 + length frames)%nat = Buffer image_array
    | CameraThread.L67 _ | CameraThread.Run_returned =>
        grabbed c = (g0 + length frames)%nat \/
        grabbed c = S (g0 + length frames)
    | _ => grabbed c = (g0 + length frames)%nat
    end.

(** The controller is still inside [stop], before its device calls. *)
Definition stop_waiting (pc : CameraThread.stop_pc) : Prop :=
  match pc with
  | CameraThread.L36 | CameraThread.L37 | CameraThread.L38
  | CameraThread.L39 => True
  | _ => False
  end.

(** What holds once the controller has reached line 42: the loop has been
    entered, and the device does not acquire any more. *)
Definition stopped_inv (s : CameraThread.sys) (tr : list CameraThread.label)
  : Prop :=
  (In (CameraThread.Run CameraThread.L65) tr ->
   past_init (CameraThread.run_at s)) /\
  (In (CameraThread.Stop CameraThread.L42) tr ->
   In (CameraThread.Run CameraThread.L65) tr /\
   thread_acquiring (CameraThread.self_of s) = false).


(** ** The test windows *)

(** [MainWindow] of [camera_ids_widget.py]: a worker thread and a camera
    widget over one camera object. The camera is kept in the worker
    object; [camera_widget] is [None] until [set_camera] and otherwise
    holds what the widget displays. *)
Module MainWindow.

Record t : Type := mk {
  camera_thread : CameraThread.t;
  camera_widget : option CameraIdsWidget.display;
  stdout : list string
}.

Definition with_thread (th : CameraThread.t) (m : t) : t :=
  mk th (camera_widget m) (stdout m).
Definition with_widget (d : CameraIdsWidget.display) (m : t) : t :=
  mk (camera_thread m) (Some d) (stdout m).
Definition print (s : string) (m : t) : t :=
  mk (camera_thread m) (camera_widget m) (stdout m ++ [s]).

(** [set_camera]. *)
Definition set_camera (c : Camera) (m : t) : t :=
  mk (CameraThread.set_camera c (camera_thread m))
     (Some (CameraIdsWidget.Text "Image")) (stdout m).

(** [self.camera_widget.camera.method()]. *)
Definition camera_do (f : Camera -> Camera) : M t unit := fun m =>
  match camera_widget m, CameraThread.camera (camera_thread m) with
  | Some _, Some c =>
      (Val tt, with_thread (CameraThread.with_camera (f c) (camera_thread m)) m)
  | _, _ => (Exc AttributeError, m)
  end.

Definition camera_ask {A} (f : Camera -> A * Camera) : M t A := fun m =>
  match camera_widget m, CameraThread.camera (camera_thread m) with
  | Some _, Some c =>
      let (a, c') := f c in
      (Val a, with_thread (CameraThread.with_camera c' (camera_thread m)) m)
  | _, _ => (Exc AttributeError, m)
  end.

(** The body of the [try] of the 'get' branch of [action_remote]. With
    [nb_bits] fixed at 8 the array shown is the raw buffer. [render_ok]
    tells whether the external resizing and conversion succeed. *)
Definition action_get_body (render_ok : bool) : M t unit :=
  camera_do Device.init_camera;;
  camera_do Device.alloc_memory;;
  camera_do Device.start_acquisition;;
  g ← camera_ask Device.get_image;
  match g with
  | GrabFails => raise DeviceError
  | Buffer raw_array =>
      modify (print "uint8");;
      (if render_ok
       then modify (with_widget (CameraIdsWidget.Pixmap (view_uint8 raw_array)))
       else raise RenderError);;
      camera_do Device.stop_acquisition;;
      camera_do Device.free_memory
  end.

(** [action_remote('get')]. *)
Definition action_get (render_ok : bool) (m : t) : t :=
  match action_get_body render_ok m with
  | (Val _, m') => m'
  | (Exc e, m') => print ("Exception - action_get_image: " ++ exn_name e) m'
  end.

End MainWindow.

(** [MyMainWindow] of [camera_ids_widget0.py]: the widget and the image
    files written by 'Mode GET'. *)
Module MyMainWindow.

Record t : Type := mk {
  central_widget : CameraIdsWidget.t;
  files : list (string * list Z);
  stdout : list string
}.

Definition with_widget (w : CameraIdsWidget.t) (m : t) : t :=
  mk w (files m) (stdout m).
Definition print (s : string) (m : t) : t :=
  mk (central_widget m) (files m) (stdout m ++ [s]).

Definition on_widget {A} (f : M CameraIdsWidget.t A) : M t A := fun m =>
  let (r, w') := f (central_widget m) in (r, with_widget w' m).

(** [cv2.imwrite(name, pict)]: the external function raises [cv2.error]
    on [None] and on an empty array. *)
Definition imwrite (name : string) (pict : option (list Z)) : M t unit :=
  fun m =>
    match pict with
    | Some (v :: a) =>
        (Val tt,
         mk (central_widget m) (files m ++ [(name, v :: a)]) (stdout m))
    | Some [] | None => (Exc Cv2Error, m)
    end.

Definition action_mode_stop : M t unit :=
  modify (print "STOP");;
  on_widget (CameraIdsWidget.stop_acquisition true).

Definition action_mode_acq : M t unit :=
  modify (print "ACQ");;
  on_widget CameraIdsWidget.start_acquisition.

(** One of the five grabs of [action_mode_get]. *)
Definition grab_to (name : string) : M t unit :=
  pict ← on_widget CameraIdsWidget.get_image;
  imwrite name pict;;
  modify (print "2").

Definition action_mode_get : M t unit :=
  modify (print "GET");;
  on_widget (CameraIdsWidget.stop_acquisition false);;
  grab_to "myImage1.png";;
  grab_to "myImage2.png";;
  grab_to "myImage3.png";;
  grab_to "myImage4.png";;
  grab_to "myImage5.png";;
  on_widget CameraIdsWidget.start_acquisition.

End MyMainWindow.


(** ** Definitions for the properties of the test windows *)

(** The camera object a [MainWindow] shares with its worker. *)
Definition window_camera (m : MainWindow.t) : option Camera :=
  CameraThread.camera (MainWindow.camera_thread m).

(** Whether a 'get' request reaches its last line: the grab hands over a
    buffer and the rendering succeeds. *)
Definition remote_get_completes (render_ok : bool) (g : grab) : bool :=
  match g with
  | Buffer _ => render_ok
  | GrabFails => false
  end.

(** The device calls of a 'get' request. *)
Definition remote_get_calls (complete : bool) : list dev_call :=
  [Call_init_camera; Call_alloc_memory; Call_start_acquisition;
   Call_get_image]
  ++ (if complete then [Call_stop_acquisition; Call_free_memory] else []).

(** What the label shows after a 'get' request. *)
Definition remote_get_display (render_ok : bool) (g : grab)
    (d : CameraIdsWidget.display) : CameraIdsWidget.display :=
  match g with
  | Buffer raw => if render_ok then CameraIdsWidget.Pixmap (view_uint8 raw) else d
  | GrabFails => d
  end.

(** The file names of 'Mode GET', in the order they are written. *)
Definition mode_get_names : list string :=
  ["myImage1.png"; "myImage2.png"; "myImage3.png"; "myImage4.png";
   "myImage5.png"]%string.

(** The image 'Mode GET' can write for the [i]-th next grab of the camera
    [c]: the grab hands over a buffer that can be viewed at the camera's
    bit depth and is not empty. *)
Definition picture (c : Camera) (i : nat) : option (list Z) :=
  match images c (grabbed c + i) with
  | Buffer raw =>
      match raw_image (nb_bits c) raw with
      | Val (v :: a) => Some (v :: a)
      | Val [] | Exc _ => None
      end
  | GrabFails => None
  end.

(** The grabs of 'Mode GET' for a list of file names, followed by [k]. *)
Fixpoint grabs_then (names : list string) (k : M MyMainWindow.t unit)
  : M MyMainWindow.t unit :=
  match names with
  | [] => k
  | name :: names' => MyMainWindow.grab_to name;; grabs_then names' k
  end.

(** The widget holds the camera [c] as it is after [k] more grabs and
    the device calls [extra]. *)
Definition advanced (c : Camera) (k : nat) (extra : list dev_call)
    (w : CameraIdsWidget.t) : Prop :=
  exists ck,
    CameraIdsWidget.camera w = Some ck /\
    connected ck = connected c /\ frame_rate ck = frame_rate c /\
    nb_bits ck = nb_bits c /\ images ck = images c /\
    grabbed ck = (grabbed c + k)%nat /\
    calls ck = calls c ++ extra.

(** The device calls of [k] grabs of [get_image] that hand over a
    buffer. *)
Definition grabs_calls (k : nat) : list dev_call :=
  concat (replicate k (period_calls true)).

(** Five distinct two-byte frames, then failure. *)
Definition five_frame_camera : Camera :=
  a_camera 8 10
    [Buffer [Byte.x01; Byte.x02]; Buffer [Byte.x03; Byte.x04];
     Buffer [Byte.x05; Byte.x06]; Buffer [Byte.x07; Byte.x08];
     Buffer [Byte.x09; Byte.x0a]].

(** Two frames, then failure. *)
Definition two_frame_camera : Camera :=
  a_camera 8 10 [Buffer [Byte.x01; Byte.x02]; Buffer [Byte.x03; Byte.x04]].

Definition a_window (c : Camera) : MyMainWindow.t :=
  MyMainWindow.mk (a_widget c) [] [].

Definition a_main_window (c : Camera) : MainWindow.t :=
  MainWindow.set_camera c
    (MainWindow.mk CameraThread.init None []).

(** * Properties *)

(** ** Rounding to the nearest float *)

Section Binary64.

Lemma py_round_bounds (q : Q) : Qfloor q <= py_round q <= Qfloor q + 1.
Proof.
  unfold py_round.
  destruct (2 * (q - inject_Z (Qfloor q)) ?= 1)%Q; [destruct (Z.even _)| |]; lia.
Qed.

Lemma py_round_mono (p q : Q) : (p <= q)%Q -> py_round p <= py_round q.
Proof.
  intros H. pose proof (Qfloor_resp_le _ _ H) as Hf.
  destruct (Z.eq_dec (Qfloor p) (Qfloor q)) as [E|E].
  - unfold py_round. rewrite E.
    destruct (Qcompare_spec (2 * (p - inject_Z (Qfloor q))) 1) as [H1|H1|H1];
      destruct (Qcompare_spec (2 * (q - inject_Z (Qfloor q))) 1) as [H2|H2|H2];
      try (destruct (Z.even (Qfloor q))); try lia; exfalso; lra.
  - pose proof (py_round_bounds p). pose proof (py_round_bounds q). lia.
Qed.

Lemma py_round_comp (p q : Q) : (p == q)%Q -> py_round p = py_round q.
Proof.
  intros H. apply Z.le_antisymm; apply py_round_mono; rewrite H; apply Qle_refl.
Qed.

Lemma py_round_Z (n : Z) : py_round (inject_Z n) = n.
Proof.
  unfold py_round. rewrite Qfloor_Z.
  destruct (Qcompare_spec (2 * (inject_Z n - inject_Z n)) 1) as [H|H|H];
    [exfalso; lra | reflexivity | exfalso; lra].
Qed.


Lemma spacing_nonneg (t : Q) : 0 <= spacing t.
Proof. unfold spacing. lia. Qed.

Lemma pow2_pos (s : Z) : 0 <= s -> 0 < 2 ^ s.
Proof. intros H. apply Z.pow_pos_nonneg; lia. Qed.

Lemma inject_pow2_pos (s : Z) : 0 <= s -> (0 < inject_Z (2 ^ s))%Q.
Proof.
  intros H. change 0%Q with (inject_Z 0). rewrite <- Zlt_Qlt.
  apply pow2_pos, H.
Qed.

Lemma spacing_mono (t1 t2 : Q) : (t1 <= t2)%Q -> spacing t1 <= spacing t2.
Proof.
  intros H. unfold spacing.
  pose proof (Z.log2_le_mono _ _ (Qfloor_resp_le _ _ H)). lia.
Qed.

Lemma floor_lt_pow (n : Z) : 0 <= n -> n < 2 ^ (Z.log2 n + 1).
Proof.
  intros H. destruct (Z.eq_dec n 0) as [->|Hn]; [reflexivity|].
  apply Z.log2_spec. lia.
Qed.

Lemma below_spacing (t : Q) :
  (0 <= t)%Q -> (t < inject_Z (2 ^ 53 * 2 ^ spacing t))%Q.
Proof.
  intros H.
  assert (H0 : 0 <= Qfloor t).
  { change 0 with (Qfloor 0). apply Qfloor_resp_le, H. }
  apply (Qlt_le_trans _ (inject_Z (Qfloor t + 1))); [apply Qlt_floor|].
  rewrite <- Zle_Qle. rewrite <- Z.pow_add_r by (pose proof (spacing_nonneg t); lia).
  pose proof (floor_lt_pow _ H0).
  assert (2 ^ (Z.log2 (Qfloor t) + 1) <= 2 ^ (53 + spacing t)).
  { apply Z.pow_le_mono_r; [lia|]. unfold spacing. lia. }
  lia.
Qed.

Lemma above_spacing (t : Q) :
  0 < spacing t -> (inject_Z (2 ^ 52 * 2 ^ spacing t) <= t)%Q.
Proof.
  intros H.
  apply (Qle_trans _ (inject_Z (Qfloor t))); [|apply Qfloor_le].
  rewrite <- Zle_Qle. rewrite <- Z.pow_add_r by lia.
  unfold spacing in *.
  assert (Hl : 53 <= Z.log2 (Qfloor t)) by lia.
  assert (Hp : 0 < Qfloor t).
  { destruct (Z.le_gt_cases (Qfloor t) 0) as [Hn|Hn]; [|exact Hn].
    rewrite (Z.log2_nonpos (Qfloor t) Hn) in Hl. lia. }
  replace (52 + Z.max 0 (Z.log2 (Qfloor t) - 52)) with (Z.log2 (Qfloor t)) by lia.
  apply Z.log2_spec, Hp.
Qed.

Lemma Qdiv_inject (n p : Z) :
  0 < p -> (inject_Z (n * p) / inject_Z p == inject_Z n)%Q.
Proof.
  intros Hp. rewrite inject_Z_mult. field.
  intros E. unfold Qeq in E. cbn in E. lia.
Qed.

Lemma Qdiv_le_mono (a b : Q) (p : Z) :
  0 < p -> (a <= b)%Q -> (a / inject_Z p <= b / inject_Z p)%Q.
Proof.
  intros Hp H. apply Qmult_le_compat_r; [exact H|].
  apply Qlt_le_weak, Qinv_lt_0_compat.
  change 0%Q with (inject_Z 0). rewrite <- Zlt_Qlt. exact Hp.
Qed.

(** The significand [round_units] keeps. *)
Lemma significand_bounds (t : Q) :
  (0 <= t)%Q ->
  0 <= py_round (t / inject_Z (2 ^ spacing t)) <= 2 ^ 53 /\
  (0 < spacing t -> 2 ^ 52 <= py_round (t / inject_Z (2 ^ spacing t))).
Proof.
  intros H. pose proof (spacing_nonneg t) as Hs.
  pose proof (pow2_pos _ Hs) as Hp.
  split; [split|].
  - rewrite <- (py_round_Z 0). apply py_round_mono.
    rewrite <- (Qdiv_inject 0 (2 ^ spacing t) Hp) at 1.
    apply Qdiv_le_mono; [exact Hp|]. exact H.
  - rewrite <- (py_round_Z (2 ^ 53)). apply py_round_mono.
    rewrite <- (Qdiv_inject (2 ^ 53) (2 ^ spacing t) Hp).
    apply Qdiv_le_mono; [exact Hp|].
    apply Qlt_le_weak, below_spacing, H.
  - intros Hpos. rewrite <- (py_round_Z (2 ^ 52)). apply py_round_mono.
    rewrite <- (Qdiv_inject (2 ^ 52) (2 ^ spacing t) Hp).
    apply Qdiv_le_mono; [exact Hp|]. apply above_spacing, Hpos.
Qed.

Lemma round_units_nonneg (t : Q) : (0 <= t)%Q -> 0 <= round_units t.
Proof.
  intros H. unfold round_units.
  pose proof (significand_bounds t H) as [[H1 _] _].
  pose proof (pow2_pos _ (spacing_nonneg t)). nia.
Qed.

Lemma round_units_comp (t1 t2 : Q) :
  (t1 == t2)%Q -> round_units t1 = round_units t2.
Proof.
  intros H. unfold round_units, spacing. rewrite (Qfloor_comp _ _ H).
  f_equal. apply py_round_comp. rewrite H. reflexivity.
Qed.

Lemma round_units_mono (t1 t2 : Q) :
  (0 <= t1)%Q -> (t1 <= t2)%Q -> round_units t1 <= round_units t2.
Proof.
  intros H1 H.
  assert (H2 : (0 <= t2)%Q) by (apply (Qle_trans _ t1); assumption).
  pose proof (spacing_mono _ _ H) as Hs.
  pose proof (spacing_nonneg t1) as Hs1.
  pose proof (pow2_pos _ Hs1) as Hp1.
  unfold round_units.
  destruct (Z.eq_dec (spacing t1) (spacing t2)) as [E|E].
  - rewrite <- E. apply Z.mul_le_mono_nonneg_r; [lia|].
    apply py_round_mono, Qdiv_le_mono; assumption.
  - pose proof (significand_bounds t1 H1) as [[_ Hu] _].
    pose proof (significand_bounds t2 H2) as [_ Hl].
    specialize (Hl ltac:(lia)).
    pose proof (pow2_pos (spacing t2) ltac:(lia)) as Hp2.
    assert (Hpow : 2 ^ 53 * 2 ^ spacing t1 <= 2 ^ 52 * 2 ^ spacing t2).
    { rewrite <- !Z.pow_add_r by lia. apply Z.pow_le_mono_r; lia. }
    nia.
Qed.

Lemma round_units_fixed (n : Z) : is_float_units n -> round_units (inject_Z n) = n.
Proof.
  intros (m & k & Hm & Hk & ->).
  unfold round_units.
  set (s := spacing _).
  assert (Hs : 0 <= s) by apply spacing_nonneg.
  assert (Hsk : s <= k).
  { unfold s, spacing. rewrite Qfloor_Z.
    destruct (Z.eq_dec m 0) as [->|Hm0];
      [rewrite Z.mul_0_l; change (Z.log2 0) with 0; lia|].
    rewrite Z.log2_mul_pow2 by lia.
    assert (Z.log2 m < 53) by (apply Z.log2_lt_pow2; lia). lia. }
  assert (E : m * 2 ^ k = (m * 2 ^ (k - s)) * 2 ^ s).
  { rewrite <- Z.mul_assoc, <- Z.pow_add_r by lia. do 2 f_equal. lia. }
  rewrite (py_round_comp _ (inject_Z (m * 2 ^ (k - s)))).
  - rewrite py_round_Z. symmetry. exact E.
  - rewrite E at 1. apply Qdiv_inject, pow2_pos, Hs.
Qed.

Lemma round_units_is_float (t : Q) : (0 <= t)%Q -> is_float_units (round_units t).
Proof.
  intros H. unfold round_units.
  pose proof (significand_bounds t H) as [[H0 Hu] _].
  pose proof (spacing_nonneg t) as Hs.
  destruct (Z.eq_dec (py_round (t / inject_Z (2 ^ spacing t))) (2 ^ 53)) as [E|E].
  - exists (2 ^ 52), (spacing t + 1). rewrite E. split; [split; [lia|reflexivity]|].
    split; [lia|]. rewrite Z.pow_add_r by lia.
    change (2 ^ 53) with (2 ^ 52 * 2). change (2 ^ 1) with 2. ring.
  - exists (py_round (t / inject_Z (2 ^ spacing t))), (spacing t).
    split; [lia|]. split; [exact Hs | reflexivity].
Qed.

Lemma float_unit_pos : 0 < float_unit.
Proof. reflexivity. Qed.

Lemma float_unit_Qpos : (0 < inject_Z float_unit)%Q.
Proof. change 0%Q with (inject_Z 0). rewrite <- Zlt_Qlt. exact float_unit_pos. Qed.

Lemma float_unit_nonzero : ~ (inject_Z float_unit == 0)%Q.
Proof. intros E. pose proof float_unit_Qpos as H. rewrite E in H. discriminate H. Qed.

Lemma round64_nonneg_eq (q : Q) :
  (0 <= q)%Q ->
  round64 q
  = (inject_Z (round_units (q * inject_Z float_unit)) / inject_Z float_unit)%Q.
Proof.
  intros H. unfold round64. apply Qle_bool_iff in H. rewrite H. reflexivity.
Qed.

Lemma round_units_zero (t : Q) : (t == 0)%Q -> round_units t = 0.
Proof. intros H. rewrite (round_units_comp _ _ H). reflexivity. Qed.

Lemma round64_nonpos_eq (q : Q) :
  (q <= 0)%Q ->
  (round64 q
   == - (inject_Z (round_units (- q * inject_Z float_unit))
         / inject_Z float_unit))%Q.
Proof.
  intros H. unfold round64.
  destruct (Qle_bool 0 q) eqn:E; [|reflexivity].
  apply Qle_bool_iff in E.
  assert (Hz : (q == 0)%Q) by (apply Qle_antisym; assumption).
  rewrite (round_units_zero (q * _)) by (rewrite Hz; ring).
  rewrite (round_units_zero (- q * _)) by (rewrite Hz; ring).
  pose proof float_unit_nonzero. field. assumption.
Qed.

Lemma scaled_nonneg (q : Q) : (0 <= q)%Q -> (0 <= q * inject_Z float_unit)%Q.
Proof.
  intros H. apply Qmult_le_0_compat; [exact H|].
  apply Qlt_le_weak, float_unit_Qpos.
Qed.

Lemma round64_sign (q : Q) :
  ((0 <= q)%Q -> (0 <= round64 q)%Q) /\ ((q <= 0)%Q -> (round64 q <= 0)%Q).
Proof.
  split; intros H.
  - rewrite (round64_nonneg_eq q H).
    apply Qle_shift_div_l; [exact float_unit_Qpos|]. rewrite Qmult_0_l.
    change 0%Q with (inject_Z 0). rewrite <- Zle_Qle.
    apply round_units_nonneg, scaled_nonneg, H.
  - rewrite (round64_nonpos_eq q H).
    assert (Hq : (0 <= - q)%Q) by lra.
    pose proof (round_units_nonneg _ (scaled_nonneg _ Hq)) as Hr.
    assert (0 <= inject_Z (round_units (- q * inject_Z float_unit)) / inject_Z float_unit)%Q.
    { apply Qle_shift_div_l; [exact float_unit_Qpos|]. rewrite Qmult_0_l.
      change 0%Q with (inject_Z 0). rewrite <- Zle_Qle. exact Hr. }
    lra.
Qed.

Lemma units_le (a b : Z) :
  a <= b -> (inject_Z a / inject_Z float_unit <= inject_Z b / inject_Z float_unit)%Q.
Proof.
  intros H. apply Qdiv_le_mono; [exact float_unit_pos|]. rewrite <- Zle_Qle. exact H.
Qed.

(** Rounding to the nearest float is monotone. *)
Lemma round64_mono (p q : Q) : (p <= q)%Q -> (round64 p <= round64 q)%Q.
Proof.
  intros H.
  destruct (Qlt_le_dec p 0) as [Hp|Hp]; destruct (Qlt_le_dec q 0) as [Hq|Hq].
  - rewrite (round64_nonpos_eq p) by lra. rewrite (round64_nonpos_eq q) by lra.
    apply Qopp_le_compat, units_le, round_units_mono.
    + apply scaled_nonneg. lra.
    + apply Qmult_le_compat_r; [lra|]. apply Qlt_le_weak, float_unit_Qpos.
  - apply (Qle_trans _ 0).
    + apply round64_sign. lra.
    + apply round64_sign. exact Hq.
  - exfalso. lra.
  - rewrite !round64_nonneg_eq by assumption.
    apply units_le, round_units_mono; [apply scaled_nonneg, Hp|].
    apply Qmult_le_compat_r; [exact H|]. apply Qlt_le_weak, float_unit_Qpos.
Qed.

Lemma round64_comp (p q : Q) : (p == q)%Q -> (round64 p == round64 q)%Q.
Proof.
  intros H. apply Qle_antisym; apply round64_mono; rewrite H; apply Qle_refl.
Qed.

#[global] Instance round64_proper : Proper (Qeq ==> Qeq) round64.
Proof. intros p q H. apply round64_comp, H. Qed.

(** Rounding a float gives the float itself. *)
Lemma round64_idem (q : Q) : (round64 (round64 q) == round64 q)%Q.
Proof.
  pose proof float_unit_nonzero as Hu.
  destruct (Qlt_le_dec q 0) as [Hq|Hq].
  - assert (Hq' : (q <= 0)%Q) by lra.
    assert (Hn : (0 <= - q)%Q) by lra.
    pose proof (proj2 (round64_sign q) Hq') as Hr.
    rewrite (round64_nonpos_eq _ Hr).
    rewrite (round64_nonpos_eq q Hq') at 2.
    apply Qopp_comp. apply Qdiv_comp; [|reflexivity].
    match goal with
    | |- (inject_Z ?a == inject_Z ?b)%Q =>
        assert (E : a = b); [|rewrite E; reflexivity]
    end.
    rewrite (round_units_comp _
               (inject_Z (round_units (- q * inject_Z float_unit)))).
    + apply round_units_fixed, round_units_is_float, scaled_nonneg, Hn.
    + rewrite (round64_nonpos_eq q Hq'). field. exact Hu.
  - pose proof (proj1 (round64_sign q) Hq) as Hr.
    rewrite (round64_nonneg_eq _ Hr).
    rewrite (round64_nonneg_eq q Hq) at 2.
    apply Qdiv_comp; [|reflexivity].
    match goal with
    | |- (inject_Z ?a == inject_Z ?b)%Q =>
        assert (E : a = b); [|rewrite E; reflexivity]
    end.
    rewrite (round_units_comp _
               (inject_Z (round_units (q * inject_Z float_unit)))).
    + apply round_units_fixed, round_units_is_float, scaled_nonneg, Hq.
    + rewrite (round64_nonneg_eq q Hq). field. exact Hu.
Qed.

(** Integers of at most 53 bits are floats. *)
Lemma round64_Z (n : Z) :
  Z.abs n < 2 ^ 53 -> (round64 (inject_Z n) == inject_Z n)%Q.
Proof.
  intros H. pose proof float_unit_nonzero as Hu.
  assert (Hfix : forall m, 0 <= m < 2 ^ 53 ->
            round_units (inject_Z m * inject_Z float_unit) = m * float_unit).
  { intros m Hm. rewrite <- inject_Z_mult. apply round_units_fixed.
    exists m, 1074. split; [exact Hm|]. split; [lia | reflexivity]. }
  destruct (Z.le_gt_cases 0 n) as [Hn|Hn].
  - rewrite round64_nonneg_eq by (change 0%Q with (inject_Z 0); rewrite <- Zle_Qle; exact Hn).
    rewrite Hfix by lia. rewrite inject_Z_mult. field. exact Hu.
  - rewrite round64_nonpos_eq
      by (change 0%Q with (inject_Z 0); rewrite <- Zle_Qle; lia).
    rewrite <- inject_Z_opp. rewrite Hfix by lia.
    rewrite inject_Z_mult, inject_Z_opp. field. exact Hu.
Qed.

End Binary64.

(** ** Frame normalisation *)

Section Normalisation.

Lemma byte_val_range (b : Byte.byte) : 0 <= byte_val b <= 255.
Proof.
  unfold byte_val. pose proof (Byte.to_N_bounded b). lia.
Qed.

(** Induction two elements at a time, as [view_uint16] recurses. *)
Lemma list_pair_ind {A} (P : list A -> Prop) :
  P [] -> (forall a, P [a]) -> (forall a b l, P l -> P (a :: b :: l)) ->
  forall l, P l.
Proof.
  intros H0 H1 H2 l.
  assert (P l /\ forall a, P (a :: l)) as [H _]; [|exact H].
  induction l as [|b l [IHl IHl']]; split; auto.
Qed.

Lemma view_uint16_range (raw : list Byte.byte) :
  forall samples, view_uint16 raw = Some samples ->
  Forall (fun v => 0 <= v < 65536) samples.
Proof.
  induction raw as [|lo|lo hi rest IH] using list_pair_ind;
    simpl; intros samples H.
  - inversion H. constructor.
  - discriminate.
  - destruct (view_uint16 rest) as [l|] eqn:E; [|discriminate].
    inversion H; subst. constructor.
    + pose proof (byte_val_range lo). pose proof (byte_val_range hi). lia.
    + apply IH. reflexivity.
Qed.

Lemma Qtrunc_nonneg (q : Q) : (0 <= q)%Q -> Qtrunc q = Qfloor q.
Proof.
  intros H. unfold Qtrunc.
  destruct (Z.ltb_spec (Qnum q) 0) as [Hneg|]; [|reflexivity].
  unfold Qle in H. simpl in H. lia.
Qed.

Lemma scale_sample_floor (d v : Z) :
  8 < d -> 0 <= v -> Qtrunc (scale_sample d v) = v / 2 ^ (d - 8).
Proof.
  intros Hd Hv. unfold scale_sample.
  assert (Hp : 0 < 2 ^ (d - 8)) by (apply Z.pow_pos_nonneg; lia).
  rewrite Qtrunc_nonneg.
  - symmetry. apply Zdiv_Qdiv.
  - apply Qle_shift_div_l.
    + rewrite <- (Zlt_Qlt 0). exact Hp.
    + rewrite Qmult_0_l. rewrite <- (Zle_Qle 0). exact Hv.
Qed.

Lemma normalize_sample (d v : Z) :
  8 < d -> 0 <= v < 2 ^ d ->
  astype_uint8 (scale_sample d v) = v / 2 ^ (d - 8) /\
  0 <= v / 2 ^ (d - 8) <= 255.
Proof.
  intros Hd [Hv Hlt]. unfold astype_uint8.
  rewrite scale_sample_floor by lia.
  assert (Hp : 0 < 2 ^ (d - 8)) by (apply Z.pow_pos_nonneg; lia).
  assert (Hsplit : 2 ^ d = 2 ^ (d - 8) * 256).
  { replace d with ((d - 8) + 8) at 1 by lia.
    rewrite Z.pow_add_r by lia. reflexivity. }
  assert (Hr : 0 <= v / 2 ^ (d - 8) < 256).
  { split; [apply Z.div_pos; lia|].
    apply Z.div_lt_upper_bound; lia. }
  rewrite Z.mod_small by exact Hr. lia.
Qed.

End Normalisation.

(** ** The timer-driven widget *)

Section Scheduler.

Import CameraIdsWidget.

Lemma time_ms_nonzero (fps : Q) :
  ~ (fps == 0)%Q -> time_ms fps = Val (timer_interval fps).
Proof.
  intros H. unfold time_ms.
  destruct (Qeq_bool fps 0) eqn:E; [|reflexivity].
  apply Qeq_bool_iff in E. contradiction.
Qed.

Lemma start_acquisition_connected (w : t) (c : Camera) :
  camera w = Some c -> ~ (frame_rate c == 0)%Q ->
  start_acquisition w = (Val tt, started c w).
Proof.
  intros Hc Hfps.
  unfold start_acquisition, mbind, M_bind, get, is_connected, camera_do,
    camera_ask, modify.
  rewrite Hc. cbn -[time_ms timer_interval Z.ltb].
  rewrite Hc. cbn -[time_ms timer_interval Z.ltb].
  rewrite (time_ms_nonzero _ Hfps). reflexivity.
Qed.

Lemma start_acquisition_not_connected (w : t) :
  camera w = None -> start_acquisition w = (Val tt, w).
Proof.
  intros Hc. unfold start_acquisition, mbind, M_bind, get, is_connected.
  rewrite Hc. reflexivity.
Qed.

Lemma get_disp_image_buffer (w : t) (c : Camera) (raw : list Byte.byte) :
  camera w = Some c -> connected c = true -> ~ (frame_rate c == 0)%Q ->
  images c (grabbed c) = Buffer raw ->
  get_disp_image w =
    (match disp_image (nb_bits c) raw with
     | Val a => Val (Some a)
     | Exc e => Exc e
     end,
     with_camera (Some (grabbed_camera c)) (started c w)).
Proof.
  intros Hc Hconn Hfps Himg.
  unfold get_disp_image.
  unfold mbind at 1. unfold M_bind at 1.
  unfold camera_ask at 1. rewrite Hc.
  cbn -[start_acquisition disp_image]. rewrite Hconn.
  unfold mbind at 1. unfold M_bind at 1.
  rewrite (start_acquisition_connected _ (snd (Device.is_camera_connected c)))
    by (simpl; auto).
  unfold mbind, M_bind, camera_ask.
  cbn -[disp_image timer_interval Z.ltb]. rewrite Himg.
  cbn -[disp_image timer_interval Z.ltb].
  destruct (disp_image (nb_bits c) raw); reflexivity.
Qed.

End Scheduler.

Section DisplayImage.

Import CameraIdsWidget.

(** C2. For a frame of bit depth [d > 8] whose samples are [d]-bit values,
    [get_disp_image] maps every sample [v] to [floor (v / 2^(d-8))] and
    every output sample lies in [0, 255]; at 12 bits, 4095 gives 255, 16
    gives 1 and 0 gives 0; for a bit depth of at most 8 the output is the
    sample bytes themselves. *)
Theorem get_disp_image_normalizes
    (w : t) (c : Camera) (raw : list Byte.byte) :
  camera w = Some c -> connected c = true -> ~ (frame_rate c == 0)%Q ->
  images c (grabbed c) = Buffer raw ->
  (8 < nb_bits c ->
   forall samples, view_uint16 raw = Some samples ->
     Forall (fun v => v < 2 ^ nb_bits c) samples ->
     fst (get_disp_image w)
       = Val (Some (map (fun v => v / 2 ^ (nb_bits c - 8)) samples)) /\
     Forall (fun o => 0 <= o <= 255)
       (map (fun v => v / 2 ^ (nb_bits c - 8)) samples))
  /\ (nb_bits c <= 8 ->
      fst (get_disp_image w) = Val (Some (view_uint8 raw)) /\
      Forall (fun o => 0 <= o <= 255) (view_uint8 raw))
  /\ astype_uint8 (scale_sample 12 4095) = 255
  /\ astype_uint8 (scale_sample 12 16) = 1
  /\ astype_uint8 (scale_sample 12 0) = 0.
Proof.
  intros Hc Hconn Hfps Himg.
  rewrite (get_disp_image_buffer w c raw Hc Hconn Hfps Himg).
  cbn [fst]. unfold disp_image.
  split; [|split; [|repeat split; reflexivity]].
  - intros Hd samples Hview Hbits.
    destruct (Z.ltb_spec 8 (nb_bits c)) as [_|]; [|lia].
    rewrite Hview.
    pose proof (view_uint16_range raw samples Hview) as Hrange.
    clear Hview. induction samples as [|v samples IH].
    + split; [reflexivity | constructor].
    + inversion Hrange as [|? ? Hv Hrange']; subst.
      inversion Hbits as [|? ? Hb Hbits']; subst.
      destruct (IH Hbits' Hrange') as [IH1 IH2].
      destruct (normalize_sample (nb_bits c) v Hd) as [Hs Hr]; [lia|].
      split.
      * cbn [map]. rewrite Hs. inversion IH1 as [IH1'].
        rewrite IH1'. reflexivity.
      * constructor; assumption.
  - intros Hd.
    destruct (Z.ltb_spec 8 (nb_bits c)) as [|_]; [lia|].
    assert (Hid : map astype_uint8_int (view_uint8 raw) = view_uint8 raw).
    { unfold view_uint8. rewrite map_map. apply map_ext. intros b.
      unfold astype_uint8_int. apply Z.mod_small.
      pose proof (byte_val_range b). lia. }
    rewrite Hid. split; [reflexivity|].
    unfold view_uint8. apply Forall_map. apply Forall_forall.
    intros b _. apply byte_val_range.
Qed.

Lemma get_disp_image_normalizes_witness :
  fst (get_disp_image (a_widget camera12)) = Val (Some [255; 1; 0]) /\
  Forall (fun o => 0 <= o <= 255) [255; 1; 0].
Proof.
  refine (proj1 (get_disp_image_normalizes (a_widget camera12) camera12 raw12
                   eq_refl eq_refl _ eq_refl) _ [4095; 16; 0] eq_refl _).
  - intros H; discriminate H.
  - reflexivity.
  - repeat constructor.
Defined.

End DisplayImage.

Section TimerPeriods.

Import CameraIdsWidget.

Lemma get_disp_image_fails (w : t) (c : Camera) :
  camera w = Some c -> connected c = true -> ~ (frame_rate c == 0)%Q ->
  images c (grabbed c) = GrabFails ->
  get_disp_image w =
    (Exc DeviceError,
     with_camera
       (Some (snd (Device.get_image
                     (started_camera (snd (Device.is_camera_connected c))))))
       (started c w)).
Proof.
  intros Hc Hconn Hfps Himg.
  unfold get_disp_image.
  unfold mbind at 1. unfold M_bind at 1.
  unfold camera_ask at 1. rewrite Hc.
  cbn -[start_acquisition disp_image]. rewrite Hconn.
  unfold mbind at 1. unfold M_bind at 1.
  rewrite (start_acquisition_connected _ (snd (Device.is_camera_connected c)))
    by (simpl; auto).
  unfold mbind, M_bind, camera_ask.
  cbn -[disp_image timer_interval Z.ltb]. rewrite Himg. reflexivity.
Qed.

(** [refresh] when the device hands over a buffer. *)
Lemma refresh_buffer (r : bool) (w : t) (c : Camera) (raw : list Byte.byte) :
  camera w = Some c -> connected c = true -> ~ (frame_rate c == 0)%Q ->
  images c (grabbed c) = Buffer raw ->
  refresh r w =
    let w' := with_camera (Some (grabbed_camera c)) (started c w) in
    match disp_image (nb_bits c) raw with
    | Val a =>
        if r then with_display (Pixmap a) (with_image_array (Some a) w')
        else print "Exception - refresh: RenderError"
               (with_image_array (Some a) w')
    | Exc e => print ("Exception - refresh: " ++ exn_name e) w'
    end.
Proof.
  intros Hc Hconn Hfps Himg.
  unfold refresh, refresh_body.
  unfold mbind at 1. unfold M_bind at 1. unfold get at 1.
  unfold is_connected. rewrite Hc.
  unfold mbind at 1. unfold M_bind at 1.
  rewrite (get_disp_image_buffer w c raw Hc Hconn Hfps Himg).
  destruct (disp_image (nb_bits c) raw) as [a|e]; destruct r; reflexivity.
Qed.

(** [refresh] when the grab fails. *)
Lemma refresh_grab_fails (r : bool) (w : t) (c : Camera) :
  camera w = Some c -> connected c = true -> ~ (frame_rate c == 0)%Q ->
  images c (grabbed c) = GrabFails ->
  refresh r w =
    print "Exception - refresh: DeviceError"
      (with_camera
         (Some (snd (Device.get_image
                       (started_camera (snd (Device.is_camera_connected c))))))
         (started c w)).
Proof.
  intros Hc Hconn Hfps Himg.
  unfold refresh, refresh_body.
  unfold mbind at 1. unfold M_bind at 1. unfold get at 1.
  unfold is_connected. rewrite Hc.
  unfold mbind at 1. unfold M_bind at 1.
  rewrite (get_disp_image_fails w c Hc Hconn Hfps Himg). reflexivity.
Qed.

(** One call of [refresh] on a connected camera: whatever the outcome of
    the grab, of the normalisation and of the rendering, the timer is left
    active with the interval [start_acquisition] computed, and the device
    has served exactly one more [get_image]. *)
Lemma refresh_connected (r : bool) (w : t) (c : Camera) :
  camera w = Some c -> connected c = true -> ~ (frame_rate c == 0)%Q ->
  main_timer (refresh r w)
    = mkTimer true (armed_interval (frame_rate c)) /\
  exists c', camera (refresh r w) = Some c' /\ next_device c c'.
Proof.
  intros Hc Hconn Hfps.
  destruct (images c (grabbed c)) as [raw|] eqn:Himg.
  - rewrite (refresh_buffer r w c raw Hc Hconn Hfps Himg). cbv zeta.
    destruct (disp_image (nb_bits c) raw) as [a|e]; destruct r;
      (split; [reflexivity|]);
      (eexists; split; [reflexivity|]);
      unfold next_device; cbn; auto.
  - rewrite (refresh_grab_fails r w c Hc Hconn Hfps Himg).
    split; [reflexivity|].
    eexists; split; [reflexivity|]. unfold next_device; cbn; auto.
Qed.

(** A period whose grab, normalisation and rendering all succeed shows the
    normalised frame. *)
Lemma refresh_delivers (w : t) (c : Camera) (raw : list Byte.byte)
    (a : list Z) :
  camera w = Some c -> connected c = true -> ~ (frame_rate c == 0)%Q ->
  images c (grabbed c) = Buffer raw -> disp_image (nb_bits c) raw = Val a ->
  camera_display (refresh true w) = Pixmap a /\
  image_array (refresh true w) = Some a /\
  stdout (refresh true w) = stdout w.
Proof.
  intros Hc Hconn Hfps Himg Hdisp.
  rewrite (refresh_buffer true w c raw Hc Hconn Hfps Himg). cbv zeta.
  rewrite Hdisp. repeat split; reflexivity.
Qed.

(** After any number of periods the timer is still active and the device
    has served one [get_image] per period. *)
Lemma timeouts_connected (renders : list bool) :
  forall (w : t) (c : Camera),
  camera w = Some c -> connected c = true -> ~ (frame_rate c == 0)%Q ->
  isActive (main_timer w) = true ->
  isActive (main_timer (timeouts renders w)) = true /\
  exists c', camera (timeouts renders w) = Some c' /\
    connected c' = true /\ frame_rate c' = frame_rate c /\
    nb_bits c' = nb_bits c /\ images c' = images c /\
    grabbed c' = (grabbed c + length renders)%nat.
Proof.
  induction renders as [|r renders IH]; intros w c Hc Hconn Hfps Hact.
  - split; [exact Hact|]. exists c. rewrite Nat.add_0_r.
    repeat split; auto.
  - assert (Hstep : timeouts (r :: renders) w = timeouts renders (refresh r w)).
    { unfold timeouts. cbn [fold_left]. unfold timeout at 2.
      rewrite Hact. reflexivity. }
    rewrite Hstep.
    destruct (refresh_connected r w c Hc Hconn Hfps)
      as [Htm (c1 & Hc1 & Hconn1 & Hfps1 & Hbits1 & Himgs1 & Hgr1)].
    destruct (IH (refresh r w) c1 Hc1) as [Hact' (c' & Hc' & H1 & H2 & H3 & H4 & H5)].
    + congruence.
    + rewrite Hfps1. exact Hfps.
    + rewrite Htm. reflexivity.
    + split; [exact Hact'|]. exists c'. split; [exact Hc'|].
      repeat split; try congruence.
      rewrite H5, Hgr1. cbn [length]. lia.
Qed.

(** A period either shows a frame or logs the exception it caught. *)
Lemma refresh_shows_or_logs (r : bool) (w : t) (c : Camera) :
  camera w = Some c -> connected c = true -> ~ (frame_rate c == 0)%Q ->
  (exists a, camera_display (refresh r w) = Pixmap a /\
             stdout (refresh r w) = stdout w) \/
  (exists e, stdout (refresh r w)
             = stdout w ++ [("Exception - refresh: " ++ exn_name e)%string] /\
             camera_display (refresh r w) = camera_display w).
Proof.
  intros Hc Hconn Hfps.
  destruct (images c (grabbed c)) as [raw|] eqn:Himg.
  - rewrite (refresh_buffer r w c raw Hc Hconn Hfps Himg). cbv zeta.
    destruct (disp_image (nb_bits c) raw) as [a|e]; [destruct r|].
    + left. exists a. split; reflexivity.
    + right. exists RenderError. split; reflexivity.
    + right. exists e. split; reflexivity.
  - rewrite (refresh_grab_fails r w c Hc Hconn Hfps Himg).
    right. exists DeviceError. split; reflexivity.
Qed.

(** [refresh] never stops the timer, whatever state the widget and the
    device are in and whatever fails. *)
Lemma refresh_keeps_timer (r : bool) (w : t) :
  isActive (main_timer w) = true ->
  isActive (main_timer (refresh r w)) = true.
Proof.
  intros Hact.
  unfold refresh, refresh_body, get_disp_image, start_acquisition.
  cbv [mbind M_bind mret M_ret get modify raise is_connected camera_ask
       camera_do].
  destruct (camera w) as [c|] eqn:Hc; [|exact Hact].
  cbn -[time_ms disp_image]. rewrite Hc.
  cbn -[time_ms disp_image].
  destruct (connected c); [|exact Hact].
  cbn -[time_ms disp_image].
  destruct (time_ms (frame_rate c)) as [ms|e]; [|exact Hact].
  cbn -[time_ms disp_image].
  destruct (images c (grabbed c)) as [raw|]; [|reflexivity].
  cbn -[time_ms disp_image].
  destruct (disp_image (nb_bits c) raw); [destruct r|]; reflexivity.
Qed.

Lemma timeouts_keep_timer (renders : list bool) :
  forall w, isActive (main_timer w) = true ->
  isActive (main_timer (timeouts renders w)) = true.
Proof.
  induction renders as [|r renders IH]; intros w Hact; [exact Hact|].
  unfold timeouts. cbn [fold_left]. apply IH.
  unfold timeout. rewrite Hact. apply refresh_keeps_timer. exact Hact.
Qed.

(** C7. In the pull model an exception raised while a timer period
    acquires, normalises or renders is caught and logged inside [refresh],
    and the timer keeps firing: after any sequence of periods, failed or
    not, the timer is still active; on a connected device the next period
    either shows a frame or logs the exception it caught, and if its grab,
    normalisation and rendering succeed it shows the normalised frame. *)
Theorem failed_period_keeps_timer_firing (renders : list bool) (w : t) :
  isActive (main_timer w) = true ->
  let w' := timeouts renders w in
  isActive (main_timer w') = true /\
  (forall r, isActive (main_timer (timeout r w')) = true) /\
  (forall c,
     camera w = Some c -> connected c = true -> ~ (frame_rate c == 0)%Q ->
     (forall r,
        (exists a, camera_display (timeout r w') = Pixmap a /\
                   stdout (timeout r w') = stdout w') \/
        (exists e, stdout (timeout r w')
                   = stdout w'
                     ++ [("Exception - refresh: " ++ exn_name e)%string] /\
                   camera_display (timeout r w') = camera_display w')) /\
     (forall raw a,
        images c (grabbed c + length renders)%nat = Buffer raw ->
        disp_image (nb_bits c) raw = Val a ->
        camera_display (timeout true w') = Pixmap a /\
        image_array (timeout true w') = Some a)).
Proof.
  intros Hact w'.
  pose proof (timeouts_keep_timer renders w Hact) as Hact'. fold w' in Hact'.
  split; [exact Hact'|]. split.
  - intros r. unfold timeout. rewrite Hact'.
    apply refresh_keeps_timer. exact Hact'.
  - intros c Hc Hconn Hfps.
    destruct (timeouts_connected renders w c Hc Hconn Hfps Hact)
      as [_ (c' & Hc' & Hconn' & Hfps' & Hbits' & Himgs' & Hgr')].
    fold w' in Hc'.
    assert (Hfps0 : ~ (frame_rate c' == 0)%Q) by (rewrite Hfps'; exact Hfps).
    split.
    + intros r. unfold timeout. rewrite Hact'.
      exact (refresh_shows_or_logs r w' c' Hc' Hconn' Hfps0).
    + intros raw a Himg Hdisp. unfold timeout. rewrite Hact'.
      destruct (refresh_delivers w' c' raw a Hc' Hconn' Hfps0) as [H1 [H2 _]].
      * rewrite Himgs', Hgr'. exact Himg.
      * rewrite Hbits'. exact Hdisp.
      * split; assumption.
Qed.

Lemma failed_period_keeps_timer_firing_witness :
  let w' := timeouts [true; true] (a_widget faulty_camera12) in
  isActive (main_timer w') = true /\
  stdout w' = ["Exception - refresh: DeviceError"%string;
               "Exception - refresh: ValueError"%string] /\
  camera_display (timeout true w') = Pixmap [255; 1; 0].
Proof.
  pose proof (failed_period_keeps_timer_firing [true; true]
                (a_widget faulty_camera12) eq_refl)
    as [Hact [_ Hdev]].
  destruct (Hdev faulty_camera12 eq_refl eq_refl (Qeq_bool_neq 10 0 eq_refl))
    as [_ Hshow].
  split; [exact Hact|]. split; [reflexivity|].
  exact (proj1 (Hshow raw12 [255; 1; 0] eq_refl eq_refl)).
Defined.

End TimerPeriods.

Section TimerInterval.

Import CameraIdsWidget.

Lemma interval_nonneg (fps : Q) : (0 < fps)%Q -> (0 <= 1000 / fps + 10)%Q.
Proof.
  intros H.
  assert (0 <= 1000 / fps)%Q.
  { apply Qle_shift_div_l; [exact H|]. rewrite Qmult_0_l. discriminate. }
  apply (Qle_trans _ (0 + 0)%Q); [discriminate|].
  apply Qplus_le_compat; [assumption | discriminate].
Qed.

Lemma Qpos_nonzero (q : Q) : (0 < q)%Q -> ~ (q == 0)%Q.
Proof. intros H E. rewrite E in H. discriminate H. Qed.


Lemma inject_Z_sub10 (n : Z) : (inject_Z (n - 10) == inject_Z n - 10)%Q.
Proof.
  unfold Qeq. cbn. lia.
Qed.

(** The float sum [1000/fps + 10], truncated, lies between the floor and
    the ceiling of the exact sum: the two roundings never cross an
    integer, since the integers concerned are floats. *)
Lemma timer_interval_bounds (fps : Q) :
  rate_in_range fps ->
  Qfloor (1000 / fps + 10)%Q <= timer_interval fps
    <= Qceiling (1000 / fps + 10)%Q /\
  10 <= timer_interval fps <= 2147483647.
Proof.
  intros [Hpos Hmax].
  set (x := (1000 / fps + 10)%Q) in *.
  assert (Hq : (0 < 1000 / fps)%Q).
  { apply Qlt_shift_div_l; [exact Hpos|]. rewrite Qmult_0_l. reflexivity. }
  assert (Hx : (10 <= x)%Q) by (unfold x; lra).
  assert (Hn : 10 <= Qfloor x).
  { change 10 with (Qfloor 10%Q). apply Qfloor_resp_le, Hx. }
  assert (HN : Qceiling x <= 2147483647).
  { change 2147483647 with (Qceiling 2147483647%Q).
    apply Qceiling_resp_le, Hmax. }
  pose proof (Qfloor_le x) as Hfl. pose proof (Qle_ceiling x) as Hce.
  assert (HnN : Qfloor x <= Qceiling x).
  { rewrite Zle_Qle. apply (Qle_trans _ x); assumption. }
  assert (Hlow : (inject_Z (Qfloor x) <= fadd (fdiv 1000 fps) 10)%Q).
  { rewrite <- (round64_Z (Qfloor x)) by lia. unfold fadd.
    apply round64_mono.
    assert (inject_Z (Qfloor x - 10) <= fdiv 1000 fps)%Q.
    { rewrite <- (round64_Z (Qfloor x - 10)) by lia. unfold fdiv.
      apply round64_mono. rewrite inject_Z_sub10. unfold x in *. lra. }
    rewrite inject_Z_sub10 in H. lra. }
  assert (Hup : (fadd (fdiv 1000 fps) 10 <= inject_Z (Qceiling x))%Q).
  { rewrite <- (round64_Z (Qceiling x)) by lia. unfold fadd.
    apply round64_mono.
    assert (fdiv 1000 fps <= inject_Z (Qceiling x - 10))%Q.
    { rewrite <- (round64_Z (Qceiling x - 10)) by lia. unfold fdiv.
      apply round64_mono. rewrite inject_Z_sub10. unfold x in *. lra. }
    rewrite inject_Z_sub10 in H. lra. }
  unfold timer_interval.
  rewrite Qtrunc_nonneg.
  - pose proof (Qfloor_resp_le _ _ Hlow) as H1.
    pose proof (Qfloor_resp_le _ _ Hup) as H2.
    rewrite Qfloor_Z in H1, H2. lia.
  - apply (Qle_trans _ (inject_Z (Qfloor x))); [|exact Hlow].
    change 0%Q with (inject_Z 0). rewrite <- Zle_Qle. lia.
Qed.

Lemma armed_interval_in_range (fps : Q) :
  rate_in_range fps -> armed_interval fps = timer_interval fps.
Proof.
  intros H. destruct (timer_interval_bounds fps H) as [_ [H10 _]].
  unfold armed_interval.
  destruct (Z.ltb_spec (timer_interval fps) 0); [lia | reflexivity].
Qed.

Example timer_interval_10 : timer_interval 10 = 110.
Proof. vm_compute. reflexivity. Qed.

(** The floats of 33.333333333333336 and of 1.6 frames per second: the
    exact sums are below 40 and below 635, the float sums are 40.0 and
    635.0. *)
Example timer_interval_rounds_up :
  let fps := 4691249611844267 # 140737488355328 in
  let fps' := 3602879701896397 # 2251799813685248 in
  timer_interval fps = 40 /\ Qfloor (1000 / fps + 10)%Q = 39 /\
  timer_interval fps' = 635 /\ Qfloor (1000 / fps' + 10)%Q = 634.
Proof. vm_compute. repeat split; reflexivity. Qed.



End TimerInterval.

(** ** The parameters panel *)

Section Parameters.

Import CameraIdsParamsWidget.

(** C5, as stated, fails. The panel is built over a camera at 10 frames
    per second, which lets its exposure slider go up to 99 ms; the frame
    rate of the device is then set to 50, a frame period of 20000
    microseconds, and an exposure of 20 ms is requested from the panel. The
    request is not rejected: [update_params] returns normally, the device
    setter [set_exposure] is called, and the exposure of the device is the
    requested one, no longer the 10000 microseconds it had. *)
Lemma exposure_request_counterexample :
  let c := Device.set_frame_rate 50 (a_camera 8 10 []) in
  let p := a_panel (a_widget c) 10 20 0 false in
  frame_rate c = 50%Q /\
  (1000000 / frame_rate c <= real_value (expotime_slider p) * 1000)%Q /\
  fst (update_params "update:expo" p) = Val tt /\
  widget_calls (parent (snd (update_params "update:expo" p)))
    = Call_set_frame_rate 50 :: Call_set_exposure 20000 :: panel_reads /\
  widget_exposure (parent p) = Some 10000%Q /\
  widget_exposure (parent (snd (update_params "update:expo" p)))
    = Some 20000%Q.
Proof. vm_compute. repeat split; try reflexivity. discriminate. Qed.

Lemma update_params_gate_closed
    (event e0 : string) (rest : list string) (p : t) :
  split ":" event = e0 :: rest ->
  gate_open e0 (auto_update_check p) = false ->
  update_params event p = (Val tt, p).
Proof.
  intros Hsplit Hgate. unfold gate_open in Hgate.
  apply negb_false_iff in Hgate.
  unfold update_params. rewrite Hsplit.
  cbv [mbind M_bind mret M_ret item nth_error get].
  rewrite Hgate. reflexivity.
Qed.

Lemma update_params_expo
    (event e0 e1 : string) (rest : list string) (p : t) (c : Camera) :
  split ":" event = e0 :: e1 :: rest ->
  lower e1 = "expo"%string ->
  CameraIdsWidget.camera (parent p) = Some c ->
  gate_open e0 (auto_update_check p) = true ->
  update_params event p =
    (Val tt,
     with_parent
       (CameraIdsWidget.with_camera
          (Some (exposure_set_camera
                   (real_value (expotime_slider p) * 1000)%Q c))
          (parent p)) p).
Proof.
  intros Hsplit He1 Hc Hgate. unfold gate_open in Hgate.
  apply negb_true_iff in Hgate.
  unfold update_params. rewrite Hsplit.
  cbv [mbind M_bind mret M_ret item nth_error get].
  rewrite Hgate, He1. cbn [String.eqb Ascii.eqb Bool.eqb].
  cbv [parent_update_params mbind M_bind mret M_ret camera_do camera_ask
       on_parent CameraIdsWidget.camera_do CameraIdsWidget.camera_ask].
  rewrite Hc. destruct p as [w auto fs es bs out]. reflexivity.
Qed.

(** C5, amended. [update_params] rejects no request: for every requested
    exposure, an "expo" event that passes the auto-update gate calls the
    device setter [set_exposure] with the slider value times 1000 and
    returns normally; the exposure of the device becomes the requested
    value and its frame rate is unchanged. An event stopped by the gate
    returns without any device call. *)
Theorem update_params_sets_exposure
    (event e0 e1 : string) (rest : list string) (p : t) (c : Camera) :
  split ":" event = e0 :: e1 :: rest ->
  lower e1 = "expo"%string ->
  CameraIdsWidget.camera (parent p) = Some c ->
  let value := (real_value (expotime_slider p) * 1000)%Q in
  (gate_open e0 (auto_update_check p) = true ->
   fst (update_params event p) = Val tt /\
   widget_calls (parent (snd (update_params event p)))
     = calls c ++ Call_set_exposure value :: panel_reads /\
   widget_exposure (parent (snd (update_params event p))) = Some value /\
   widget_frame_rate (parent (snd (update_params event p)))
     = Some (frame_rate c)) /\
  (gate_open e0 (auto_update_check p) = false ->
   update_params event p = (Val tt, p)).
Proof.
  intros Hsplit He1 Hc value. split.
  - intros Hgate.
    rewrite (update_params_expo event e0 e1 rest p c Hsplit He1 Hc Hgate).
    destruct p as [w auto fs es bs out].
    unfold widget_calls, widget_exposure, widget_frame_rate. cbn.
    repeat rewrite <- app_assoc. repeat split; reflexivity.
  - apply (update_params_gate_closed event e0 (e1 :: rest) p Hsplit).
Qed.

Lemma update_params_sets_exposure_witness :
  let p := a_panel (a_widget (a_camera 8 50 [])) 50 20 0 false in
  fst (update_params "update:expo" p) = Val tt /\
  widget_exposure (parent (snd (update_params "update:expo" p)))
    = Some (20 * 1000)%Q /\
  update_params "slider:expo" p = (Val tt, p).
Proof.
  pose proof (update_params_sets_exposure "update:expo" "update" "expo" []
                (a_panel (a_widget (a_camera 8 50 [])) 50 20 0 false)
                (a_camera 8 50 []) eq_refl eq_refl eq_refl) as [Hset _].
  pose proof (update_params_sets_exposure "slider:expo" "slider" "expo" []
                (a_panel (a_widget (a_camera 8 50 [])) 50 20 0 false)
                (a_camera 8 50 []) eq_refl eq_refl eq_refl) as [_ Hgate].
  destruct (Hset eq_refl) as (H1 & _ & H3 & _).
  split; [exact H1|]. split; [exact H3|]. exact (Hgate eq_refl).
Defined.

End Parameters.

(** ** The acquisition worker, one thread at a time *)

Section Worker.

Import CameraThread.

Lemma run_from_returned (fuel : nat) (self : t) :
  run_from fuel Run_returned self = (Run_returned, self).
Proof. destruct fuel; reflexivity. Qed.

Lemma run_step_none (pc : run_pc) (self : t) :
  run_step pc self = None -> pc = Run_returned.
Proof.
  destruct pc; cbn; intros H; try discriminate H; try reflexivity;
    destruct (camera self) as [c|]; try discriminate H.
  - destruct (camera_acquiring c); discriminate H.
  - destruct (running self); discriminate H.
  - destruct (running self); discriminate H.
  - destruct (images c (grabbed c)); discriminate H.
Qed.

Lemma run_from_add (n m : nat) :
  forall pc self,
  run_from (n + m) pc self
  = run_from m (fst (run_from n pc self)) (snd (run_from n pc self)).
Proof.
  induction n as [|n IH]; intros pc self; [reflexivity|].
  cbn [Nat.add run_from].
  destruct (run_step pc self) as [[pc' self']|] eqn:E.
  - apply IH.
  - cbn [fst snd]. rewrite (run_step_none pc self E).
    symmetry. apply run_from_returned.
Qed.

(** C10. [stop] called before [set_camera], while [camera] is [None],
    raises [AttributeError] at its first line, and nothing in [stop]
    catches it: the call does not return normally. *)
Theorem stop_without_camera_raises (self : t) (fuel : nat) :
  camera self = None -> (0 < fuel)%nat ->
  stop fuel self = (Stop_raised AttributeError, self).
Proof.
  intros Hc Hfuel. destruct fuel as [|fuel]; [lia|].
  unfold stop. cbn [stop_from stop_step]. rewrite Hc.
  destruct fuel; reflexivity.
Qed.

Lemma stop_without_camera_raises_witness :
  stop 1 init = (Stop_raised AttributeError, init).
Proof.
  apply (stop_without_camera_raises init 1); [reflexivity | lia].
Defined.

(** [run] on a device that already acquires, the running flag unset:
    two statements, nothing written. *)
Lemma run_acquiring_unset (self : t) (c : Camera) (fuel : nat) :
  camera self = Some c -> camera_acquiring c = true ->
  running self = false ->
  run fuel self = match fuel with
                  | O => (L57, self)
                  | S O => (L62, self)
                  | _ => (Run_returned, self)
                  end.
Proof.
  intros Hc Hacq Hrun.
  unfold run. destruct fuel as [|[|fuel]]; [reflexivity| |].
  - cbn [run_from run_step]. rewrite Hc, Hacq. reflexivity.
  - cbn [run_from run_step]. rewrite Hc, Hacq.
    cbn [run_from run_step]. rewrite Hrun.
    apply run_from_returned.
Qed.

(** Past the initialisation, [run] calls nothing on the device but
    [get_image]. *)
Lemma run_from_past_init (fuel : nat) :
  forall pc self c,
  past_init pc -> camera self = Some c ->
  exists c' k, camera (snd (run_from fuel pc self)) = Some c' /\
               calls c' = calls c ++ repeat Call_get_image k.
Proof.
  induction fuel as [|fuel IH]; intros pc self c Hpc Hc.
  - exists c, 0%nat. cbn. rewrite app_nil_r. auto.
  - destruct pc; try contradiction; cbn [run_from run_step].
    + destruct (running self); apply (IH _ self c); auto; exact I.
    + rewrite Hc. cbn [Device.get_image].
      set (c1 := Device.log Call_get_image
                   (Device.with_grabbed (S (grabbed c)) c)).
      assert (Hcalls : calls c1 = calls c ++ [Call_get_image]) by reflexivity.
      destruct (images c (grabbed c)) as [raw|].
      * destruct (IH (L64 raw) (with_camera c1 self) c1 I eq_refl)
          as (c' & k & Hc' & Hk).
        exists c', (S k). split; [exact Hc'|].
        rewrite Hk, Hcalls, <- app_assoc. reflexivity.
      * destruct (IH (L67 DeviceError) (with_camera c1 self) c1 I eq_refl)
          as (c' & k & Hc' & Hk).
        exists c', (S k). split; [exact Hc'|].
        rewrite Hk, Hcalls, <- app_assoc. reflexivity.
    + apply (IH _ _ c); [exact I | exact Hc].
    + apply (IH _ _ c); [exact I | exact Hc].
    + apply (IH _ _ c); [exact I | exact Hc].
    + exists c, 0%nat. cbn. rewrite app_nil_r. auto.
Qed.

(** C9, as stated, fails when the running flag was left set: a first [run]
    that ended on a failed grab leaves the device acquiring and the flag
    set, and a second [run] on that object enters the loop and emits
    frames. *)
Lemma run_on_acquiring_device_counterexample :
  run 8 (set_camera glitching_camera init) = (Run_returned, crashed_worker) /\
  (exists c, camera crashed_worker = Some c /\ camera_acquiring c = true) /\
  running crashed_worker = true /\
  image_acquired crashed_worker = [] /\
  image_acquired (snd (run 9 crashed_worker)) = [raw12; raw12].
Proof.
  split; [vm_compute; reflexivity|].
  split; [eexists; split; reflexivity|].
  repeat split; vm_compute; reflexivity.
Qed.

(** C9, amended. When [run] begins on a device that already reports
    [camera_acquiring] and the running flag is unset, the flag is never
    set, the loop body is never entered and the worker returns: the object,
    device log and emitted frames included, is the same after any number of
    statements, and [run] has returned after two. *)
Theorem run_on_acquiring_device_is_silent (self : t) (c : Camera) :
  camera self = Some c -> camera_acquiring c = true ->
  running self = false ->
  forall fuel,
    snd (run fuel self) = self /\
    running (snd (run fuel self)) = false /\
    image_acquired (snd (run fuel self)) = image_acquired self /\
    (fst (run fuel self) = L57 \/ fst (run fuel self) = L62 \/
     fst (run fuel self) = Run_returned) /\
    ((2 <= fuel)%nat -> fst (run fuel self) = Run_returned).
Proof.
  intros Hc Hacq Hrun fuel.
  rewrite (run_acquiring_unset self c fuel Hc Hacq Hrun).
  destruct fuel as [|[|fuel]]; cbn [fst snd];
    repeat split; auto; lia.
Qed.

Lemma run_on_acquiring_device_is_silent_witness :
  let self := set_camera (Device.start_acquisition camera12) init in
  run 10 self = (Run_returned, self).
Proof.
  intros self.
  destruct (run_on_acquiring_device_is_silent self
              (Device.start_acquisition camera12) eq_refl eq_refl eq_refl 10%nat)
    as (H1 & _ & _ & _ & H5).
  rewrite (surjective_pairing (run 10 self)), H1, H5; [reflexivity | lia].
Defined.

(** C8, as stated, fails in its last clause on the same object: the second
    [run] neither leaves the object as it was nor rejects the request, it
    goes on acquiring; it still allocates nothing. *)
Lemma second_start_counterexample :
  snd (run 8 (set_camera glitching_camera init)) = crashed_worker /\
  (exists c, camera crashed_worker = Some c /\ camera_acquiring c = true /\
             exists c', camera (snd (run 9 crashed_worker)) = Some c' /\
               calls c' = calls c ++ [Call_get_image; Call_get_image]) /\
  fst (run 9 crashed_worker) = L62 /\
  stdout (snd (run 9 crashed_worker)) = stdout crashed_worker /\
  snd (run 9 crashed_worker) <> crashed_worker.
Proof.
  split; [vm_compute; reflexivity|].
  split; [|split; [|split]].
  - eexists; split; [reflexivity|]. split; [reflexivity|].
    eexists; split; vm_compute; reflexivity.
  - vm_compute. reflexivity.
  - vm_compute. reflexivity.
  - intros H. apply (f_equal image_acquired) in H.
    vm_compute in H. discriminate H.
Qed.

(** C8, amended. On a device that is already acquiring, a second [run]
    calls neither [init_camera], nor [alloc_memory], nor
    [start_acquisition]: the only calls it adds to the device log are
    [get_image] calls, so buffers are not allocated a second time; when the
    running flag is unset the call leaves the whole object as it was, and
    when the flag was left set it re-enters the acquisition loop: its
    third statement is a grab, and the frame of a grab that hands over a
    buffer is emitted by the fourth. *)
Theorem second_start_allocates_nothing (self : t) (c : Camera) (fuel : nat) :
  camera self = Some c -> camera_acquiring c = true ->
  (exists c' k, camera (snd (run fuel self)) = Some c' /\
                calls c' = calls c ++ repeat Call_get_image k) /\
  (running self = false -> snd (run fuel self) = self) /\
  (running self = true ->
   fst (run 2 self) = L63 /\
   ((3 <= fuel)%nat ->
    exists c' k, camera (snd (run fuel self)) = Some c' /\
                 calls c' = calls c ++ repeat Call_get_image (S k)) /\
   (forall image_array, images c (grabbed c) = Buffer image_array ->
      fst (run 3 self) = L64 image_array /\
      fst (run 4 self) = L65 /\
      image_acquired (snd (run 4 self))
        = image_acquired self ++ [image_array])).
Proof.
  intros Hc Hacq. split; [|split].
  - unfold run. destruct fuel as [|fuel].
    + exists c, 0%nat. cbn. rewrite app_nil_r. auto.
    + cbn [run_from run_step]. rewrite Hc, Hacq.
      apply run_from_past_init; [exact I | exact Hc].
  - intros Hrun. rewrite (run_acquiring_unset self c fuel Hc Hacq Hrun).
    destruct fuel as [|[|fuel]]; reflexivity.
  - intros Hrun. split; [|split].
    + unfold run. cbn [run_from run_step]. rewrite Hc, Hacq.
      cbn [run_from run_step]. rewrite Hrun. reflexivity.
    + intros Hfuel. destruct fuel as [|[|[|fuel]]]; try lia.
      unfold run. cbn [run_from run_step]. rewrite Hc, Hacq.
      cbn [run_from run_step]. rewrite Hrun.
      cbn [run_from run_step]. rewrite Hc. cbn [Device.get_image].
      set (c1 := Device.log Call_get_image
                   (Device.with_grabbed (S (grabbed c)) c)).
      assert (Hcalls : calls c1 = calls c ++ [Call_get_image]) by reflexivity.
      destruct (images c (grabbed c)) as [image_array|].
      * destruct (run_from_past_init fuel (L64 image_array)
                    (with_camera c1 self) c1 I eq_refl)
          as (c' & k & Hc' & Hk).
        exists c', k. split; [exact Hc'|].
        rewrite Hk, Hcalls, <- app_assoc. reflexivity.
      * destruct (run_from_past_init fuel (L67 DeviceError)
                    (with_camera c1 self) c1 I eq_refl)
          as (c' & k & Hc' & Hk).
        exists c', k. split; [exact Hc'|].
        rewrite Hk, Hcalls, <- app_assoc. reflexivity.
    + intros image_array Himg. unfold run.
      cbn [run_from run_step]. rewrite Hc, Hacq.
      cbn [run_from run_step]. rewrite Hrun.
      cbn [run_from run_step]. rewrite Hc. cbn [Device.get_image].
      rewrite Himg. cbn. auto.
Qed.

Lemma second_start_allocates_nothing_witness :
  exists c' k, camera (snd (run 9 crashed_worker)) = Some c' /\
    calls c' = [Call_init_camera; Call_alloc_memory; Call_start_acquisition;
                Call_get_image] ++ repeat Call_get_image k.
Proof.
  destruct (second_start_allocates_nothing crashed_worker _ 9%nat
              eq_refl eq_refl) as [_ [_ H]].
  destruct (H eq_refl) as (_ & Hloop & _).
  destruct (Hloop ltac:(lia)) as (c' & k & Hc' & Hk).
  exists c', (S k). split; [exact Hc' | exact Hk].
Defined.

(** The loop of [run], entered with the running flag set: the buffers the
    device hands over are emitted one by one, and the first failed grab
    ends the loop. *)
Lemma loop_emits_until_failure (frames : list (list Byte.byte)) :
  forall self c,
  camera self = Some c -> running self = true ->
  (forall i f, nth_error frames i = Some f ->
               images c (grabbed c + i)%nat = Buffer f) ->
  images c (grabbed c + length frames)%nat = GrabFails ->
  fst (run_from (4 * length frames + 3) L62 self) = Run_returned /\
  image_acquired (snd (run_from (4 * length frames + 3) L62 self))
    = image_acquired self ++ frames /\
  stdout (snd (run_from (4 * length frames + 3) L62 self))
    = stdout self ++ [grab_failure_message].
Proof.
  induction frames as [|f frames IH]; intros self c Hc Hrun Hbuf Hfail.
  - cbn [length Nat.mul Nat.add] in *. rewrite Nat.add_0_r in Hfail.
    cbn [run_from run_step]. rewrite Hrun.
    cbn [run_from run_step]. rewrite Hc.
    cbn [Device.get_image]. rewrite Hfail.
    cbn. rewrite app_nil_r. auto.
  - replace (4 * length (f :: frames) + 3)%nat
      with (S (S (S (S (4 * length frames + 3))))) by (cbn [length]; lia).
    pose proof (Hbuf 0%nat f eq_refl) as H0. rewrite Nat.add_0_r in H0.
    cbn [run_from run_step]. rewrite Hrun.
    cbn [run_from run_step]. rewrite Hc.
    cbn [Device.get_image]. rewrite H0.
    cbn [run_from run_step].
    set (c1 := Device.log Call_get_image
                 (Device.with_grabbed (S (grabbed c)) c)).
    set (self1 := with_stopping false (emit f (with_camera c1 self))).
    destruct (IH self1 c1) as (H1 & H2 & H3).
    + reflexivity.
    + exact Hrun.
    + intros i g Hi. cbn [c1 images grabbed Device.log Device.with_grabbed].
      replace (S (grabbed c) + i)%nat with (grabbed c + S i)%nat by lia.
      apply Hbuf. exact Hi.
    + cbn [c1 images grabbed Device.log Device.with_grabbed].
      replace (S (grabbed c) + length frames)%nat
        with (grabbed c + length (f :: frames))%nat by (cbn [length]; lia).
      exact Hfail.
    + split; [exact H1|]. split; [|exact H3].
      rewrite H2. cbn [self1 image_acquired with_stopping emit].
      rewrite <- app_assoc. reflexivity.
Qed.

(** C3, as stated, fails twice over. The loop of [run] applies no
    normalisation: a buffer that [disp_image] would refuse is emitted like
    any other, and so is the next one, as raw bytes. And what does raise
    in the loop body, a failed grab, is caught outside the loop and ends
    it: the frames the device would hand over next are never emitted. *)
Lemma push_loop_counterexample :
  (disp_image 12 [Byte.x01] = Exc ValueError /\
   disp_image 12 raw12 = Val [255; 1; 0] /\
   image_acquired
     (snd (run 100 (set_camera odd_then_good_camera init)))
     = [[Byte.x01]; raw12]) /\
  (images glitching_camera 1 = Buffer raw12 /\
   run 100 (set_camera glitching_camera init)
     = (Run_returned, crashed_worker) /\
   image_acquired crashed_worker = [] /\
   stdout crashed_worker = [grab_failure_message]).
Proof. repeat split; vm_compute; reflexivity. Qed.

(** C3, amended. The loop of [run] normalises nothing and drops nothing:
    every buffer [get_image] returns is emitted as it is; an exception
    raised in the loop body is caught outside the loop, logged, and ends
    the loop, so that no later frame is emitted, however long the worker
    is left to run. *)
Theorem push_loop_ends_on_failure
    (self : t) (c : Camera) (frames : list (list Byte.byte)) (fuel : nat) :
  camera self = Some c -> camera_acquiring c = false ->
  (forall i f, nth_error frames i = Some f ->
               images c (grabbed c + i)%nat = Buffer f) ->
  images c (grabbed c + length frames)%nat = GrabFails ->
  (4 * length frames + 8 <= fuel)%nat ->
  fst (run fuel self) = Run_returned /\
  image_acquired (snd (run fuel self)) = image_acquired self ++ frames /\
  stdout (snd (run fuel self)) = stdout self ++ [grab_failure_message].
Proof.
  intros Hc Hacq Hbuf Hfail Hfuel.
  replace fuel
    with (5 + ((4 * length frames + 3) + (fuel - (4 * length frames + 8))))%nat
    by lia.
  unfold run. rewrite (run_from_add 5).
  assert (H5 : run_from 5 L57 self =
               (L62, with_running true
                       (with_camera
                          (Device.start_acquisition
                             (Device.alloc_memory (Device.init_camera c)))
                          self))).
  { cbn [run_from run_step]. rewrite Hc, Hacq. cbn [run_from run_step].
    rewrite Hc. reflexivity. }
  rewrite H5. cbn [fst snd]. rewrite run_from_add.
  match goal with
  | |- context [run_from (4 * length frames + 3) L62 ?s] =>
      destruct (loop_emits_until_failure frames s
                  (Device.start_acquisition
                     (Device.alloc_memory (Device.init_camera c))))
        as (H1 & H2 & H3); auto
  end.
  rewrite H1, run_from_returned. cbn [fst snd].
  split; [reflexivity|]. split; [exact H2 | exact H3].
Qed.

Lemma push_loop_ends_on_failure_witness :
  fst (run 16 (set_camera odd_then_good_camera init)) = Run_returned /\
  image_acquired (snd (run 16 (set_camera odd_then_good_camera init)))
    = [[Byte.x01]; raw12] /\
  stdout (snd (run 16 (set_camera odd_then_good_camera init)))
    = [grab_failure_message].
Proof.
  apply (push_loop_ends_on_failure
           (set_camera odd_then_good_camera init) odd_then_good_camera
           [[Byte.x01]; raw12] 16).
  - reflexivity.
  - reflexivity.
  - intros [|[|[|i]]] f Hi; cbn in Hi; try discriminate Hi;
      injection Hi as <-; reflexivity.
  - reflexivity.
  - cbn. lia.
Defined.

End Worker.

(** ** Stopping while idle *)

Section StopWhileIdle.

(** C6, as stated, fails in the pull model: on a widget whose timer is
    stopped and whose device is not acquiring, [stop_acquisition()] calls
    [stop_acquisition] on the device. *)
Lemma stop_while_idle_counterexample :
  let w := an_idle_widget (a_camera 8 10 []) in
  camera_acquiring (a_camera 8 10 []) = false /\
  CameraIdsWidget.isActive (CameraIdsWidget.main_timer w) = false /\
  widget_calls w = [] /\
  fst (CameraIdsWidget.stop_acquisition false w) = Val tt /\
  widget_calls (snd (CameraIdsWidget.stop_acquisition false w))
    = [Call_stop_acquisition].
Proof. repeat split; reflexivity. Qed.

(** C6, amended. While the device is not acquiring, [CameraThread.stop] on
    a thread that holds a camera is a no-op: it returns at its first line
    and leaves the object, device log included, as it was. In the pull
    model [stop_acquisition(keep_active=True)] on a stopped timer is a
    no-op too, whereas [stop_acquisition()] calls [stop_acquisition] on
    the connected device whatever its state. *)
Theorem stop_while_idle :
  (forall (self : CameraThread.t) (c : Camera) (fuel : nat),
     CameraThread.camera self = Some c -> camera_acquiring c = false ->
     snd (CameraThread.stop fuel self) = self /\
     ((1 <= fuel)%nat ->
      fst (CameraThread.stop fuel self) = CameraThread.Stop_returned)) /\
  (forall w : CameraIdsWidget.t,
     CameraIdsWidget.isActive (CameraIdsWidget.main_timer w) = false ->
     CameraIdsWidget.stop_acquisition true w = (Val tt, w)) /\
  (forall (w : CameraIdsWidget.t) (c : Camera),
     CameraIdsWidget.camera w = Some c ->
     fst (CameraIdsWidget.stop_acquisition false w) = Val tt /\
     widget_calls (snd (CameraIdsWidget.stop_acquisition false w))
       = calls c ++ [Call_stop_acquisition]).
Proof.
  split; [|split].
  - intros self c fuel Hc Hacq. unfold CameraThread.stop.
    destruct fuel as [|fuel]; [split; [reflexivity | lia]|].
    cbn [CameraThread.stop_from CameraThread.stop_step].
    rewrite Hc, Hacq. destruct fuel; split; reflexivity.
  - intros w Hact. unfold CameraIdsWidget.stop_acquisition.
    cbv [mbind M_bind mret M_ret get modify CameraIdsWidget.is_connected].
    rewrite Hact. destruct (CameraIdsWidget.camera w); reflexivity.
  - intros w c Hc. unfold CameraIdsWidget.stop_acquisition.
    cbv [mbind M_bind mret M_ret get modify CameraIdsWidget.is_connected
         CameraIdsWidget.camera_do].
    rewrite Hc. unfold widget_calls.
    destruct (CameraIdsWidget.isActive (CameraIdsWidget.main_timer w));
      cbn; rewrite Hc; split; reflexivity.
Qed.

Lemma stop_while_idle_witness :
  CameraThread.stop 5 (CameraThread.set_camera camera12 CameraThread.init)
    = (CameraThread.Stop_returned,
       CameraThread.set_camera camera12 CameraThread.init) /\
  CameraIdsWidget.stop_acquisition true (an_idle_widget camera12)
    = (Val tt, an_idle_widget camera12) /\
  widget_calls
    (snd (CameraIdsWidget.stop_acquisition false (an_idle_widget camera12)))
    = [Call_stop_acquisition].
Proof.
  destruct stop_while_idle as (Hpush & Hkeep & Hstop).
  split; [|split].
  - destruct (Hpush (CameraThread.set_camera camera12 CameraThread.init)
                camera12 5%nat eq_refl eq_refl) as [H1 H2].
    rewrite (surjective_pairing (CameraThread.stop 5 _)), H1, H2;
      [reflexivity | lia].
  - exact (Hkeep (an_idle_widget camera12) eq_refl).
  - exact (proj2 (Hstop (an_idle_widget camera12) camera12 eq_refl)).
Defined.

End StopWhileIdle.

(** ** The stop protocol under interleaving *)

Section StopProtocol.

Import CameraThread.

Lemma stop_actions_snoc (tr : list label) (l : label) :
  stop_actions (tr ++ [l])
  = stop_actions tr ++ (if is_stop_action l then [l] else []).
Proof.
  unfold stop_actions. rewrite filter_app. f_equal.
  destruct l as [pc|pc]; [reflexivity|]. destruct pc; reflexivity.
Qed.

(** Only line 65 of [run] writes [stopping]. *)
Lemma run_step_stopping (pc pc' : run_pc) (self self' : t) :
  run_step pc self = Some (pc', self') -> pc <> L65 ->
  stopping self' = stopping self.
Proof.
  intros H Hpc. destruct pc; cbn in H; try congruence; step_cases H;
    try discriminate H; injection H as <- <-; reflexivity.
Qed.

Lemma exec_split (s0 s : sys) (pre post : list label) (l : label) :
  exec s0 (pre ++ l :: post) s ->
  exists s1 s2, exec s0 pre s1 /\ step s1 l s2.
Proof.
  intros H. remember (pre ++ l :: post) as tr eqn:E.
  revert pre post E. induction H as [|tr s1 l0 s2 H IH Hstep];
    intros pre post E.
  - destruct pre; discriminate E.
  - destruct post as [|x post _] using rev_ind.
    + apply app_inj_tail in E as [-> ->]. exists s1, s2. auto.
    + rewrite app_comm_cons, app_assoc in E.
      apply app_inj_tail in E as [-> ->]. exact (IH pre post eq_refl).
Qed.

Lemma handshake_completed (tr : list label) :
  take 2 handshake `sublist_of` tr ->
  handshake `sublist_of` tr ++ [Run L65].
Proof.
  intros H. change handshake with (take 2 handshake ++ [Run L65]).
  apply sublist_app; [exact H | reflexivity].
Qed.

(** A statement of the worker preserves [stop_inv]. *)
Lemma stop_inv_run (s : sys) (tr : list label) (pc' : run_pc) (self' : t) :
  stop_inv s tr ->
  run_step (run_at s) (self_of s) = Some (pc', self') ->
  stop_inv (mkSys self' pc' (stop_at s)) (tr ++ [Run (run_at s)]).
Proof.
  intros Hinv Hrun. unfold stop_inv in *. cbn [stop_at self_of].
  rewrite stop_actions_snoc. cbn [is_stop_action]. rewrite app_nil_r.
  destruct (stop_at s); try exact Hinv;
    try (destruct Hinv as [Ha Hs]; split;
         [exact Ha | apply sublist_inserts_r; exact Hs]).
  destruct Hinv as (Ha & Hm & Hack). split; [exact Ha|].
  split; [apply sublist_inserts_r; exact Hm|].
  intros Hst.
  destruct (run_at s) eqn:Hpc;
    try (apply sublist_inserts_r, Hack;
         rewrite <- (run_step_stopping _ _ _ _ Hrun) by discriminate;
         exact Hst).
  apply handshake_completed. exact Hm.
Qed.

(** A statement of the controller preserves [stop_inv]. *)
Lemma stop_inv_stop (s : sys) (tr : list label) (pc' : stop_pc) (self' : t) :
  stop_inv s tr ->
  stop_step (stop_at s) (self_of s) = Some (pc', self') ->
  stop_inv (mkSys self' (run_at s) pc') (tr ++ [Stop (stop_at s)]).
Proof.
  intros Hinv Hstop. unfold stop_inv in *. cbn [stop_at self_of].
  rewrite stop_actions_snoc.
  destruct (stop_at s); cbn in Hstop; step_cases Hstop;
    try discriminate Hstop; injection Hstop as <- <-;
    cbn [is_stop_action]; rewrite ?app_nil_r.
  - (* line 36, device acquiring *) exact Hinv.
  - (* line 36, device idle *) left. exact Hinv.
  - (* line 36, no camera *) rewrite Hinv. exists stop_order. reflexivity.
  - (* line 37 *) rewrite Hinv. split; [reflexivity|].
    apply sublist_inserts_l. reflexivity.
  - (* line 38 *) destruct Hinv as [Ha Hs]. rewrite Ha.
    split; [reflexivity|]. split.
    + change (take 2 handshake) with (take 1 handshake ++ [Stop L38]).
      apply sublist_app; [exact Hs | reflexivity].
    + intros H. discriminate H.
  - (* line 39, still waiting *) destruct Hinv as (Ha & Hm & Hack).
    split; [exact Ha|]. split; [apply sublist_inserts_r; exact Hm|].
    intros H. congruence.
  - (* line 39, marker cleared *) destruct Hinv as (Ha & Hm & Hack).
    split; [exact Ha|]. apply sublist_inserts_r, Hack. reflexivity.
  - (* line 41 *) destruct Hinv as [Ha Hs].
    split; [exact Ha | apply sublist_inserts_r; exact Hs].
  - (* line 42 *) destruct Hinv as [Ha Hs]. rewrite Ha.
    split; [reflexivity | apply sublist_inserts_r; exact Hs].
  - (* line 42, no camera *) destruct Hinv as [Ha Hs]. rewrite Ha.
    exists [Stop L44]. reflexivity.
  - (* line 43 *) destruct Hinv as [Ha Hs].
    split; [exact Ha | apply sublist_inserts_r; exact Hs].
  - (* line 44 *) destruct Hinv as [Ha Hs]. rewrite Ha.
    split; [reflexivity | apply sublist_inserts_r; exact Hs].
  - (* line 44, no camera *) destruct Hinv as [Ha Hs]. rewrite Ha.
    exists []. reflexivity.
  - (* line 45 *) right. apply Hinv.
Qed.

Lemma stop_inv_step (s s' : sys) (tr : list label) (l : label) :
  stop_inv s tr -> step s l s' -> stop_inv s' (tr ++ [l]).
Proof.
  intros Hinv Hstep. destruct Hstep as [s pc' self' H | s pc' self' H].
  - apply stop_inv_run; assumption.
  - apply stop_inv_stop; assumption.
Qed.

Lemma stop_inv_exec (self : t) (tr : list label) (s : sys) :
  exec (initial self) tr s -> stop_inv s tr.
Proof.
  induction 1 as [|tr s1 l s2 _ IH Hstep].
  - reflexivity.
  - exact (stop_inv_step s1 s2 tr l IH Hstep).
Qed.

Lemma stop_inv_order (s : sys) (tr : list label) :
  stop_inv s tr -> stop_actions tr `prefix_of` stop_order.
Proof.
  unfold stop_inv. destruct (stop_at s); intros H.
  - rewrite H. exists stop_order. reflexivity.
  - rewrite H. exists stop_order. reflexivity.
  - destruct H as [-> _]. exists (drop 1 stop_order). reflexivity.
  - destruct H as [-> _]. exists (drop 2 stop_order). reflexivity.
  - destruct H as [-> _]. exists (drop 2 stop_order). reflexivity.
  - destruct H as [-> _]. exists (drop 2 stop_order). reflexivity.
  - destruct H as [-> _]. exists (drop 3 stop_order). reflexivity.
  - destruct H as [-> _]. exists (drop 3 stop_order). reflexivity.
  - destruct H as [-> _]. exists []. reflexivity.
  - destruct H as [-> | ->]; [exists stop_order | exists []]; reflexivity.
  - exact H.
Qed.

Lemma exec_cons (s s1 s2 : sys) (l : label) (tr : list label) :
  step s l s1 -> exec s1 tr s2 -> exec s (l :: tr) s2.
Proof.
  intros Hstep H. induction H as [|tr s2 l' s3 _ IH Hstep'].
  - apply (exec_snoc s [] s l s1); [constructor | exact Hstep].
  - rewrite app_comm_cons. exact (exec_snoc s _ s2 l' s3 IH Hstep').
Qed.

Lemma sched_step_sound (who : thread) (s s' : sys) (l : label) :
  sched_step who s = Some (l, s') -> step s l s'.
Proof.
  destruct who; cbn; intros H.
  - destruct (run_step (run_at s) (self_of s)) as [[pc' self']|] eqn:E;
      [|discriminate H].
    injection H as <- <-. constructor. exact E.
  - destruct (stop_step (stop_at s) (self_of s)) as [[pc' self']|] eqn:E;
      [|discriminate H].
    injection H as <- <-. constructor. exact E.
Qed.

(** Every schedule yields an interleaving. *)
Lemma schedule_exec (sch : list thread) :
  forall s, exec s (fst (schedule sch s)) (snd (schedule sch s)).
Proof.
  induction sch as [|who sch IH]; intros s; cbn [schedule].
  - constructor.
  - destruct (sched_step who s) as [[l s']|] eqn:E; [|apply IH].
    specialize (IH s'). destruct (schedule sch s') as [tr s''].
    cbn [fst snd] in *.
    exact (exec_cons s s' s'' l tr (sched_step_sound who s s' l E) IH).
Qed.

Lemma sublist_snoc_inv {A} (p tr : list A) (l : A) :
  p `sublist_of` tr ++ [l] ->
  p `sublist_of` tr \/ exists p', p = p' ++ [l] /\ p' `sublist_of` tr.
Proof.
  intros H. apply sublist_app_r in H as (p1 & p2 & -> & H1 & H2).
  inversion H2 as [|x p2' k Hp2|x p2' k Hp2]; subst.
  - inversion Hp2; subst. right. exists p1. auto.
  - inversion Hp2; subst. left. rewrite app_nil_r. exact H1.
Qed.

(** Only line 61 of [run] and line 37 of [stop] write [running]. *)
Lemma run_step_running (pc pc' : run_pc) (self self' : t) :
  run_step pc self = Some (pc', self') -> pc <> L61 ->
  running self' = running self.
Proof.
  intros H Hpc. destruct pc; cbn in H; try congruence; step_cases H;
    try discriminate H; injection H as <- <-; cbn; congruence.
Qed.

Lemma stop_step_running (pc pc' : stop_pc) (self self' : t) :
  stop_step pc self = Some (pc', self') -> pc <> L37 ->
  running self' = running self.
Proof.
  intros H Hpc. destruct pc; cbn in H; try congruence; step_cases H;
    try discriminate H; injection H as <- <-; reflexivity.
Qed.

Lemma parked_inv_step (s s' : sys) (tr : list label) (l : label) :
  parked_inv s tr -> step s l s' -> parked_inv s' (tr ++ [l]).
Proof.
  intros Hinv Hstep Hlate.
  assert (Hlate' : ~ set_after_clear `sublist_of` tr).
  { intros H. apply Hlate. apply sublist_inserts_r. exact H. }
  destruct (Hinv Hlate') as [Hflag Hpark]. clear Hinv.
  assert (Hflag' : take 1 handshake `sublist_of` tr ++ [l] ->
                   running (self_of s') = false).
  { intros Hc. apply sublist_snoc_inv in Hc as [Hc | (p' & Hp & Hc)].
    - specialize (Hflag Hc).
      destruct Hstep as [s pc' self' H | s pc' self' H]; cbn [self_of].
      + destruct (run_at s) eqn:Hpc;
          try (rewrite (run_step_running _ _ _ _ H) by discriminate;
               exact Hflag).
        exfalso. apply Hlate.
        change set_after_clear with (take 1 handshake ++ [Run L61]).
        apply sublist_app; [exact Hc | reflexivity].
      + destruct (stop_at s) eqn:Hpc;
          try (rewrite (stop_step_running _ _ _ _ H) by discriminate;
               exact Hflag).
        cbn in H. injection H as <- <-. reflexivity.
    - destruct p' as [|x [|y p']]; cbn in Hp; try discriminate Hp.
      injection Hp as Hl.
      destruct Hstep as [s pc' self' H | s pc' self' H];
        [discriminate Hl | injection Hl as Hat].
      rewrite <- Hat in H. cbn in H. injection H as <- <-. reflexivity. }
  split; [exact Hflag'|].
  intros Hh. apply sublist_snoc_inv in Hh as [Hh | (p' & Hp & Hh)].
  - assert (Hc : take 1 handshake `sublist_of` tr).
    { transitivity handshake; [|exact Hh].
      apply (sublist_inserts_r (drop 1 handshake) _ (take 1 handshake)).
      reflexivity. }
    specialize (Hflag Hc). specialize (Hpark Hh).
    destruct Hstep as [s pc' self' H | s pc' self' H]; cbn [run_at].
    + destruct Hpark as [Hpc | Hpc]; rewrite Hpc in H; cbn in H.
      * rewrite Hflag in H. injection H as <- <-. right. reflexivity.
      * discriminate H.
    + exact Hpark.
  - destruct p' as [|x [|y [|z p']]]; cbn in Hp; try discriminate Hp.
    + injection Hp as _ _ Hl.
      destruct Hstep as [s pc' self' H | s pc' self' H];
        [injection Hl as Hat | discriminate Hl].
      rewrite <- Hat in H. cbn in H. injection H as <- <-. left. reflexivity.
    + exfalso. injection Hp as _ _ _ Hp. destruct p'; discriminate Hp.
Qed.

Lemma parked_inv_exec (self : t) (tr : list label) (s : sys) :
  exec (initial self) tr s -> parked_inv s tr.
Proof.
  induction 1 as [|tr s1 l s2 _ IH Hstep].
  - intros _. split; intros H; inversion H.
  - exact (parked_inv_step s1 s2 tr l IH Hstep).
Qed.

Lemma step_run_label (s s' : sys) (pc : run_pc) :
  step s (Run pc) s' -> run_at s = pc.
Proof. intros H. inversion H. reflexivity. Qed.

Lemma step_stop_label (s s' : sys) (pc : stop_pc) :
  step s (Stop pc) s' -> stop_at s = pc.
Proof. intros H. inversion H. reflexivity. Qed.

(** The two interleavings named above. In the second one the request
    comes between lines 60 and 61: line 61 sets the flag again, and the
    worker grabs an image after [free_memory]. *)
Example stop_while_running_trace :
  fst (schedule stop_while_running
         (initial (set_camera steady_camera init)))
  = [Run L57; Run L58; Run L59; Run L60; Run L61; Run L62;
     Stop L36; Stop L37; Stop L38; Stop L39;
     Run L63; Run (L64 raw12); Run L65; Run L62;
     Stop L39; Stop L41; Stop L42; Stop L43; Stop L44; Stop L45].
Proof. vm_compute. reflexivity. Qed.

Example stop_before_running_trace :
  fst (schedule stop_before_running
         (initial (set_camera steady_camera init)))
  = [Run L57; Run L58; Run L59; Run L60;
     Stop L36; Stop L37; Stop L38;
     Run L61; Run L62; Run L63; Run (L64 raw12); Run L65;
     Stop L39; Stop L41; Stop L42; Stop L43; Stop L44; Stop L45;
     Run L62; Run L63; Run (L64 raw12); Run L65].
Proof. vm_compute. reflexivity. Qed.

(** C1. In every interleaving of [stop] with [run], the controller clears
    the running flag, then sets the stop marker, then calls
    [stop_acquisition], then [free_memory], in this order; and neither
    device call is made before the loop has cleared the marker after it was
    set: the handshake (line 37, line 38, line 65) precedes line 42 and
    line 44. When the stop request comes while the loop is running, that
    is when line 61 does not set the flag again after line 37 cleared it,
    the loop finds the flag cleared at its next test: after the device has
    been stopped the worker grabs no further image. *)
Theorem stop_protocol_handshake (self : t) (tr : list label) (s : sys) :
  exec (initial self) tr s ->
  stop_actions tr `prefix_of` stop_order /\
  (forall pre post,
     tr = pre ++ Stop L42 :: post \/ tr = pre ++ Stop L44 :: post ->
     handshake `sublist_of` pre) /\
  (~ set_after_clear `sublist_of` tr ->
   forall pre post, tr = pre ++ Stop L42 :: post -> ~ In (Run L63) post).
Proof.
  intros Hexec.
  assert (Hack : forall pre post,
             tr = pre ++ Stop L42 :: post \/ tr = pre ++ Stop L44 :: post ->
             handshake `sublist_of` pre).
  { intros pre post [E | E]; subst tr;
      destruct (exec_split _ _ _ _ _ Hexec) as (s1 & s2 & Hpre & Hstep);
      pose proof (stop_inv_exec self pre s1 Hpre) as Hinv;
      unfold stop_inv in Hinv;
      rewrite (step_stop_label _ _ _ Hstep) in Hinv; apply Hinv. }
  split; [|split].
  - exact (stop_inv_order s tr (stop_inv_exec self tr s Hexec)).
  - exact Hack.
  - intros Hlate pre post E Hin.
    apply in_split in Hin as (p1 & p2 & ->).
    pose proof (Hack pre _ (or_introl E)) as Hh.
    assert (E' : tr = (pre ++ Stop L42 :: p1) ++ Run L63 :: p2).
    { rewrite E, <- app_assoc. reflexivity. }
    rewrite E' in Hexec.
    destruct (exec_split _ _ _ _ _ Hexec) as (s1 & s2 & Hpre & Hstep).
    destruct (parked_inv_exec self _ s1 Hpre) as [_ Hpark].
    + intros H. apply Hlate. rewrite E'. apply sublist_inserts_r. exact H.
    + rewrite (step_run_label _ _ _ Hstep) in Hpark.
      destruct Hpark as [H | H]; [|discriminate H|discriminate H].
      apply sublist_inserts_r. exact Hh.
Qed.

Lemma stop_protocol_handshake_witness :
  let tr := [Run L57; Run L58; Run L59; Run L60; Run L61; Run L62;
             Stop L36; Stop L37; Stop L38; Stop L39;
             Run L63; Run (L64 raw12); Run L65; Run L62;
             Stop L39; Stop L41; Stop L42; Stop L43; Stop L44; Stop L45] in
  exec (initial (set_camera steady_camera init)) tr
    (snd (schedule stop_while_running
            (initial (set_camera steady_camera init)))) /\
  stop_actions tr `prefix_of` stop_order /\
  handshake `sublist_of` take 16 tr /\
  ~ In (Run L63) (drop 17 tr).
Proof.
  intros tr.
  pose proof (schedule_exec stop_while_running
                (initial (set_camera steady_camera init))) as Hexec.
  rewrite stop_while_running_trace in Hexec. fold tr in Hexec.
  destruct (stop_protocol_handshake _ _ _ Hexec) as (Horder & Hack & Hpark).
  split; [exact Hexec|]. split; [exact Horder|]. split.
  - apply (Hack (take 16 tr) (drop 17 tr)). left. reflexivity.
  - apply (Hpark ltac:(no_sublist) (take 16 tr) (drop 17 tr)). reflexivity.
Defined.

End StopProtocol.

(** * Further properties of the code *)

(** ** Views and casts *)

Section Views.

Lemma view_uint16_length (raw : list Byte.byte) :
  forall samples, view_uint16 raw = Some samples ->
  length raw = (2 * length samples)%nat.
Proof.
  induction raw as [|lo|lo hi rest IH] using list_pair_ind;
    simpl; intros samples H.
  - inversion H. reflexivity.
  - discriminate.
  - destruct (view_uint16 rest) as [l|] eqn:E; [|discriminate].
    inversion H; subst. cbn [length]. rewrite (IH l eq_refl). lia.
Qed.

Lemma view_uint16_odd (raw : list Byte.byte) :
  view_uint16 raw = None <-> Nat.odd (length raw) = true.
Proof.
  induction raw as [|lo|lo hi rest IH] using list_pair_ind; simpl.
  - split; discriminate.
  - split; reflexivity.
  - destruct (view_uint16 rest) as [l|] eqn:E.
    + split; [discriminate|]. intros H. apply IH in H. discriminate H.
    + split; [|reflexivity]. intros _. apply IH. reflexivity.
Qed.

(** X1. At 8 bits or fewer the conversion of [get_disp_image] never fails
    and hands the bytes of the buffer over unchanged; above 8 bits it
    raises [ValueError] on every buffer that holds an odd number of bytes,
    however the bytes are arranged in rows. *)
Theorem disp_image_odd_buffer (d : Z) (raw : list Byte.byte) :
  (d <= 8 -> disp_image d raw = Val (view_uint8 raw)) /\
  (8 < d -> Nat.odd (length raw) = true ->
   disp_image d raw = Exc ValueError).
Proof.
  unfold disp_image. split.
  - intros Hd. destruct (Z.ltb_spec 8 d) as [H|_]; [lia|]. f_equal.
    unfold view_uint8. rewrite map_map.
    apply map_ext. intros b. unfold astype_uint8_int.
    apply Z.mod_small. pose proof (byte_val_range b). lia.
  - intros Hd Hodd. destruct (Z.ltb_spec 8 d) as [_|H]; [|lia].
    apply view_uint16_odd in Hodd. rewrite Hodd. reflexivity.
Qed.

Lemma disp_image_odd_buffer_witness :
  disp_image 8 [Byte.x01; Byte.xff; Byte.x10] = Val [1; 255; 16] /\
  disp_image 12 [Byte.x01; Byte.xff; Byte.x10] = Exc ValueError.
Proof.
  destruct (disp_image_odd_buffer 8 [Byte.x01; Byte.xff; Byte.x10]) as [H8 _].
  destruct (disp_image_odd_buffer 12 [Byte.x01; Byte.xff; Byte.x10])
    as [_ H12].
  split; [exact (H8 ltac:(lia)) | exact (H12 ltac:(lia) eq_refl)].
Defined.

(** X2. Whatever the buffer and the bit depth, a converted image has one
    sample per input sample (one per pair of bytes above 8 bits, one per
    byte otherwise) and every sample lies in [0, 255]. *)
Theorem disp_image_length_range (d : Z) (raw : list Byte.byte) (out : list Z) :
  disp_image d raw = Val out ->
  (if 8 <? d then length raw = (2 * length out)%nat
   else length out = length raw) /\
  Forall (fun o => 0 <= o <= 255) out.
Proof.
  unfold disp_image. destruct (8 <? d).
  - destruct (view_uint16 raw) as [l|] eqn:E; [|discriminate].
    intros H. injection H as <-. rewrite length_map. split.
    + exact (view_uint16_length raw l E).
    + apply Forall_map, Forall_forall. intros v _.
      unfold astype_uint8. pose proof (Z.mod_pos_bound (Qtrunc
        (scale_sample d v)) 256). lia.
  - intros H. injection H as <-. unfold view_uint8.
    rewrite !length_map. split; [reflexivity|].
    apply Forall_map, Forall_forall. intros v _.
    unfold astype_uint8_int. pose proof (Z.mod_pos_bound v 256). lia.
Qed.

Lemma disp_image_length_range_witness :
  length raw12 = (2 * length [255; 1; 0])%nat /\
  Forall (fun o => 0 <= o <= 255) [255; 1; 0].
Proof.
  exact (disp_image_length_range 12 raw12 [255; 1; 0] eq_refl).
Defined.

End Views.

(** ** Raw and displayed images *)

Section RawImage.

Import CameraIdsWidget.

Lemma disp_image_of_raw_image (d : Z) (raw : list Byte.byte) :
  disp_image d raw = match raw_image d raw with
                     | Val a => Val (map (to_display d) a)
                     | Exc e => Exc e
                     end.
Proof.
  unfold disp_image, raw_image, to_display. destruct (8 <? d).
  - destruct (view_uint16 raw); reflexivity.
  - f_equal. unfold view_uint8. rewrite !map_map. apply map_ext.
    intros b. unfold astype_uint8_int. apply Z.mod_small.
    pose proof (byte_val_range b). lia.
Qed.

(** X3. [get_disp_image] is [get_image] followed by the scaling of every
    sample: on the same widget both make the same device calls and leave
    the same state, both return [None] or raise the same exception
    together, and when [get_image] returns an array [get_disp_image]
    returns that array with every sample converted. *)
Theorem get_disp_image_scales_get_image (w : t) :
  snd (get_disp_image w) = snd (get_image w) /\
  match fst (get_image w) with
  | Val (Some a) =>
      exists c, camera w = Some c /\
        fst (get_disp_image w) = Val (Some (map (to_display (nb_bits c)) a))
  | Val None => fst (get_disp_image w) = Val None
  | Exc e => fst (get_disp_image w) = Exc e
  end.
Proof.
  unfold get_disp_image, get_image, start_acquisition.
  cbv [mbind M_bind mret M_ret get modify raise is_connected camera_ask
       camera_do].
  destruct (camera w) as [c|] eqn:Hc; [|split; reflexivity].
  cbn -[time_ms disp_image raw_image].
  destruct (connected c); [|split; reflexivity].
  cbn -[time_ms disp_image raw_image].
  destruct (time_ms (frame_rate c)) as [ms|e]; [|split; reflexivity].
  cbn -[time_ms disp_image raw_image].
  destruct (images c (grabbed c)) as [raw|]; [|split; reflexivity].
  cbn -[time_ms disp_image raw_image].
  rewrite disp_image_of_raw_image.
  destruct (raw_image (nb_bits c) raw) as [a|e]; cbn; split; try reflexivity.
  exists c. split; reflexivity.
Qed.

End RawImage.

(** ** Starting and stopping the timer *)

Section StartStop.

Import CameraIdsWidget.

Lemma stop_acquisition_connected (keep : bool) (w : t) (c : Camera) :
  camera w = Some c ->
  stop_acquisition keep w =
    (Val tt,
     with_camera (Some (if keep then c else Device.stop_acquisition c))
       (with_timer (mkTimer false (interval (main_timer w))) w)).
Proof.
  intros Hc. unfold stop_acquisition.
  cbv [mbind M_bind mret M_ret get modify is_connected camera_do].
  rewrite Hc. destruct w as [cam [act ms] img disp out]. cbn in Hc. subst cam.
  destruct act, keep; reflexivity.
Qed.

(** X4. After [stop_acquisition] on a widget that holds a camera the timer is
    stopped and its periods change nothing any more: no refresh, no device
    call, no frame shown; the device is stopped unless [keep_active] was
    given. On a widget without camera [stop_acquisition] does nothing at
    all, the timer is not even stopped. *)
Theorem stop_acquisition_silences_periods
    (keep : bool) (renders : list bool) (w : t) :
  (forall c, camera w = Some c ->
     let w' := snd (stop_acquisition keep w) in
     fst (stop_acquisition keep w) = Val tt /\
     isActive (main_timer w') = false /\
     timeouts renders w' = w' /\
     widget_acquiring w'
       = Some (if keep then camera_acquiring c else false)) /\
  (camera w = None -> stop_acquisition keep w = (Val tt, w)).
Proof.
  split.
  - intros c Hc w'. unfold w'.
    rewrite (stop_acquisition_connected keep w c Hc). cbn [fst snd].
    split; [reflexivity|]. split; [reflexivity|]. split.
    + induction renders as [|r renders IH]; [reflexivity|].
      unfold timeouts in *. cbn [fold_left]. exact IH.
    + unfold widget_acquiring. cbn. destruct keep; reflexivity.
  - intros Hc. unfold stop_acquisition.
    cbv [mbind M_bind mret M_ret get is_connected]. rewrite Hc. reflexivity.
Qed.

Lemma stop_acquisition_silences_periods_witness :
  let w' := snd (stop_acquisition true (a_widget camera12)) in
  timeouts [true; true; false] w' = w' /\
  stop_acquisition false (mk None (mkTimer true 100) None (Text "Test") [])
  = (Val tt, mk None (mkTimer true 100) None (Text "Test") []).
Proof.
  destruct (stop_acquisition_silences_periods true [true; true; false]
              (a_widget camera12)) as [H _].
  destruct (stop_acquisition_silences_periods false []
              (mk None (mkTimer true 100) None (Text "Test") [])) as [_ H'].
  split; [exact (proj1 (proj2 (proj2 (H camera12 eq_refl)))) | exact (H' eq_refl)].
Defined.

Lemma get_image_equation (w : t) (c : Camera) :
  camera w = Some c -> connected c = true -> ~ (frame_rate c == 0)%Q ->
  get_image w =
    match images c (grabbed c) with
    | Buffer raw =>
        (match raw_image (nb_bits c) raw with
         | Val a => Val (Some a)
         | Exc e => Exc e
         end,
         with_camera (Some (grabbed_camera c)) (started c w))
    | GrabFails =>
        (Exc DeviceError,
         with_camera
           (Some (snd (Device.get_image
                         (started_camera
                            (snd (Device.is_camera_connected c))))))
           (started c w))
    end.
Proof.
  intros Hc Hconn Hfps.
  unfold get_image.
  unfold mbind at 1. unfold M_bind at 1.
  unfold camera_ask at 1. rewrite Hc.
  cbn -[start_acquisition raw_image]. rewrite Hconn.
  unfold mbind at 1. unfold M_bind at 1.
  rewrite (start_acquisition_connected _ (snd (Device.is_camera_connected c)))
    by (simpl; auto).
  unfold mbind, M_bind, camera_ask.
  cbn -[raw_image timer_interval Z.ltb].
  destruct (images c (grabbed c)) as [raw|];
    cbn -[raw_image timer_interval Z.ltb]; [|reflexivity].
  destruct (raw_image (nb_bits c) raw); reflexivity.
Qed.

Lemma get_image_connected (w : t) (c : Camera) :
  camera w = Some c -> connected c = true -> ~ (frame_rate c == 0)%Q ->
  main_timer (snd (get_image w))
    = mkTimer true (armed_interval (frame_rate c)) /\
  widget_acquiring (snd (get_image w)) = Some true.
Proof.
  intros Hc Hconn Hfps.
  rewrite (get_image_equation w c Hc Hconn Hfps).
  destruct (images c (grabbed c)) as [raw|]; split; reflexivity.
Qed.

(** X5. A single [get_image] or [get_disp_image] undoes a previous
    [stop_acquisition]: on a connected camera it starts the device again
    and restarts the periodic timer with the interval of the current frame
    rate, whether the grab itself succeeds or not. *)
Theorem get_image_restarts_timer (keep : bool) (w : t) (c : Camera) :
  camera w = Some c -> connected c = true -> rate_in_range (frame_rate c) ->
  let w1 := snd (stop_acquisition keep w) in
  isActive (main_timer w1) = false /\
  main_timer (snd (get_image w1))
    = mkTimer true (timer_interval (frame_rate c)) /\
  widget_acquiring (snd (get_image w1)) = Some true /\
  main_timer (snd (get_disp_image w1))
    = mkTimer true (timer_interval (frame_rate c)) /\
  widget_acquiring (snd (get_disp_image w1)) = Some true.
Proof.
  intros Hc Hconn Hrange w1. unfold w1.
  pose proof (Qpos_nonzero _ (proj1 Hrange)) as Hfps.
  rewrite <- (armed_interval_in_range _ Hrange).
  rewrite (stop_acquisition_connected keep w c Hc). cbn [snd].
  set (c1 := if keep then c else Device.stop_acquisition c).
  set (w' := with_camera (Some c1) _).
  assert (Hc1 : camera w' = Some c1) by reflexivity.
  assert (Hconn1 : connected c1 = true)
    by (unfold c1; destruct keep; exact Hconn).
  assert (Hrate : frame_rate c1 = frame_rate c)
    by (unfold c1; destruct keep; reflexivity).
  assert (Hfps1 : ~ (frame_rate c1 == 0)%Q) by (rewrite Hrate; exact Hfps).
  destruct (get_image_connected w' c1 Hc1 Hconn1 Hfps1) as [H1 H2].
  destruct (refresh_connected true w' c1 Hc1 Hconn1 Hfps1) as [H3 _].
  rewrite Hrate in H1, H3.
  split; [reflexivity|]. split; [exact H1|]. split; [exact H2|].
  destruct (images c1 (grabbed c1)) as [raw|] eqn:Himg.
  - rewrite (refresh_buffer true w' c1 raw Hc1 Hconn1 Hfps1 Himg) in H3.
    rewrite (get_disp_image_buffer w' c1 raw Hc1 Hconn1 Hfps1 Himg).
    cbv zeta in H3.
    destruct (disp_image (nb_bits c1) raw); split; first [exact H3 | reflexivity].
  - rewrite (refresh_grab_fails true w' c1 Hc1 Hconn1 Hfps1 Himg) in H3.
    rewrite (get_disp_image_fails w' c1 Hc1 Hconn1 Hfps1 Himg).
    split; [exact H3 | reflexivity].
Qed.

Lemma get_image_restarts_timer_witness :
  let w1 := snd (stop_acquisition false (a_widget camera12)) in
  isActive (main_timer w1) = false /\
  main_timer (snd (get_image w1)) = mkTimer true 110.
Proof.
  assert (Hr : rate_in_range (frame_rate camera12))
    by (split; [reflexivity | discriminate]).
  destruct (get_image_restarts_timer false (a_widget camera12) camera12
              eq_refl eq_refl Hr) as (H1 & H2 & _).
  split; [exact H1|]. rewrite <- timer_interval_10. exact H2.
Defined.

End StartStop.

(** ** The timer interval and the calls of a period *)

Section Periods.

Import CameraIdsWidget.

(** X6. With a frame rate of zero [start_acquisition] raises
    [ZeroDivisionError] after it has started the device and read the rate:
    the device is left acquiring, the timer is left as it was, and a timer
    period then grabs nothing, shows nothing and logs the exception. *)
Theorem start_acquisition_zero_rate (w : t) (c : Camera) :
  camera w = Some c -> (frame_rate c == 0)%Q ->
  fst (start_acquisition w) = Exc ZeroDivisionError /\
  main_timer (snd (start_acquisition w)) = main_timer w /\
  widget_acquiring (snd (start_acquisition w)) = Some true /\
  widget_calls (snd (start_acquisition w))
    = calls c ++ [Call_start_acquisition; Call_get_frame_rate] /\
  (connected c = true -> forall r,
     stdout (refresh r w)
       = stdout w ++ ["Exception - refresh: ZeroDivisionError"%string] /\
     camera_display (refresh r w) = camera_display w /\
     count_calls is_get_image_call (widget_calls (refresh r w))
       = count_calls is_get_image_call (calls c)).
Proof.
  intros Hc Hz.
  assert (Ht : time_ms (frame_rate c) = Exc ZeroDivisionError).
  { unfold time_ms. apply Qeq_bool_iff in Hz. rewrite Hz. reflexivity. }
  assert (Hs : start_acquisition w =
               (Exc ZeroDivisionError,
                with_camera (Some (started_camera c)) w)).
  { unfold start_acquisition.
    cbv [mbind M_bind mret M_ret get modify raise is_connected camera_ask
         camera_do].
    rewrite Hc. cbn -[time_ms]. rewrite Hc. cbn -[time_ms].
    rewrite Ht. reflexivity. }
  rewrite Hs. cbn [fst snd].
  split; [reflexivity|]. split; [reflexivity|]. split; [reflexivity|].
  split.
  - unfold widget_calls. cbn. rewrite <- app_assoc. reflexivity.
  - intros Hconn r.
    assert (Hr : refresh r w =
                 print "Exception - refresh: ZeroDivisionError"
                   (with_camera
                      (Some (started_camera
                               (snd (Device.is_camera_connected c)))) w)).
    { unfold refresh, refresh_body, get_disp_image, start_acquisition.
      cbv [mbind M_bind mret M_ret get modify raise is_connected camera_ask
           camera_do].
      do 4 (rewrite ?Hc, ?Hconn, ?Ht; cbn -[time_ms]). reflexivity. }
    rewrite Hr. split; [reflexivity|]. split; [reflexivity|].
    unfold count_calls, widget_calls. cbn.
    rewrite !List.filter_app, !length_app. cbn. lia.
Qed.

Lemma start_acquisition_zero_rate_witness :
  fst (start_acquisition (a_widget (a_camera 8 0 [Buffer raw12])))
  = Exc ZeroDivisionError /\
  stdout (refresh true (a_widget (a_camera 8 0 [Buffer raw12])))
  = ["Exception - refresh: ZeroDivisionError"%string].
Proof.
  destruct (start_acquisition_zero_rate
              (a_widget (a_camera 8 0 [Buffer raw12]))
              (a_camera 8 0 [Buffer raw12]) eq_refl eq_refl)
    as (H1 & _ & _ & _ & H5).
  split; [exact H1 | exact (proj1 (H5 eq_refl true))].
Defined.

(** X7. For a positive frame rate whose interval fits the timer, the
    interval [start_acquisition] computes is within one millisecond of the
    exact frame period plus 10 ms, on either side, and is at least 10 ms:
    the timer never fires faster than every 10 ms. *)
Theorem time_ms_bounds (fps : Q) :
  rate_in_range fps ->
  exists ms, time_ms fps = Val ms /\
    (1000 / fps + 9 < inject_Z ms)%Q /\
    (inject_Z ms < 1000 / fps + 11)%Q /\
    10 <= ms <= 2147483647.
Proof.
  intros Hrange. exists (timer_interval fps).
  rewrite (time_ms_nonzero fps (Qpos_nonzero fps (proj1 Hrange))).
  destruct (timer_interval_bounds fps Hrange) as [[Hlo Hhi] H10].
  split; [reflexivity|].
  rewrite Zle_Qle in Hlo, Hhi.
  pose proof (Qlt_floor (1000 / fps + 10)) as Hf.
  pose proof (Qceiling_lt (1000 / fps + 10)) as Hc.
  rewrite inject_Z_plus in Hf. unfold Z.sub in Hc. rewrite inject_Z_plus in Hc.
  change (inject_Z 1) with 1%Q in Hf. change (inject_Z (Z.opp 1)) with (Qopp 1) in Hc.
  set (x := (1000 / fps)%Q) in *. clearbody x.
  set (lo := inject_Z (Qfloor (x + 10))) in *. clearbody lo.
  set (hi := inject_Z (Qceiling (x + 10))) in *. clearbody hi.
  set (ms := inject_Z (timer_interval fps)) in *.
  split; [|split]; [clearbody ms; lra | clearbody ms; lra | exact H10].
Qed.

Lemma time_ms_bounds_witness :
  exists ms, time_ms 6 = Val ms /\
    (1000 / 6 + 9 < inject_Z ms)%Q /\
    (inject_Z ms < 1000 / 6 + 11)%Q /\
    10 <= ms <= 2147483647.
Proof.
  assert (Hr : rate_in_range 6) by (split; [reflexivity | discriminate]).
  exact (time_ms_bounds 6 Hr).
Defined.

Lemma refresh_calls (r : bool) (w : t) (c : Camera) :
  camera w = Some c -> connected c = true -> ~ (frame_rate c == 0)%Q ->
  exists c' b, camera (refresh r w) = Some c' /\ next_device c c' /\
    camera_acquiring c' = true /\
    calls c' = calls c ++ period_calls b.
Proof.
  intros Hc Hconn Hfps.
  destruct (images c (grabbed c)) as [raw|] eqn:Himg.
  - rewrite (refresh_buffer r w c raw Hc Hconn Hfps Himg). cbv zeta.
    exists (grabbed_camera c), true.
    assert (Hcalls : calls (grabbed_camera c) = calls c ++ period_calls true).
    { cbn. rewrite <- !app_assoc. reflexivity. }
    destruct (disp_image (nb_bits c) raw) as [a|e]; [destruct r|];
      (split; [reflexivity|]); (split; [unfold next_device; cbn; auto|]);
      (split; [reflexivity | exact Hcalls]).
  - rewrite (refresh_grab_fails r w c Hc Hconn Hfps Himg).
    eexists. exists false. split; [reflexivity|].
    split; [unfold next_device; cbn; auto|]. split; [reflexivity|].
    cbn. rewrite <- !app_assoc. reflexivity.
Qed.

Lemma count_calls_period (b : bool) (l : list dev_call) :
  count_calls is_start_call (l ++ period_calls b)
    = S (count_calls is_start_call l) /\
  count_calls is_get_image_call (l ++ period_calls b)
    = S (count_calls is_get_image_call l) /\
  count_calls is_setter_call (l ++ period_calls b)
    = count_calls is_setter_call l /\
  count_calls is_lifecycle_call (l ++ period_calls b)
    = count_calls is_lifecycle_call l.
Proof.
  unfold count_calls. rewrite !List.filter_app, !length_app.
  destruct b; cbn; repeat split; lia.
Qed.

(** X8. Every timer period on a connected camera calls the device's
    [start_acquisition] again and grabs one image: after [n] periods,
    whatever failed in them, the device has received exactly [n] more
    [start_acquisition] calls and [n] more [get_image] calls, no setter
    call, and no initialisation, allocation, stop or release; it reports
    that it is acquiring as soon as one period has run. *)
Theorem periods_restart_device (renders : list bool) :
  forall (w : t) (c : Camera),
  camera w = Some c -> connected c = true -> ~ (frame_rate c == 0)%Q ->
  isActive (main_timer w) = true ->
  exists c', camera (timeouts renders w) = Some c' /\
    count_calls is_start_call (calls c')
      = (count_calls is_start_call (calls c) + length renders)%nat /\
    count_calls is_get_image_call (calls c')
      = (count_calls is_get_image_call (calls c) + length renders)%nat /\
    count_calls is_setter_call (calls c')
      = count_calls is_setter_call (calls c) /\
    count_calls is_lifecycle_call (calls c')
      = count_calls is_lifecycle_call (calls c) /\
    (renders <> [] -> camera_acquiring c' = true).
Proof.
  induction renders as [|r renders IH]; intros w c Hc Hconn Hfps Hact.
  - exists c. rewrite !Nat.add_0_r. repeat split; auto.
  - assert (Hstep : timeouts (r :: renders) w = timeouts renders (refresh r w)).
    { unfold timeouts. cbn [fold_left]. unfold timeout at 2.
      rewrite Hact. reflexivity. }
    rewrite Hstep.
    destruct (refresh_calls r w c Hc Hconn Hfps)
      as (c1 & b & Hc1 & (Hconn1 & Hfps1 & _) & Hacq1 & Hcalls1).
    destruct (refresh_connected r w c Hc Hconn Hfps) as [Htm _].
    destruct (IH (refresh r w) c1 Hc1) as (c' & Hc' & H1 & H2 & H3 & H4 & H5).
    + congruence.
    + rewrite Hfps1. exact Hfps.
    + rewrite Htm. reflexivity.
    + destruct (count_calls_period b (calls c)) as (P1 & P2 & P3 & P4).
      rewrite Hcalls1, P1 in H1. rewrite Hcalls1, P2 in H2.
      rewrite Hcalls1, P3 in H3. rewrite Hcalls1, P4 in H4.
      exists c'. split; [exact Hc'|]. cbn [length].
      split; [lia|]. split; [lia|]. split; [exact H3|]. split; [exact H4|].
      intros _. destruct renders as [|r' renders'].
      * cbn in Hc'. rewrite Hc1 in Hc'. injection Hc' as <-. exact Hacq1.
      * apply H5. discriminate.
Qed.

Lemma periods_restart_device_witness :
  exists c', camera (timeouts [true; true; true] (a_widget faulty_camera12))
             = Some c' /\
    count_calls is_start_call (calls c') = 3%nat /\
    count_calls is_get_image_call (calls c') = 3%nat.
Proof.
  destruct (periods_restart_device [true; true; true]
              (a_widget faulty_camera12) faulty_camera12
              eq_refl eq_refl (Qeq_bool_neq 10 0 eq_refl) eq_refl)
    as (c' & Hc' & H1 & H2 & _).
  exists c'. split; [exact Hc'|]. split; [exact H1 | exact H2].
Defined.

End Periods.

(** ** The other events of the parameters panel *)

Section PanelEvents.

Import CameraIdsParamsWidget.

Lemma Qtrunc_le (q : Q) :
  (0 <= q)%Q -> (inject_Z (Qtrunc q) <= q)%Q.
Proof. intros H. rewrite (Qtrunc_nonneg q H). apply Qfloor_le. Qed.

Lemma Qtrunc_neg (q : Q) : (q < 0)%Q -> Qtrunc q <= 0.
Proof.
  intros H. unfold Qtrunc.
  destruct (Z.ltb_spec (Qnum q) 0) as [Hn|Hn].
  - unfold Qceiling.
    assert (0 <= Qfloor (- q)).
    { change 0 with (Qfloor 0). apply Qfloor_resp_le. lra. }
    lia.
  - unfold Qlt in H. simpl in H. lia.
Qed.

Lemma Qtrunc_ge (q : Q) (n : Z) :
  n <= 0 -> (inject_Z n <= q)%Q -> n <= Qtrunc q.
Proof.
  intros Hn H. unfold Qtrunc.
  pose proof (Qfloor_resp_le _ _ H) as Hf. rewrite Qfloor_Z in Hf.
  pose proof (Qceiling_resp_le _ _ H) as Hc. rewrite Qceiling_Z in Hc.
  destruct (Qnum q <? 0); assumption.
Qed.

Lemma round64_le_Z (q : Q) (n : Z) :
  Z.abs n < 2 ^ 53 -> (q <= inject_Z n)%Q -> (round64 q <= inject_Z n)%Q.
Proof.
  intros Hn H. rewrite <- (round64_Z n Hn). apply round64_mono, H.
Qed.

Lemma round64_ge_Z (q : Q) (n : Z) :
  Z.abs n < 2 ^ 53 -> (inject_Z n <= q)%Q -> (inject_Z n <= round64 q)%Q.
Proof.
  intros Hn H. rewrite <- (round64_Z n Hn). apply round64_mono, H.
Qed.

(** The frame period an "fps" event computes, for a slider value of a
    thousandth of a frame per second or more. *)
Lemma fps_t_bounds (value : Q) :
  (1 # 1000 <= value)%Q ->
  (0 <= fps_t value)%Q /\ (fps_t value <= 1000000)%Q.
Proof.
  intros Hv.
  assert (Hpos : (0 < value)%Q) by lra.
  assert (H0 : (0 <= 1 / value)%Q).
  { apply Qle_shift_div_l; [exact Hpos|]. lra. }
  assert (H1 : (1 / value <= 1000)%Q).
  { apply Qle_shift_div_r; [exact Hpos|]. lra. }
  pose proof (round64_ge_Z (1 / value) 0 ltac:(reflexivity) H0) as Ha0.
  pose proof (round64_le_Z (1 / value) 1000 ltac:(reflexivity) H1) as Ha1.
  fold (fdiv 1 value) in Ha0, Ha1.
  change (inject_Z 0) with 0%Q in Ha0.
  change (inject_Z 1000) with 1000%Q in Ha1.
  unfold fps_t, fmul. split.
  - apply (round64_ge_Z _ 0); [reflexivity|].
    change (inject_Z 0) with 0%Q.
    set (a := fdiv 1 value) in *. clearbody a. lra.
  - apply (round64_le_Z _ 1000000); [reflexivity|].
    change (inject_Z 1000000) with 1000000%Q.
    set (a := fdiv 1 value) in *. clearbody a. lra.
Qed.

(** The exposure an "fps" event falls back to, read back in milliseconds
    as the event reads the exposure, never exceeds the frame period the
    event computed. *)
Lemma adjusted_exposure_bound (value : Q) :
  (1 # 1000 <= value)%Q ->
  (fdiv (inject_Z (expo_val value)) 1000 <= fps_t value)%Q.
Proof.
  intros Hv. destruct (fps_t_bounds value Hv) as [H0 H1].
  set (y := fsub (fps_t value) 1).
  assert (Hy0 : (inject_Z (-1) <= y)%Q).
  { apply round64_ge_Z; [reflexivity|].
    change (inject_Z (-1)) with (-(1))%Q. lra. }
  assert (Hy1 : (y <= inject_Z 999999)%Q).
  { apply round64_le_Z; [reflexivity|].
    change (inject_Z 999999) with 999999%Q. lra. }
  assert (Hyf : (y <= fps_t value)%Q).
  { apply (Qle_trans _ (round64 (fps_t value))).
    - unfold y, fsub. apply round64_mono. lra.
    - unfold fps_t, fmul. rewrite round64_idem. apply Qle_refl. }
  assert (Hk0 : -1 <= Qtrunc y) by (apply Qtrunc_ge; [lia | exact Hy0]).
  assert (Hk : (inject_Z (Qtrunc y) <= fps_t value)%Q /\ Qtrunc y <= 999999).
  { destruct (Qlt_le_dec y 0) as [Hneg|Hnn].
    - pose proof (Qtrunc_neg _ Hneg) as Ht. split; [|lia].
      apply (Qle_trans _ 0); [|exact H0].
      change 0%Q with (inject_Z 0). rewrite <- Zle_Qle. exact Ht.
    - pose proof (Qtrunc_le _ Hnn) as Ht. split.
      + apply (Qle_trans _ y); assumption.
      + rewrite (Qtrunc_nonneg _ Hnn).
        pose proof (Qfloor_resp_le _ _ Hy1) as Hf. rewrite Qfloor_Z in Hf.
        exact Hf. }
  destruct Hk as [Hkf Hk1].
  unfold expo_val. fold y. unfold fdiv.
  rewrite (round64_comp _ (inject_Z (Qtrunc y))).
  - rewrite round64_Z by lia. exact Hkf.
  - rewrite inject_Z_mult. change (inject_Z 1000) with 1000%Q. field.
Qed.

(** The float of 33.333333333333336 frames per second: the event computes
    a frame period of exactly 30 ms and falls back to 29000 microseconds,
    and it keeps an exposure of 30000 microseconds. *)
Example fps_event_float :
  let value := 4691249611844267 # 140737488355328 in
  (fps_t value == 30)%Q /\ expo_val value = 29000 /\
  exposure_too_long value (Device.set_exposure 30000 (a_camera 8 10 []))
    = false.
Proof. vm_compute. repeat split; reflexivity. Qed.

Lemma update_params_fps
    (event e0 e1 : string) (rest : list string) (p : t) (c : Camera) :
  split ":" event = e0 :: e1 :: rest ->
  lower e1 = "fps"%string ->
  CameraIdsWidget.camera (parent p) = Some c ->
  gate_open e0 (auto_update_check p) = true ->
  ~ (real_value (fps_slider p) == 0)%Q ->
  fst (update_params event p) = Val tt /\
  CameraIdsWidget.camera (parent (snd (update_params event p)))
    = Some (rate_set_camera (real_value (fps_slider p)) c) /\
  slider_max (expotime_slider (snd (update_params event p)))
    = fdiv (inject_Z (expo_val (real_value (fps_slider p)))) 1000.
Proof.
  intros Hsplit He1 Hc Hgate Hnz. unfold gate_open in Hgate.
  apply negb_true_iff in Hgate.
  assert (Hz : Qeq_bool (real_value (fps_slider p)) 0 = false).
  { destruct (Qeq_bool (real_value (fps_slider p)) 0) eqn:E; [|reflexivity].
    apply Qeq_bool_iff in E. contradiction. }
  unfold update_params. rewrite Hsplit.
  cbv [mbind M_bind mret M_ret item nth_error get].
  rewrite Hgate, He1. cbn [String.eqb Ascii.eqb Bool.eqb].
  cbv [parent_update_params mbind M_bind mret M_ret camera_do camera_ask
       on_parent CameraIdsWidget.camera_do CameraIdsWidget.camera_ask
       modify raise].
  rewrite Hc. cbn [Device.get_exposure fst snd]. rewrite Hz.
  unfold rate_set_camera, exposure_too_long, expo_val, fps_t.
  destruct p as [w auto fs es bs out]. cbn [parent] in Hc.
  cbn -[Qtrunc Qle_bool fdiv fmul fsub inject_Z].
  destruct (Qle_bool (fdiv (exposure c) 1000)
              (fmul (fdiv 1 (real_value fs)) 1000));
    cbn -[Qtrunc Qle_bool fdiv fmul fsub inject_Z];
    repeat split; reflexivity.
Qed.

(** X9. An "fps" event with a slider value of a thousandth of a frame per
    second or more sets the frame rate of the device to that value and
    leaves an exposure that, read in milliseconds as the event reads it,
    does not exceed the frame period the event computed, so that the same
    event sent again lowers nothing further: when the exposure was above
    the period it is first set to [int(period - 1)] milliseconds,
    otherwise it is kept; [set_exposure], when called, comes before
    [set_frame_rate]. Quotients, product and difference are those of the
    floats. *)
Theorem fps_event_bounds_exposure
    (event e0 e1 : string) (rest : list string) (p : t) (c : Camera) :
  split ":" event = e0 :: e1 :: rest ->
  lower e1 = "fps"%string ->
  CameraIdsWidget.camera (parent p) = Some c ->
  gate_open e0 (auto_update_check p) = true ->
  (1 # 1000 <= real_value (fps_slider p))%Q ->
  let value := real_value (fps_slider p) in
  let p' := snd (update_params event p) in
  fst (update_params event p) = Val tt /\
  widget_frame_rate (parent p') = Some value /\
  (exists e c', widget_exposure (parent p') = Some e /\
             (fdiv e 1000 <= fps_t value)%Q /\
             e = (if exposure_too_long value c
                  then inject_Z (expo_val value) else exposure c) /\
             CameraIdsWidget.camera (parent p') = Some c' /\
             exposure_too_long value c' = false) /\
  List.filter is_setter_call (widget_calls (parent p'))
    = List.filter is_setter_call (calls c)
      ++ (if exposure_too_long value c
          then [Call_set_exposure (inject_Z (expo_val value))] else [])
      ++ [Call_set_frame_rate value].
Proof.
  intros Hsplit He1 Hc Hgate Hv value p'.
  assert (Hnz : ~ (value == 0)%Q).
  { intros E. unfold value in E. rewrite E in Hv. lra. }
  destruct (update_params_fps event e0 e1 rest p c Hsplit He1 Hc Hgate Hnz)
    as (Hval & Hcam & _).
  fold p' in Hcam. fold value in Hcam.
  split; [exact Hval|].
  unfold widget_frame_rate, widget_exposure, widget_calls. rewrite Hcam.
  unfold rate_set_camera.
  destruct (exposure_too_long value c) eqn:Hlong;
    cbn -[fdiv fps_t expo_val exposure_too_long].
  - split; [reflexivity|]. split.
    + eexists. eexists. split; [reflexivity|].
      pose proof (adjusted_exposure_bound value Hv) as Hb.
      split; [exact Hb|]. split; [reflexivity|]. split; [reflexivity|].
      unfold exposure_too_long. cbn -[fdiv fps_t expo_val].
      apply negb_false_iff, Qle_bool_iff. exact Hb.
    + rewrite !List.filter_app. cbn. rewrite ?app_nil_r, <- ?app_assoc.
      reflexivity.
  - split; [reflexivity|]. split.
    + eexists. eexists. split; [reflexivity|].
      assert (Hb : (fdiv (exposure c) 1000 <= fps_t value)%Q).
      { unfold exposure_too_long in Hlong. apply negb_false_iff in Hlong.
        apply Qle_bool_iff in Hlong. exact Hlong. }
      split; [exact Hb|]. split; [reflexivity|]. split; [reflexivity|].
      unfold exposure_too_long. cbn -[fdiv fps_t expo_val].
      apply negb_false_iff, Qle_bool_iff. exact Hb.
    + rewrite !List.filter_app. cbn. rewrite ?app_nil_r, <- ?app_assoc.
      reflexivity.
Qed.

Example fps_event_25 : (fps_t 25 == 40)%Q /\ expo_val 25 = 39000.
Proof. vm_compute. split; reflexivity. Qed.

Lemma fps_event_bounds_exposure_witness :
  let p := a_panel (a_widget (Device.set_exposure 50000 (a_camera 8 10 [])))
             25 50 0 false in
  widget_frame_rate (parent (snd (update_params "update:fps" p)))
    = Some 25%Q /\
  exists e, widget_exposure (parent (snd (update_params "update:fps" p)))
            = Some e /\ (fdiv e 1000 <= fps_t 25)%Q.
Proof.
  intros p.
  assert (Hv : (1 # 1000 <= real_value (fps_slider p))%Q) by discriminate.
  destruct (fps_event_bounds_exposure "update:fps" "update" "fps" [] p
              (Device.set_exposure 50000 (a_camera 8 10 []))
              eq_refl eq_refl eq_refl eq_refl Hv)
    as (_ & Hrate & (e & c' & He & Hb & _) & _).
  split; [exact Hrate|]. exists e. split; [exact He | exact Hb].
Defined.

(** X10. An "fps" event with the slider at zero raises [ZeroDivisionError]
    after the exposure was read and before any setter: the parameters of
    the device, the sliders and the standard output are as before. *)
Theorem fps_event_zero_rate
    (event e0 e1 : string) (rest : list string) (p : t) (c : Camera) :
  split ":" event = e0 :: e1 :: rest ->
  lower e1 = "fps"%string ->
  CameraIdsWidget.camera (parent p) = Some c ->
  gate_open e0 (auto_update_check p) = true ->
  (real_value (fps_slider p) == 0)%Q ->
  update_params event p =
    (Exc ZeroDivisionError,
     with_parent
       (CameraIdsWidget.with_camera (Some (snd (Device.get_exposure c)))
          (parent p)) p).
Proof.
  intros Hsplit He1 Hc Hgate Hz. unfold gate_open in Hgate.
  apply negb_true_iff in Hgate. apply Qeq_bool_iff in Hz.
  unfold update_params. rewrite Hsplit.
  cbv [mbind M_bind mret M_ret item nth_error get].
  rewrite Hgate, He1. cbn [String.eqb Ascii.eqb Bool.eqb].
  cbv [mbind M_bind mret M_ret camera_do camera_ask
       on_parent CameraIdsWidget.camera_do CameraIdsWidget.camera_ask
       modify raise].
  rewrite Hc. cbn [Device.get_exposure fst snd]. rewrite Hz. reflexivity.
Qed.

Lemma fps_event_zero_rate_witness :
  let p := a_panel (a_widget (a_camera 8 10 [])) 0 10 0 false in
  fst (update_params "update:fps" p) = Exc ZeroDivisionError /\
  widget_calls (parent (snd (update_params "update:fps" p)))
    = [Call_get_exposure].
Proof.
  intros p.
  rewrite (fps_event_zero_rate "update:fps" "update" "fps" [] p
             (a_camera 8 10 []) eq_refl eq_refl eq_refl eq_refl eq_refl).
  split; reflexivity.
Defined.

(** X11. An event without a second field whose first field passes the gate
    raises [IndexError] and changes nothing. *)
Theorem event_without_name_raises (event e0 : string) (p : t) :
  split ":" event = [e0] ->
  gate_open e0 (auto_update_check p) = true ->
  update_params event p = (Exc IndexError, p).
Proof.
  intros Hsplit Hgate. unfold gate_open in Hgate.
  apply negb_true_iff in Hgate.
  unfold update_params. rewrite Hsplit.
  cbv [mbind M_bind mret M_ret item nth_error get raise].
  rewrite Hgate. reflexivity.
Qed.

Lemma event_without_name_raises_witness :
  update_params "update" (a_panel (a_widget camera12) 10 10 0 false)
  = (Exc IndexError, a_panel (a_widget camera12) 10 10 0 false).
Proof.
  exact (event_without_name_raises "update" "update"
           (a_panel (a_widget camera12) 10 10 0 false) eq_refl eq_refl).
Defined.

(** X12. An event whose second field is written in ASCII and names none of
    "fps", "expo" and "black" prints "Error" and calls no setter: the
    device only receives the reads of the small panel and keeps its
    parameters. *)
Theorem unknown_event_sets_nothing
    (event e0 e1 : string) (rest : list string) (p : t) (c : Camera) :
  split ":" event = e0 :: e1 :: rest ->
  is_ascii e1 = true ->
  lower e1 <> "fps"%string -> lower e1 <> "expo"%string ->
  lower e1 <> "black"%string ->
  CameraIdsWidget.camera (parent p) = Some c ->
  gate_open e0 (auto_update_check p) = true ->
  update_params event p =
    (Val tt,
     with_parent
       (CameraIdsWidget.with_camera (Some (panel_read_camera c)) (parent p))
       (print "Error" p)).
Proof.
  intros Hsplit _ H1 H2 H3 Hc Hgate. unfold gate_open in Hgate.
  apply negb_true_iff in Hgate.
  apply String.eqb_neq in H1, H2, H3.
  unfold update_params. rewrite Hsplit.
  cbv [mbind M_bind mret M_ret item nth_error get].
  rewrite Hgate, H1, H2, H3.
  cbv [parent_update_params mbind M_bind mret M_ret camera_do camera_ask
       on_parent CameraIdsWidget.camera_do CameraIdsWidget.camera_ask
       modify].
  destruct p as [w auto fs es bs out]. cbn [parent] in Hc.
  cbn. rewrite Hc. reflexivity.
Qed.

Lemma unknown_event_sets_nothing_witness :
  let p := a_panel (a_widget camera12) 10 10 0 false in
  widget_calls (parent (snd (update_params "update:gain" p))) = panel_reads /\
  stdout (snd (update_params "update:gain" p)) = ["Error"%string].
Proof.
  intros p.
  rewrite (unknown_event_sets_nothing "update:gain" "update" "gain" [] p
             camera12 eq_refl eq_refl); try reflexivity; try discriminate.
  split; reflexivity.
Defined.

(** X13. A "black" event that passes the gate sets the black level of the
    device to the slider value and nothing else: exposure and frame rate
    are unchanged and [set_black_level] is the only setter called. *)
Theorem black_event_sets_black_level
    (event e0 e1 : string) (rest : list string) (p : t) (c : Camera) :
  split ":" event = e0 :: e1 :: rest ->
  lower e1 = "black"%string ->
  CameraIdsWidget.camera (parent p) = Some c ->
  gate_open e0 (auto_update_check p) = true ->
  let value := real_value (blacklevel_slider p) in
  update_params event p =
    (Val tt,
     with_parent
       (CameraIdsWidget.with_camera
          (Some (panel_read_camera (Device.set_black_level value c)))
          (parent p)) p) /\
  black_level (panel_read_camera (Device.set_black_level value c)) = value /\
  exposure (panel_read_camera (Device.set_black_level value c))
    = exposure c /\
  frame_rate (panel_read_camera (Device.set_black_level value c))
    = frame_rate c.
Proof.
  intros Hsplit He1 Hc Hgate value. unfold gate_open in Hgate.
  apply negb_true_iff in Hgate.
  split; [|repeat split; reflexivity].
  unfold update_params. rewrite Hsplit.
  cbv [mbind M_bind mret M_ret item nth_error get].
  rewrite Hgate, He1. cbn [String.eqb Ascii.eqb Bool.eqb].
  cbv [parent_update_params mbind M_bind mret M_ret camera_do camera_ask
       on_parent CameraIdsWidget.camera_do CameraIdsWidget.camera_ask].
  rewrite Hc. destruct p as [w auto fs es bs out]. reflexivity.
Qed.

Lemma black_event_sets_black_level_witness :
  let p := a_panel (a_widget camera12) 10 10 7 true in
  widget_calls (parent (snd (update_params "slider:black" p)))
    = Call_set_black_level 7 :: panel_reads.
Proof.
  intros p.
  destruct (black_event_sets_black_level "slider:black" "slider" "black" []
              p camera12 eq_refl eq_refl eq_refl eq_refl) as [H _].
  rewrite H. reflexivity.
Defined.

(** X14. [update_params] reads only the first two fields of the event and
    ignores their case: two events whose first two fields agree up to case
    have the same effect, whatever follows. *)
Theorem update_params_case_insensitive (event1 event2 : string) (p : t) :
  map lower (take 2 (split ":" event1))
    = map lower (take 2 (split ":" event2)) ->
  update_params event1 p = update_params event2 p.
Proof.
  intros H. unfold update_params.
  destruct (split ":" event1) as [|a1 [|b1 r1]];
    destruct (split ":" event2) as [|a2 [|b2 r2]];
    cbn in H; try discriminate H;
    cbv [mbind M_bind mret M_ret item nth_error get raise];
    try reflexivity.
  - injection H as Ha. rewrite Ha. reflexivity.
  - injection H as Ha Hb. rewrite Ha, Hb. reflexivity.
Qed.

Lemma update_params_case_insensitive_witness :
  update_params "Update:FPS:now" (a_panel (a_widget camera12) 25 10 0 false)
  = update_params "update:fps" (a_panel (a_widget camera12) 25 10 0 false).
Proof.
  exact (update_params_case_insensitive "Update:FPS:now" "update:fps"
           (a_panel (a_widget camera12) 25 10 0 false) eq_refl).
Defined.

End PanelEvents.

(** ** What the worker emits *)

Section Emission.

Import CameraThread.

Lemma emitted_inv_step (imgs : nat -> grab) (g0 : nat)
    (base : list (list Byte.byte)) (pc pc' : run_pc) (self self' : t) :
  emitted_inv imgs g0 base pc self ->
  run_step pc self = Some (pc', self') ->
  emitted_inv imgs g0 base pc' self'.
Proof.
  intros (c & frames & Hc & Himgs & Hacq & Hmap & Hg) Hstep.
  unfold emitted_inv.
  destruct pc; cbn in Hstep; rewrite ?Hc in Hstep.
  - (* line 57 *)
    destruct (camera_acquiring c); injection Hstep as <- <-;
      exists c, frames; auto.
  - injection Hstep as <- <-. eexists; exists frames.
    split; [reflexivity|]. auto.
  - injection Hstep as <- <-. eexists; exists frames.
    split; [reflexivity|]. auto.
  - injection Hstep as <- <-. eexists; exists frames.
    split; [reflexivity|]. auto.
  - injection Hstep as <- <-. exists c, frames. auto.
  - (* line 62 *)
    destruct (running self); injection Hstep as <- <-;
      exists c, frames; auto 6.
  - (* line 63 *)
    cbn [Device.get_image] in Hstep.
    destruct (images c (grabbed c)) as [raw|] eqn:Himg;
      injection Hstep as <- <-; eexists; exists frames;
      (split; [reflexivity|]); (split; [exact Himgs|]);
      (split; [exact Hacq|]); (split; [exact Hmap|]); cbn.
    + rewrite Hg. split; [reflexivity|]. rewrite <- Himgs, <- Hg. exact Himg.
    + right. rewrite Hg. reflexivity.
  - (* line 64 *)
    injection Hstep as <- <-. destruct Hg as [Hg Hbuf].
    exists c, (frames ++ [image_array]).
    split; [exact Hc|]. split; [exact Himgs|].
    split; [cbn; rewrite Hacq, <- app_assoc; reflexivity|].
    rewrite length_app. cbn [length].
    replace (length frames + 1)%nat with (S (length frames)) by lia.
    rewrite seq_S, !map_app, Hmap. cbn [map]. rewrite Hbuf.
    split; [reflexivity|]. rewrite Hg. lia.
  - injection Hstep as <- <-. exists c, frames. auto.
  - injection Hstep as <- <-. exists c, frames. auto.
  - discriminate Hstep.
Qed.

Lemma emitted_inv_run_from (imgs : nat -> grab) (g0 : nat)
    (base : list (list Byte.byte)) (fuel : nat) :
  forall pc self,
  emitted_inv imgs g0 base pc self ->
  emitted_inv imgs g0 base (fst (run_from fuel pc self))
    (snd (run_from fuel pc self)).
Proof.
  induction fuel as [|fuel IH]; intros pc self Hinv; [exact Hinv|].
  cbn [run_from].
  destruct (run_step pc self) as [[pc' self']|] eqn:E; [|exact Hinv].
  apply IH. exact (emitted_inv_step imgs g0 base pc pc' self self' Hinv E).
Qed.

(** X15. However long [run] is left to run, the frames it has emitted are
    exactly the buffers the device handed over since [run] began, in the
    order of the grabs: none is dropped, duplicated or reordered, and at
    most one grabbed buffer is still waiting to be emitted. *)
Theorem run_emits_buffers_in_order (fuel : nat) (self : t) (c : Camera) :
  camera self = Some c ->
  exists c' frames,
    camera (snd (run fuel self)) = Some c' /\
    image_acquired (snd (run fuel self)) = image_acquired self ++ frames /\
    map Buffer frames = map (images c) (seq (grabbed c) (length frames)) /\
    (grabbed c' = (grabbed c + length frames)%nat \/
     grabbed c' = S (grabbed c + length frames)).
Proof.
  intros Hc.
  assert (H0 : emitted_inv (images c) (grabbed c) (image_acquired self)
                 L57 self).
  { exists c, []. rewrite app_nil_r, Nat.add_0_r. cbn. auto. }
  destruct (emitted_inv_run_from _ _ _ fuel L57 self H0)
    as (c' & frames & Hc' & _ & Hacq & Hmap & Hg).
  exists c', frames. split; [exact Hc'|]. split; [exact Hacq|].
  split; [exact Hmap|].
  destruct (fst (run_from fuel L57 self)); try (left; exact Hg);
    try exact Hg.
  right. apply Hg.
Qed.

Lemma run_emits_buffers_in_order_witness :
  exists c' frames,
    camera (snd (run 14 (set_camera steady_camera init))) = Some c' /\
    image_acquired (snd (run 14 (set_camera steady_camera init)))
      = [] ++ frames /\
    map Buffer frames = map (images steady_camera) (seq 0 (length frames)) /\
    (grabbed c' = (0 + length frames)%nat \/
     grabbed c' = S (0 + length frames)).
Proof.
  exact (run_emits_buffers_in_order 14 (set_camera steady_camera init)
           steady_camera eq_refl).
Defined.

(** X16. On a device that is not acquiring, [run] calls [init_camera],
    [alloc_memory] and [start_acquisition] once each, in this order,
    before its first grab; from then on it only calls [get_image]: it
    never stops the device and never releases the buffers itself. *)
Theorem run_initialises_once (fuel : nat) (self : t) (c : Camera) :
  camera self = Some c -> camera_acquiring c = false -> (4 <= fuel)%nat ->
  exists c' k,
    camera (snd (run fuel self)) = Some c' /\
    calls c' = calls c
               ++ [Call_init_camera; Call_alloc_memory;
                   Call_start_acquisition]
               ++ repeat Call_get_image k.
Proof.
  intros Hc Hacq Hfuel.
  replace fuel with (4 + (fuel - 4))%nat by lia.
  unfold run. rewrite (run_from_add 4).
  assert (H4 : run_from 4 L57 self =
               (L61, with_camera
                       (Device.start_acquisition
                          (Device.alloc_memory (Device.init_camera c)))
                       self)).
  { cbn [run_from run_step]. rewrite Hc, Hacq. cbn [run_from run_step].
    rewrite Hc. reflexivity. }
  rewrite H4. cbn [fst snd].
  destruct (fuel - 4)%nat as [|n].
  - eexists. exists 0%nat. split; [reflexivity|]. cbn.
    rewrite <- !app_assoc. reflexivity.
  - cbn [run_from run_step].
    edestruct (run_from_past_init n L62) as (c' & k & Hc' & Hk);
      [exact I | | exists c', k; split; [exact Hc'|]; rewrite Hk ].
    + reflexivity.
    + cbn. rewrite <- !app_assoc. reflexivity.
Qed.

Lemma run_initialises_once_witness :
  exists c' k,
    camera (snd (run 14 (set_camera steady_camera init))) = Some c' /\
    calls c' = [] ++ [Call_init_camera; Call_alloc_memory;
                      Call_start_acquisition]
               ++ repeat Call_get_image k.
Proof.
  apply (run_initialises_once 14 (set_camera steady_camera init)
           steady_camera eq_refl eq_refl). lia.
Defined.

End Emission.

(** ** Stopping without a running loop, and after the stop *)

Section AfterStop.

Import CameraThread.

(** X17. When the device reports that it is acquiring but the worker has
    returned, as after a loop ended by an exception, [stop] never returns:
    it clears the flag, sets the marker and waits at line 39 for ever,
    since nothing is left to clear the marker; the device is never called,
    neither stopped nor released. *)
Theorem stop_waits_forever (self : t) (c : Camera) (tr : list label) (s : sys) :
  camera self = Some c -> camera_acquiring c = true ->
  exec (mkSys self Run_returned L36) tr s ->
  stop_waiting (stop_at s) /\
  camera (self_of s) = Some c /\
  run_at s = Run_returned /\
  ~ In (Stop L42) tr /\ ~ In (Stop L44) tr /\
  ((3 <= length tr)%nat ->
   stop_at s = L39 /\ running (self_of s) = false /\
   stopping (self_of s) = true).
Proof.
  intros Hc Hacq Hexec.
  assert (H : stop_waiting (stop_at s) /\ camera (self_of s) = Some c /\
              run_at s = Run_returned /\
              Forall (fun l => exists pc, l = Stop pc /\ stop_waiting pc) tr /\
              match stop_at s with
              | L36 => length tr = 0%nat
              | L37 => length tr = 1%nat
              | L38 => length tr = 2%nat /\ running (self_of s) = false
              | _ => (3 <= length tr)%nat /\ running (self_of s) = false /\
                     stopping (self_of s) = true
              end).
  { induction Hexec as [|tr s1 l s2 _ IH Hstep].
    - cbn. repeat split; auto.
    - destruct IH as (Hw & Hcam & Hrun & Hall & Hlen).
      destruct Hstep as [s1 pc' self' H | s1 pc' self' H].
      + rewrite Hrun in H. discriminate H.
      + rewrite length_app. cbn [length stop_at self_of run_at].
        destruct (stop_at s1) eqn:Hat; try contradiction; cbn in H;
          rewrite ?Hcam, ?Hacq in H.
        * injection H as <- <-. repeat split; auto; [|lia].
          apply Forall_app. split; [exact Hall|]. repeat constructor.
          exists L36. split; [reflexivity | exact I].
        * injection H as <- <-. repeat split; auto; [|lia].
          apply Forall_app. split; [exact Hall|]. repeat constructor.
          exists L37. split; [reflexivity | exact I].
        * injection H as <- <-. destruct Hlen as [Hlen Hr].
          repeat split; auto; [|lia].
          apply Forall_app. split; [exact Hall|]. repeat constructor.
          exists L38. split; [reflexivity | exact I].
        * destruct Hlen as (Hlen & Hr & Hs). rewrite Hs in H.
          injection H as <- <-. repeat split; auto; [|lia].
          apply Forall_app. split; [exact Hall|]. repeat constructor.
          exists L39. split; [reflexivity | exact I]. }
  destruct H as (Hw & Hcam & Hrun & Hall & Hlen).
  split; [exact Hw|]. split; [exact Hcam|]. split; [exact Hrun|].
  rewrite Forall_forall in Hall.
  split; [|split].
  - intros Hin. apply list_elem_of_In, Hall in Hin.
    destruct Hin as (pc & E & Hpc). injection E as <-. exact Hpc.
  - intros Hin. apply list_elem_of_In, Hall in Hin.
    destruct Hin as (pc & E & Hpc). injection E as <-. exact Hpc.
  - intros H3. destruct (stop_at s); try contradiction; try lia.
    destruct Hlen as (_ & Hr & Hs). auto.
Qed.

Lemma stop_waits_forever_witness :
  let s := snd (schedule (repeat Controller 50)
                  (mkSys crashed_worker Run_returned L36)) in
  stop_at s = L39 /\ thread_acquiring (self_of s) = true /\
  stopping (self_of s) = true.
Proof.
  intros s.
  destruct (stop_waits_forever crashed_worker _ _ _ eq_refl eq_refl
              (schedule_exec (repeat Controller 50)
                 (mkSys crashed_worker Run_returned L36)))
    as (_ & Hcam & _ & _ & _ & H3).
  fold s in Hcam, H3.
  destruct H3 as (Hat & _ & Hs); [vm_compute; repeat constructor|].
  split; [exact Hat|]. split; [|exact Hs].
  unfold thread_acquiring. rewrite Hcam. reflexivity.
Defined.

Lemma sublist_In {A} (l k : list A) :
  l `sublist_of` k -> forall x, In x l -> In x k.
Proof.
  induction 1 as [|y l k _ IH|y l k _ IH]; intros x Hx.
  - exact Hx.
  - destruct Hx as [-> | Hx]; [left; reflexivity | right; auto].
  - right. auto.
Qed.

Lemma run_step_past_init (pc pc' : run_pc) (self self' : t) :
  past_init pc -> run_step pc self = Some (pc', self') ->
  past_init pc' /\ thread_acquiring self' = thread_acquiring self.
Proof.
  intros Hpc H. unfold thread_acquiring.
  destruct pc; try contradiction; cbn in H; step_cases H;
    try discriminate H; injection H as <- <-; cbn;
    rewrite ?Heqo; split; try exact I; reflexivity.
Qed.

Lemma stop_step_acquiring (pc pc' : stop_pc) (self self' : t) :
  stop_step pc self = Some (pc', self') ->
  thread_acquiring self' = thread_acquiring self \/
  (pc = L42 /\ thread_acquiring self' = false).
Proof.
  intros H. unfold thread_acquiring.
  destruct pc; cbn in H; step_cases H; try discriminate H;
    injection H as <- <-; cbn; rewrite ?Heqo;
    first [left; congruence | right; split; reflexivity].
Qed.

Lemma stopped_inv_step (s s' : sys) (tr : list label) (l : label) :
  stop_inv s tr -> stopped_inv s tr -> step s l s' ->
  stopped_inv s' (tr ++ [l]).
Proof.
  intros Hstop [Hloop Hdev] Hstep.
  assert (Hloop' : In (Run L65) (tr ++ [l]) -> past_init (run_at s')).
  { intros Hin. apply in_app_or in Hin as [Hin | [E | []]].
    - specialize (Hloop Hin).
      destruct Hstep as [s pc' self' H | s pc' self' H]; cbn [run_at].
      + exact (proj1 (run_step_past_init _ _ _ _ Hloop H)).
      + exact Hloop.
    - destruct Hstep as [s pc' self' H | s pc' self' H];
        [|discriminate E].
      injection E as E. rewrite E in H. cbn in H.
      injection H as <- <-. exact I. }
  split; [exact Hloop'|].
  intros Hin. apply in_app_or in Hin as [Hin | [E | []]].
  - destruct (Hdev Hin) as [H65 Hacq].
    split; [apply in_or_app; left; exact H65|].
    specialize (Hloop H65).
    destruct Hstep as [s pc' self' H | s pc' self' H]; cbn [self_of].
    + rewrite (proj2 (run_step_past_init _ _ _ _ Hloop H)). exact Hacq.
    + destruct (stop_step_acquiring _ _ _ _ H) as [E | [_ E]];
        [rewrite E; exact Hacq | exact E].
  - destruct Hstep as [s pc' self' H | s pc' self' H];
      [discriminate E|].
    injection E as E. unfold stop_inv in Hstop. rewrite E in Hstop.
    destruct Hstop as [_ Hh].
    split.
    + apply in_or_app. left.
      apply (sublist_In _ _ Hh). cbn. tauto.
    + rewrite E in H. cbn in H. cbn [self_of]. unfold thread_acquiring.
      destruct (camera (self_of s)) as [c|] eqn:Hcam;
        injection H as <- <-; cbn; rewrite ?Hcam; reflexivity.
Qed.

Lemma stopped_inv_exec (self : t) (tr : list label) (s : sys) :
  exec (initial self) tr s -> stop_inv s tr /\ stopped_inv s tr.
Proof.
  induction 1 as [|tr s1 l s2 _ [IH1 IH2] Hstep].
  - split; [reflexivity|]. split; intros [].
  - split.
    + exact (stop_inv_step s1 s2 tr l IH1 Hstep).
    + exact (stopped_inv_step s1 s2 tr l IH1 IH2 Hstep).
Qed.

(** X18. In every interleaving of [stop] with [run], once the controller has
    called [stop_acquisition] the device stays stopped: the worker is past
    its initialisation and never calls [init_camera], [alloc_memory] or
    [start_acquisition] again, so the device reports that it is not
    acquiring from then on. *)
Theorem device_stays_stopped (self : t) (tr : list label) (s : sys) :
  exec (initial self) tr s -> In (Stop L42) tr ->
  thread_acquiring (self_of s) = false /\
  past_init (run_at s) /\
  (forall pre post, tr = pre ++ Stop L42 :: post ->
     ~ In (Run L58) post /\ ~ In (Run L59) post /\ ~ In (Run L60) post).
Proof.
  intros Hexec Hin.
  destruct (stopped_inv_exec self tr s Hexec) as [_ [Hloop Hdev]].
  destruct (Hdev Hin) as [H65 Hacq].
  split; [exact Hacq|]. split; [exact (Hloop H65)|].
  intros pre post E.
  assert (Hno : forall pc, ~ past_init pc -> ~ In (Run pc) post).
  { intros pc Hpc Hp. apply in_split in Hp as (p1 & p2 & ->).
    assert (E' : tr = (pre ++ Stop L42 :: p1) ++ Run pc :: p2).
    { rewrite E, <- app_assoc. reflexivity. }
    rewrite E' in Hexec.
    destruct (exec_split _ _ _ _ _ Hexec) as (s1 & s2 & Hpre & Hstep).
    destruct (stopped_inv_exec self _ s1 Hpre) as [_ [Hloop1 Hdev1]].
    destruct Hdev1 as [H65' _].
    { apply in_or_app. right. left. reflexivity. }
    apply Hpc. rewrite <- (step_run_label _ _ _ Hstep). exact (Hloop1 H65'). }
  repeat split; apply Hno; intros [].
Qed.

Lemma device_stays_stopped_witness :
  let s := snd (schedule stop_while_running
                  (initial (set_camera steady_camera init))) in
  thread_acquiring (self_of s) = false /\ past_init (run_at s).
Proof.
  intros s.
  pose proof (schedule_exec stop_while_running
                (initial (set_camera steady_camera init))) as Hexec.
  rewrite stop_while_running_trace in Hexec. fold s in Hexec.
  destruct (device_stays_stopped _ _ _ Hexec) as (H1 & H2 & _).
  - do 16 right. left. reflexivity.
  - split; [exact H1 | exact H2].
Defined.

End AfterStop.

(** ** The 'get' request of the threaded test window *)

Section RemoteGet.

Import MainWindow.

Lemma action_get_equation (render_ok : bool) (m : t)
    (d : CameraIdsWidget.display) (c : Camera) :
  camera_widget m = Some d -> window_camera m = Some c ->
  let complete := remote_get_completes render_ok (images c (grabbed c)) in
  exists c' out,
    action_get render_ok m
      = mk (CameraThread.with_camera c' (camera_thread m))
           (Some (remote_get_display render_ok (images c (grabbed c)) d))
           (stdout m ++ out) /\
    calls c' = calls c ++ remote_get_calls complete /\
    camera_acquiring c' = negb complete /\
    grabbed c' = S (grabbed c) /\
    (complete = false ->
     exists e,
       last out = Some ("Exception - action_get_image: " ++ exn_name e)%string).
Proof.
  intros Hd Hc complete. unfold complete.
  destruct m as [[run cam stp sig out0] wd out]. unfold window_camera in Hc.
  cbn in Hd, Hc. subst wd cam.
  unfold action_get, action_get_body.
  cbv [mbind M_bind camera_do camera_ask modify raise camera_widget
       camera_thread CameraThread.camera with_thread print with_widget
       CameraThread.with_camera Device.get_image].
  cbn -[exn_name String.append].
  destruct (images c (grabbed c)) as [raw|]; [destruct render_ok|];
    cbn -[exn_name String.append].
  - eexists. exists ["uint8"%string]. split; [reflexivity|].
    cbn. repeat rewrite <- app_assoc. repeat split; try reflexivity.
    discriminate.
  - eexists. eexists [_; _]. split.
    + rewrite <- app_assoc. reflexivity.
    + cbn. repeat rewrite <- app_assoc. repeat split; try reflexivity.
      intros _. exists RenderError. reflexivity.
  - eexists. eexists [_]. split; [reflexivity|].
    cbn. repeat rewrite <- app_assoc. repeat split; try reflexivity.
    intros _. exists DeviceError. reflexivity.
Qed.

(** X19. A 'get' request on a window with a camera initialises the device,
    allocates, starts and grabs once. Only when the grab hands over a
    buffer and the rendering succeeds does it show the bytes of the buffer
    and stop the device and release its buffers; otherwise it prints the
    exception, leaves the label as it was, and leaves the device
    acquiring with its buffers allocated. *)
Theorem remote_get_lifecycle (render_ok : bool) (m : t)
    (d : CameraIdsWidget.display) (c : Camera) :
  camera_widget m = Some d -> window_camera m = Some c ->
  let m' := action_get render_ok m in
  let complete := remote_get_completes render_ok (images c (grabbed c)) in
  exists c',
    window_camera m' = Some c' /\
    calls c' = calls c ++ remote_get_calls complete /\
    camera_acquiring c' = negb complete /\
    grabbed c' = S (grabbed c) /\
    camera_widget m'
      = Some (remote_get_display render_ok (images c (grabbed c)) d) /\
    (complete = false ->
     exists e,
       last (stdout m')
         = Some ("Exception - action_get_image: " ++ exn_name e)%string).
Proof.
  intros Hd Hc m' complete. unfold m'.
  destruct (action_get_equation render_ok m d c Hd Hc)
    as (c' & out & Heq & Hcalls & Hacq & Hgr & Hout).
  exists c'. rewrite Heq. cbn [camera_widget stdout].
  split; [reflexivity|]. split; [exact Hcalls|]. split; [exact Hacq|].
  split; [exact Hgr|]. split; [reflexivity|].
  intros Hf. destruct (Hout Hf) as [e He]. exists e.
  destruct out as [|x out] using rev_ind; [discriminate He|].
  rewrite last_snoc in He. rewrite app_assoc, last_snoc. exact He.
Qed.

Lemma remote_get_lifecycle_witness :
  (exists c',
     window_camera (action_get true (a_main_window camera12)) = Some c' /\
     calls c' = remote_get_calls true /\ camera_acquiring c' = false) /\
  (exists c',
     window_camera (action_get false (a_main_window camera12)) = Some c' /\
     calls c' = remote_get_calls false /\ camera_acquiring c' = true).
Proof.
  split.
  - destruct (remote_get_lifecycle true (a_main_window camera12)
                (CameraIdsWidget.Text "Image") camera12 eq_refl eq_refl)
      as (c' & H1 & H2 & H3 & _).
    exists c'. split; [exact H1|]. split; [exact H2 | exact H3].
  - destruct (remote_get_lifecycle false (a_main_window camera12)
                (CameraIdsWidget.Text "Image") camera12 eq_refl eq_refl)
      as (c' & H1 & H2 & H3 & _).
    exists c'. split; [exact H1|]. split; [exact H2 | exact H3].
Defined.

(** X20. After a 'get' request that was cut short, a worker that is started
    returns at once: it sees the device acquiring, skips the
    initialisation, finds [running] false, and neither calls the device
    nor emits a frame nor prints anything. *)
Theorem failed_get_blocks_worker (render_ok : bool) (m : t)
    (d : CameraIdsWidget.display) (c : Camera) (fuel : nat) :
  camera_widget m = Some d -> window_camera m = Some c ->
  CameraThread.running (camera_thread m) = false ->
  remote_get_completes render_ok (images c (grabbed c)) = false ->
  let th := camera_thread (action_get render_ok m) in
  CameraThread.run (S (S fuel)) th = (CameraThread.Run_returned, th).
Proof.
  intros Hd Hc Hrun Hfail th. unfold th.
  destruct (action_get_equation render_ok m d c Hd Hc)
    as (c' & out & Heq & _ & Hacq & _).
  rewrite Heq. cbn [camera_thread]. rewrite Hfail in Hacq. cbn in Hacq.
  clear Heq Hc. destruct (camera_thread m) as [run cam stp sig out0].
  cbn in Hrun. subst run.
  unfold CameraThread.run. cbn. rewrite Hacq. destruct fuel; reflexivity.
Qed.

Lemma failed_get_blocks_worker_witness :
  let th := camera_thread (action_get false (a_main_window camera12)) in
  CameraThread.run 5 th = (CameraThread.Run_returned, th).
Proof.
  exact (failed_get_blocks_worker false (a_main_window camera12)
           (CameraIdsWidget.Text "Image") camera12 3
           eq_refl eq_refl eq_refl eq_refl).
Defined.

End RemoteGet.

(** ** 'Mode GET' of the timer-driven test window *)

Section ModeGetSteps.

Import CameraIdsWidget MyMainWindow.

Variable c : Camera.
Hypothesis c_connected : connected c = true.
Hypothesis c_rate : ~ (frame_rate c == 0)%Q.

Lemma grab_to_outcome (name : string) (m : MyMainWindow.t) (k : nat)
    (extra : list dev_call) :
  advanced c k extra (central_widget m) ->
  exists m',
    main_timer (central_widget m')
      = mkTimer true (armed_interval (frame_rate c)) /\
    widget_acquiring (central_widget m') = Some true /\
    match picture c k with
    | Some a =>
        grab_to name m = (Val tt, m') /\
        files m' = files m ++ [(name, a)] /\
        advanced c (S k) (extra ++ period_calls true) (central_widget m')
    | None =>
        files m' = files m /\
        (grab_to name m = (Exc DeviceError, m') \/
         grab_to name m = (Exc ValueError, m') \/
         grab_to name m = (Exc Cv2Error, m'))
    end.
Proof.
  intros (ck & Hc & Hconn & Hrate & Hbits & Himgs & Hgr & Hcalls).
  assert (Hconn' : connected ck = true) by congruence.
  assert (Hrate' : ~ (frame_rate ck == 0)%Q) by (rewrite Hrate; exact c_rate).
  pose proof (get_image_equation (central_widget m) ck Hc Hconn' Hrate') as Heq.
  unfold picture. rewrite Himgs, Hgr, Hbits in Heq.
  unfold grab_to. cbv [mbind M_bind on_widget]. rewrite Heq. clear Heq.
  destruct (images c (grabbed c + k)) as [raw|].
  - destruct (raw_image (nb_bits c) raw) as [[|v a]|e] eqn:Hraw.
    + eexists. split; [|split; [|split; [|right; right; reflexivity]]].
      * cbn -[timer_interval Z.ltb]. rewrite Hrate. reflexivity.
      * reflexivity.
      * reflexivity.
    + eexists. split; [|split; [|split; [reflexivity|split; [reflexivity|]]]].
      * cbn -[timer_interval Z.ltb]. rewrite Hrate. reflexivity.
      * reflexivity.
      * exists (grabbed_camera ck). cbn -[period_calls].
        repeat split; try assumption.
        -- rewrite Hgr. symmetry. apply Nat.add_succ_r.
        -- rewrite Hcalls. cbn. repeat rewrite <- app_assoc. reflexivity.
    + assert (He : e = ValueError).
      { unfold raw_image in Hraw.
        destruct (8 <? nb_bits c); [|discriminate Hraw].
        destruct (view_uint16 raw); [discriminate Hraw|].
        injection Hraw as <-. reflexivity. }
      subst e. eexists. split; [|split; [|split; [|right; left; reflexivity]]].
      * cbn -[timer_interval Z.ltb]. rewrite Hrate. reflexivity.
      * reflexivity.
      * reflexivity.
  - eexists. split; [|split; [|split; [|left; reflexivity]]].
    + cbn -[timer_interval Z.ltb]. rewrite Hrate. reflexivity.
    + reflexivity.
    + reflexivity.
Qed.

Lemma grabs_then_buffers (names : list string) :
  forall (k : nat) (m : MyMainWindow.t) (extra : list dev_call)
         (imgs : list (list Z)) (kont : M MyMainWindow.t unit),
    advanced c k extra (central_widget m) ->
    map (picture c) (seq k (length names)) = map Some imgs ->
    exists m',
      grabs_then names kont m = kont m' /\
      files m' = files m ++ zip names imgs /\
      advanced c (k + length names) (extra ++ grabs_calls (length names))
        (central_widget m').
Proof.
  induction names as [|name names IH]; intros k m extra imgs kont Hadv Hpic.
  - exists m. destruct imgs; [|discriminate Hpic].
    cbn. rewrite !app_nil_r, Nat.add_0_r. auto.
  - destruct imgs as [|a imgs]; [discriminate Hpic|].
    cbn [length seq map] in Hpic. injection Hpic as Ha Hrest.
    destruct (grab_to_outcome name m k extra Hadv) as (m1 & _ & _ & H1).
    rewrite Ha in H1. destruct H1 as (Hrun & Hfiles & Hadv1).
    destruct (IH (S k) m1 _ imgs kont Hadv1 Hrest) as (m' & Hrun' & Hfiles' & Hadv').
    exists m'. split; [|split].
    + cbn [grabs_then]. cbv [mbind M_bind]. rewrite Hrun. exact Hrun'.
    + rewrite Hfiles', Hfiles, <- app_assoc. reflexivity.
    + cbn [length]. rewrite Nat.add_succ_r.
      unfold grabs_calls in *. cbn [replicate concat].
      rewrite app_assoc. exact Hadv'.
Qed.

Lemma grabs_then_failure (names : list string) :
  forall (k j : nat) (m : MyMainWindow.t) (extra : list dev_call)
         (imgs : list (list Z)) (kont : M MyMainWindow.t unit),
    advanced c k extra (central_widget m) ->
    (j < length names)%nat ->
    map (picture c) (seq k j) = map Some imgs ->
    picture c (k + j) = None ->
    exists e m',
      grabs_then names kont m = (Exc e, m') /\
      (e = DeviceError \/ e = ValueError \/ e = Cv2Error) /\
      files m' = files m ++ zip names imgs /\
      main_timer (central_widget m')
        = mkTimer true (armed_interval (frame_rate c)) /\
      widget_acquiring (central_widget m') = Some true.
Proof.
  induction names as [|name names IH];
    intros k j m extra imgs kont Hadv Hj Hpic Hnone.
  - cbn in Hj. lia.
  - destruct (grab_to_outcome name m k extra Hadv) as (m1 & Htm & Hacq & H1).
    destruct j as [|j].
    + rewrite Nat.add_0_r in Hnone. rewrite Hnone in H1.
      destruct imgs; [|discriminate Hpic].
      destruct H1 as (Hfiles & [Hrun|[Hrun|Hrun]]).
      * exists DeviceError, m1. cbn [grabs_then]. cbv [mbind M_bind].
        rewrite Hrun. cbn. rewrite app_nil_r. auto.
      * exists ValueError, m1. cbn [grabs_then]. cbv [mbind M_bind].
        rewrite Hrun. cbn. rewrite app_nil_r. auto.
      * exists Cv2Error, m1. cbn [grabs_then]. cbv [mbind M_bind].
        rewrite Hrun. cbn. rewrite app_nil_r. auto 6.
    + destruct imgs as [|a imgs]; [discriminate Hpic|].
      cbn [seq map] in Hpic. injection Hpic as Ha Hrest.
      rewrite Ha in H1. destruct H1 as (Hrun & Hfiles & Hadv1).
      rewrite Nat.add_succ_r in Hnone.
      destruct (IH (S k) j m1 _ imgs kont Hadv1 ltac:(cbn in Hj; lia)
                  Hrest Hnone)
        as (e & m' & Hrun' & He & Hfiles' & Htm' & Hacq').
      exists e, m'. split; [|split; [exact He|split; [|split; assumption]]].
      * cbn [grabs_then]. cbv [mbind M_bind]. rewrite Hrun. exact Hrun'.
      * rewrite Hfiles', Hfiles, <- app_assoc. reflexivity.
Qed.

Lemma action_mode_get_unfold (m : MyMainWindow.t) :
  camera (central_widget m) = Some c ->
  exists m1,
    action_mode_get m
      = grabs_then mode_get_names (on_widget start_acquisition) m1 /\
    files m1 = files m /\
    advanced c 0 [Call_stop_acquisition] (central_widget m1).
Proof.
  intros Hc.
  exists (with_widget
            (with_camera (Some (Device.stop_acquisition c))
               (with_timer (mkTimer false (interval (main_timer (central_widget m))))
                  (central_widget m)))
            (MyMainWindow.print "GET" m)).
  split; [|split].
  - unfold action_mode_get.
    cbv [mbind M_bind modify on_widget]. cbn [central_widget MyMainWindow.print].
    rewrite (stop_acquisition_connected false (central_widget m) c Hc).
    reflexivity.
  - reflexivity.
  - exists (Device.stop_acquisition c). cbn.
    rewrite Nat.add_0_r. repeat split; reflexivity.
Qed.

End ModeGetSteps.

Section ModeGet.

Import CameraIdsWidget MyMainWindow.

(** X21. 'Mode GET' on a connected camera, with a frame rate whose
    interval fits the timer, whose next five grabs hand over buffers that
    can be viewed at the camera's bit depth and are not empty: the five
    raw images are written under the names [myImage1.png] to
    [myImage5.png] in the order they were grabbed; the device is stopped
    once and then started six times, once by each [get_image] and once at
    the end; the window is left with the device acquiring and the timer
    armed at the interval [start_acquisition] computes for the frame
    rate. *)
Theorem mode_get_writes_five_frames (m : MyMainWindow.t) (c : Camera)
    (imgs : list (list Z)) :
  camera (central_widget m) = Some c ->
  connected c = true -> rate_in_range (frame_rate c) ->
  map (picture c) (seq 0 5) = map Some imgs ->
  exists m' c',
    action_mode_get m = (Val tt, m') /\
    files m' = files m ++ zip mode_get_names imgs /\
    camera (central_widget m') = Some c' /\
    calls c'
      = calls c ++ [Call_stop_acquisition] ++ grabs_calls 5
                ++ [Call_start_acquisition; Call_get_frame_rate] /\
    grabbed c' = (grabbed c + 5)%nat /\
    camera_acquiring c' = true /\
    main_timer (central_widget m')
      = mkTimer true (timer_interval (frame_rate c)).
Proof.
  intros Hc c_connected Hrange Hpic.
  pose proof (Qpos_nonzero _ (proj1 Hrange)) as c_rate.
  rewrite <- (armed_interval_in_range _ Hrange).
  destruct (action_mode_get_unfold c m Hc) as (m1 & Hrun & Hfiles & Hadv).
  destruct (grabs_then_buffers c c_connected c_rate mode_get_names 0 m1 _ imgs
              (on_widget start_acquisition) Hadv Hpic)
    as (m2 & Hrun2 & Hfiles2 & Hadv2).
  destruct Hadv2 as (c2 & Hc2 & Hconn & Hrate & Hbits & Himgs & Hgr & Hcalls).
  assert (Hrate2 : ~ (frame_rate c2 == 0)%Q) by (rewrite Hrate; exact c_rate).
  rewrite Hrun, Hrun2. unfold on_widget.
  rewrite (start_acquisition_connected (central_widget m2) c2 Hc2 Hrate2).
  eexists. exists (started_camera c2).
  split; [reflexivity|]. split; [|split; [reflexivity|split; [|split; [|split]]]].
  - cbn [files with_widget]. rewrite Hfiles2, Hfiles. reflexivity.
  - cbn. rewrite Hcalls. repeat rewrite <- app_assoc. reflexivity.
  - exact Hgr.
  - reflexivity.
  - cbn -[timer_interval Z.ltb]. rewrite Hrate. reflexivity.
Qed.

Lemma mode_get_writes_five_frames_witness :
  exists m',
    action_mode_get (a_window five_frame_camera) = (Val tt, m') /\
    files m'
      = zip mode_get_names [[1; 2]; [3; 4]; [5; 6]; [7; 8]; [9; 10]].
Proof.
  assert (Hr : rate_in_range (frame_rate five_frame_camera))
    by (split; [reflexivity | discriminate]).
  destruct (mode_get_writes_five_frames (a_window five_frame_camera)
              five_frame_camera [[1; 2]; [3; 4]; [5; 6]; [7; 8]; [9; 10]]
              eq_refl eq_refl Hr eq_refl)
    as (m' & c' & H1 & H2 & _).
  exists m'. split; [exact H1 | exact H2].
Defined.

(** X22. If one of the five grabs of 'Mode GET' fails, or hands over a buffer
    that cannot be viewed or is empty, an exception leaves
    [action_mode_get], raised by the device, by the view or by
    [cv2.imwrite]: only the images grabbed before it are written, and the
    window is left with the device acquiring and the periodic timer
    running again, although 'Mode GET' began by stopping both. *)
Theorem mode_get_stops_at_failed_grab (m : MyMainWindow.t) (c : Camera)
    (j : nat) (imgs : list (list Z)) :
  camera (central_widget m) = Some c ->
  connected c = true -> rate_in_range (frame_rate c) ->
  (j < 5)%nat ->
  map (picture c) (seq 0 j) = map Some imgs ->
  picture c j = None ->
  exists e m',
    action_mode_get m = (Exc e, m') /\
    (e = DeviceError \/ e = ValueError \/ e = Cv2Error) /\
    files m' = files m ++ zip mode_get_names imgs /\
    length (files m') = (length (files m) + j)%nat /\
    main_timer (central_widget m')
      = mkTimer true (timer_interval (frame_rate c)) /\
    widget_acquiring (central_widget m') = Some true.
Proof.
  intros Hc c_connected Hrange Hj Hpic Hnone.
  pose proof (Qpos_nonzero _ (proj1 Hrange)) as c_rate.
  rewrite <- (armed_interval_in_range _ Hrange).
  destruct (action_mode_get_unfold c m Hc) as (m1 & Hrun & Hfiles & Hadv).
  destruct (grabs_then_failure c c_connected c_rate mode_get_names 0 j m1 _ imgs
              (on_widget start_acquisition) Hadv Hj Hpic Hnone)
    as (e & m' & Hrun' & He & Hfiles' & Htm & Hacq).
  exists e, m'. rewrite Hrun, Hrun', Hfiles', Hfiles.
  split; [reflexivity|]. split; [exact He|]. split; [reflexivity|].
  split; [|split; assumption].
  rewrite length_app. f_equal.
  assert (Hlen : length imgs = j).
  { apply (f_equal (@length _)) in Hpic.
    rewrite !length_map, length_seq in Hpic. symmetry. exact Hpic. }
  rewrite length_zip. unfold mode_get_names. cbn [length]. lia.
Qed.

Lemma mode_get_stops_at_failed_grab_witness :
  exists e m',
    action_mode_get (a_window two_frame_camera) = (Exc e, m') /\
    files m' = zip mode_get_names [[1; 2]; [3; 4]] /\
    isActive (main_timer (central_widget m')) = true.
Proof.
  assert (Hr : rate_in_range (frame_rate two_frame_camera))
    by (split; [reflexivity | discriminate]).
  destruct (mode_get_stops_at_failed_grab (a_window two_frame_camera)
              two_frame_camera 2 [[1; 2]; [3; 4]]
              eq_refl eq_refl Hr ltac:(lia) eq_refl eq_refl)
    as (e & m' & H1 & _ & H2 & _ & H3 & _).
  exists e, m'. split; [exact H1|]. split; [exact H2|].
  rewrite H3. reflexivity.
Defined.

End ModeGet.
